(** * LightDom SEO ranking core: feature scoring, feature engineering,
      batch ranking metrics and pairwise loss.

    Shallow embedding of
      - src/seo/ml/FeatureScoringSystem.py  (FeatureScoreThresholds)
      - src/seo/ml/RankingPredictor.py      (SEORankingPredictor,
                                             handle_imbalanced_data)
      - src/seo/ml/NeuralNetworkRealTime.py (LambdaRankLoss, SEORankingDataset,
                                             DeepRankingNetwork,
                                             RealTimeTrainingCallback,
                                             RealTimeNeuralRanker)
      - src/seo/ml/FeatureEngineering.py    (SEOFeatureEngineer)
      - src/seo/ml/train_seo_model.py       (SEOModelTrainer._calculate_ndcg)
      - src/seo/ml/analyze_seo.py           (scores, ratings, positions)

    Conventions.  Python floats are modelled by exact rationals [Q] where the
    code only adds, multiplies, divides and compares, and by real numbers [R]
    where it calls log2, exp or log.  Integer labels are numpy int64 values:
    arithmetic on them wraps around.  A pandas object that the code reads by
    index label is a list of rows with their labels.  A raised exception is
    [None] in the [option] monad.  Python dicts keep insertion order, so they are
    association lists with replace-in-place update. *)

From Stdlib Require Import String Bool Arith ZArith QArith Qround List.
From Stdlib Require Import Reals Permutation Sorted Psatz.
Import ListNotations.

Local Open Scope string_scope.
Local Open Scope list_scope.
Local Open Scope Q_scope.

(** ** Exceptions as [option] *)

Notation "x <- e ;; k" :=
  (match e with Some x => k | None => None end)
  (at level 61, e at next level, right associativity).
Notation "' p <- e ;; k" :=
  (match e with Some p => k | None => None end)
  (at level 61, p pattern, e at next level, right associativity).

(** ** Insertion-ordered dictionaries *)

Section Dict.
Context {K V : Type} (K_eqb : K -> K -> bool).

Fixpoint dict_get (k : K) (d : list (K * V)) : option V :=
  match d with
  | [] => None
  | (k', v) :: rest => if K_eqb k k' then Some v else dict_get k rest
  end.

Definition dict_mem (k : K) (d : list (K * V)) : bool :=
  match dict_get k d with Some _ => true | None => false end.

(* d[k] = v : an existing key keeps its position, a new key goes last *)
Fixpoint dict_set (k : K) (v : V) (d : list (K * V)) : list (K * V) :=
  match d with
  | [] => [(k, v)]
  | (k', v') :: rest =>
      if K_eqb k k' then (k, v) :: rest else (k', v') :: dict_set k v rest
  end.

Definition dict_values (d : list (K * V)) : list V := map snd d.
End Dict.

(** ** Rational helpers *)

Definition Qlt_bool (x y : Q) : bool := negb (Qle_bool y x).

(* Python's [a / b] on floats: ZeroDivisionError when b is zero *)
Definition py_div (a b : Q) : option Q :=
  if Qeq_bool b 0 then None else Some (a / b).

(* Python's [max(a, b)]: the first argument wins unless b is strictly larger *)
Definition py_max (a b : Q) : Q := if Qlt_bool a b then b else a.

Definition Qsum (l : list Q) : Q := fold_left Qplus l 0.

(* np.mean over a list of floats *)
Definition np_mean (l : list Q) : Q := Qsum l / inject_Z (Z.of_nat (length l)).

(** * FeatureScoringSystem.py *)

Inductive DataQuality := EXCELLENT | GOOD | FAIR | POOR.

Inductive FeatureCategory :=
  | ON_PAGE | TECHNICAL | CORE_WEB_VITALS | AUTHORITY | ENGAGEMENT
  | CONTENT | TEMPORAL | INTERACTION | COMPOSITE.

Definition FeatureCategory_value (c : FeatureCategory) : string :=
  match c with
  | ON_PAGE => "on_page" | TECHNICAL => "technical"
  | CORE_WEB_VITALS => "core_web_vitals" | AUTHORITY => "authority"
  | ENGAGEMENT => "engagement" | CONTENT => "content"
  | TEMPORAL => "temporal" | INTERACTION => "interaction"
  | COMPOSITE => "composite"
  end.

Definition FeatureCategory_eqb (a b : FeatureCategory) : bool :=
  String.eqb (FeatureCategory_value a) (FeatureCategory_value b).

Definition DataQuality_eqb (a b : DataQuality) : bool :=
  match a, b with
  | EXCELLENT, EXCELLENT | GOOD, GOOD | FAIR, FAIR | POOR, POOR => true
  | _, _ => false
  end.

Module FeatureScoreThresholds.

(* One entry of the threshold table.  The 'description' text of the source
   entry is documentation only and is not carried. *)
Record ThresholdSpec := mkSpec {
  category : FeatureCategory;
  min_good : Q;
  max_good : Q;
  min_excellent : Q;
  max_excellent : Q;
  weight : Q;
  inverse : bool
}.

Definition Thresholds := list (string * ThresholdSpec).

(* FeatureScoreThresholds.get_all_thresholds *)
Definition get_all_thresholds : Thresholds := [
    ("title_tag_length", mkSpec ON_PAGE 30 70 50 60 1.5 false);
    ("title_keyword_present", mkSpec ON_PAGE 1 1 1 1 2.0 false);
    ("title_keyword_position", mkSpec ON_PAGE 0 40 0 10 1.3 true);
    ("meta_description_length", mkSpec ON_PAGE 120 160 140 155 1.2 false);
    ("meta_keyword_present", mkSpec ON_PAGE 1 1 1 1 1.5 false);
    ("url_length", mkSpec ON_PAGE 20 100 30 75 1.0 true);
    ("url_keyword_present", mkSpec ON_PAGE 1 1 1 1 1.8 false);
    ("url_depth", mkSpec ON_PAGE 1 3 1 2 1.1 true);
    ("h1_count", mkSpec ON_PAGE 1 1 1 1 1.8 false);
    ("h1_keyword_present", mkSpec ON_PAGE 1 1 1 1 1.7 false);
    ("h2_count", mkSpec ON_PAGE 2 8 3 6 1.2 false);
    ("h3_count", mkSpec ON_PAGE 0 15 3 10 1.0 false);
    ("content_word_count", mkSpec ON_PAGE 1000 5000 1800 3000 1.6 false);
    ("keyword_density", mkSpec ON_PAGE 0.5 2.5 1.0 2.0 1.3 false);
    ("internal_links_count", mkSpec ON_PAGE 3 20 5 15 1.2 false);
    ("external_links_count", mkSpec ON_PAGE 1 10 2 6 1.0 false);
    ("image_count", mkSpec ON_PAGE 1 20 3 12 1.1 false);
    ("images_with_alt_ratio", mkSpec ON_PAGE 0.7 1.0 0.9 1.0 1.4 false);
    ("https_enabled", mkSpec TECHNICAL 1 1 1 1 1.8 false);
    ("mobile_friendly", mkSpec TECHNICAL 1 1 1 1 1.9 false);
    ("page_load_time_ms", mkSpec TECHNICAL 500 3000 500 1500 1.7 true);
    ("page_size_kb", mkSpec TECHNICAL 500 3000 800 2000 1.2 true);
    ("robots_txt_present", mkSpec TECHNICAL 1 1 1 1 1.3 false);
    ("sitemap_xml_present", mkSpec TECHNICAL 1 1 1 1 1.5 false);
    ("canonical_tag_present", mkSpec TECHNICAL 1 1 1 1 1.4 false);
    ("structured_data_present", mkSpec TECHNICAL 1 1 1 1 1.6 false);
    ("crawl_errors_count", mkSpec TECHNICAL 0 5 0 0 1.5 true);
    ("broken_links_count", mkSpec TECHNICAL 0 3 0 0 1.4 true);
    ("lcp_score", mkSpec CORE_WEB_VITALS 0 2.5 0 1.8 2.0 true);
    ("fid_score", mkSpec CORE_WEB_VITALS 0 100 0 50 1.8 true);
    ("inp_score", mkSpec CORE_WEB_VITALS 0 200 0 100 2.0 true);
    ("cls_score", mkSpec CORE_WEB_VITALS 0 0.1 0 0.05 1.9 true);
    ("ttfb_score", mkSpec CORE_WEB_VITALS 0 800 0 200 1.5 true);
    ("fcp_score", mkSpec CORE_WEB_VITALS 0 1.8 0 1.0 1.6 true);
    ("speed_index", mkSpec CORE_WEB_VITALS 0 3.4 0 1.3 1.5 true);
    ("tbt_score", mkSpec CORE_WEB_VITALS 0 200 0 100 1.4 true);
    ("domain_authority", mkSpec AUTHORITY 30 100 50 100 1.8 false);
    ("page_authority", mkSpec AUTHORITY 20 100 40 100 1.7 false);
    ("domain_rating", mkSpec AUTHORITY 30 100 50 100 1.8 false);
    ("url_rating", mkSpec AUTHORITY 20 100 40 100 1.7 false);
    ("backlinks_total", mkSpec AUTHORITY 10 10000 100 10000 1.6 false);
    ("referring_domains", mkSpec AUTHORITY 5 5000 50 5000 1.9 false);
    ("dofollow_backlinks_ratio", mkSpec AUTHORITY 0.5 1.0 0.7 1.0 1.5 false);
    ("avg_referring_domain_rating", mkSpec AUTHORITY 30 100 50 100 1.7 false);
    ("trust_flow", mkSpec AUTHORITY 20 100 40 100 1.6 false);
    ("citation_flow", mkSpec AUTHORITY 20 100 40 100 1.5 false);
    ("organic_traffic_monthly", mkSpec ENGAGEMENT 100 1000000 1000 1000000 1.8 false);
    ("avg_session_duration_sec", mkSpec ENGAGEMENT 60 600 120 480 1.6 false);
    ("bounce_rate", mkSpec ENGAGEMENT 0.2 0.6 0.2 0.4 1.7 true);
    ("pages_per_session", mkSpec ENGAGEMENT 1.5 10.0 2.5 8.0 1.5 false);
    ("ctr_from_serp", mkSpec ENGAGEMENT 0.02 0.30 0.05 0.20 1.9 false);
    ("scroll_depth_avg", mkSpec ENGAGEMENT 0.4 1.0 0.6 1.0 1.3 false);
    ("return_visitor_rate", mkSpec ENGAGEMENT 0.2 0.8 0.4 0.7 1.4 false);
    ("readability_score", mkSpec CONTENT 40 80 50 70 1.4 false);
    ("content_uniqueness_ratio", mkSpec CONTENT 0.7 1.0 0.9 1.0 1.8 false);
    ("avg_sentence_length", mkSpec CONTENT 10 25 12 20 1.1 false);
    ("paragraph_count", mkSpec CONTENT 5 50 10 30 1.2 false);
    ("multimedia_elements_count", mkSpec CONTENT 2 20 4 15 1.3 false);
    ("video_present", mkSpec CONTENT 0 1 1 1 1.5 false);
    ("table_count", mkSpec CONTENT 0 10 1 5 1.1 false);
    ("list_count", mkSpec CONTENT 1 15 2 8 1.2 false);
    ("page_age_days", mkSpec TEMPORAL 30 3650 180 2000 1.3 false);
    ("last_updated_days_ago", mkSpec TEMPORAL 0 180 0 90 1.4 true);
    ("traffic_growth_7d", mkSpec TEMPORAL (-0.1) 1.0 0.05 0.5 1.5 false);
    ("traffic_growth_30d", mkSpec TEMPORAL (-0.1) 1.0 0.1 0.8 1.6 false);
    ("ranking_volatility", mkSpec TEMPORAL 0 5 0 2 1.2 true);
    ("content_authority_interaction", mkSpec INTERACTION 500 100000 2000 50000 1.7 false);
    ("engagement_position_interaction", mkSpec INTERACTION 0.1 1.0 0.3 0.9 1.6 false);
    ("mobile_traffic_mobile_friendly", mkSpec INTERACTION 0.3 1.0 0.5 1.0 1.5 false);
    ("authority_score", mkSpec COMPOSITE 30 100 50 100 1.9 false);
    ("technical_health_score", mkSpec COMPOSITE 0.7 1.0 0.9 1.0 1.8 false);
    ("content_quality_score", mkSpec COMPOSITE 60 100 80 100 1.9 false);
    ("eeat_score", mkSpec COMPOSITE 0.6 1.0 0.8 1.0 2.0 false);
    ("overall_seo_score", mkSpec COMPOSITE 60 100 80 100 2.0 false)
  ].

(* FeatureScoreThresholds.evaluate_feature *)
Definition evaluate_feature (feature_name : string) (value : Q)
    (thresholds : Thresholds) : option (DataQuality * Q) :=
  match dict_get String.eqb feature_name thresholds with
  | None => Some (FAIR, 0.5)
  | Some config =>
    let min_good := min_good config in
    let max_good := max_good config in
    let min_excellent := min_excellent config in
    let max_excellent := max_excellent config in
    if inverse config then
      if Qle_bool value min_excellent then Some (EXCELLENT, 1.0)
      else if Qle_bool value max_excellent then
        r <- py_div (value - min_excellent) (max_excellent - min_excellent) ;;
        Some (EXCELLENT, 0.85 + 0.15 * (1 - r))
      else if Qle_bool value min_good then
        r <- py_div (value - max_excellent) (min_good - max_excellent) ;;
        Some (GOOD, 0.7 + 0.15 * (1 - r))
      else if Qle_bool value max_good then
        r <- py_div (value - min_good) (max_good - min_good) ;;
        Some (FAIR, 0.5 + 0.2 * (1 - r))
      else
        r <- py_div (value - max_good) max_good ;;
        Some (POOR, py_max 0.1 (0.5 - 0.4 * r))
    else
      if Qle_bool min_excellent value && Qle_bool value max_excellent then
        Some (EXCELLENT, 1.0)
      else if Qle_bool min_good value && Qle_bool value max_good then
        if Qlt_bool value min_excellent then
          r <- py_div (0.15 * (value - min_good)) (min_excellent - min_good) ;;
          Some (GOOD, 0.7 + r)
        else
          r <- py_div (value - max_excellent) (max_good - max_excellent) ;;
          Some (GOOD, 0.85 + 0.15 * (1 - r))
      else if Qle_bool (min_good * 0.5) value && Qlt_bool value min_good then
        r <- py_div (0.2 * (value - min_good * 0.5)) (min_good * 0.5) ;;
        Some (FAIR, 0.5 + r)
      else
        (* max(0.1, 0.5 * (value / (min_good * 0.5)) if min_good > 0 else 0.1):
           the conditional expression is the whole second argument *)
        x <- (if Qlt_bool 0 min_good
              then r <- py_div value (min_good * 0.5) ;; Some (0.5 * r)
              else Some 0.1) ;;
        Some (POOR, py_max 0.1 x)
  end.

(* The dict returned by calculate_overall_quality *)
Record QualityReport := mkReport {
  overall_quality : DataQuality;
  overall_score : Q;
  feature_scores : list (string * (DataQuality * Q));
  category_scores : list (string * Q);
  good_features : nat;
  poor_features : nat;
  total_features : nat
}.

(* Loop-carried locals of calculate_overall_quality *)
Record QualityAcc := mkAcc {
  acc_feature_scores : list (string * (DataQuality * Q));
  acc_category_scores : list (FeatureCategory * list Q);
  weighted_sum : Q;
  total_weight : Q
}.

(* Body of [for feature_name, value in features.items()] *)
Fixpoint quality_loop (thresholds : Thresholds) (items : list (string * Q))
    (acc : QualityAcc) : option QualityAcc :=
  match items with
  | [] => Some acc
  | (feature_name, value) :: rest =>
    match dict_get String.eqb feature_name thresholds with
    | Some config =>
      '(quality, score) <- evaluate_feature feature_name value thresholds ;;
      let fs := dict_set String.eqb feature_name (quality, score)
                  (acc_feature_scores acc) in
      let cat := category config in
      let old := match dict_get FeatureCategory_eqb cat (acc_category_scores acc) with
                 | Some l => l
                 | None => []
                 end in
      let cs := dict_set FeatureCategory_eqb cat (old ++ [score])
                  (acc_category_scores acc) in
      quality_loop thresholds rest
        (mkAcc fs cs (weighted_sum acc + score * weight config)
                     (total_weight acc + weight config))
    | None => quality_loop thresholds rest acc
    end
  end.

Definition count_quality (p : DataQuality -> bool)
    (fs : list (string * (DataQuality * Q))) : nat :=
  length (filter (fun qs => p (fst qs)) (dict_values fs)).

(* FeatureScoreThresholds.calculate_overall_quality *)
Definition calculate_overall_quality (features : list (string * Q))
    (thresholds : Thresholds) : option QualityReport :=
  acc <- quality_loop thresholds features (mkAcc [] [] 0.0 0.0) ;;
  let overall_score :=
    if Qlt_bool 0 (total_weight acc)
    then (weighted_sum acc / total_weight acc) * 100
    else 0 in
  let category_scores :=
    map (fun kv => (FeatureCategory_value (fst kv), np_mean (snd kv) * 100))
        (acc_category_scores acc) in
  let overall_quality :=
    if Qle_bool 80 overall_score then EXCELLENT
    else if Qle_bool 70 overall_score then GOOD
    else if Qle_bool 50 overall_score then FAIR
    else POOR in
  Some (mkReport overall_quality overall_score (acc_feature_scores acc)
          category_scores
          (count_quality (fun q => DataQuality_eqb q EXCELLENT || DataQuality_eqb q GOOD)
             (acc_feature_scores acc))
          (count_quality (fun q => DataQuality_eqb q POOR) (acc_feature_scores acc))
          (length (acc_feature_scores acc))).

End FeatureScoreThresholds.

(** * numpy / pandas primitives used by the ranking code *)

Section InsertionSort.
Context {A : Type} (leb : A -> A -> bool).

Fixpoint insert_sorted (x : A) (l : list A) : list A :=
  match l with
  | [] => [x]
  | y :: t => if leb x y then x :: y :: t else y :: insert_sorted x t
  end.

(* ascending sort; equal keys keep their input order *)
Definition sort_by (l : list A) : list A := fold_right insert_sorted [] l.
End InsertionSort.

(* np.argsort / Series.argsort: the positions of the input, in ascending
   order of the values found there.  numpy leaves the order of equal values
   to the sort kind; here they keep their input order. *)
Definition argsort {A : Type} (leb : A -> A -> bool) (l : list A) : list nat :=
  map fst
    (sort_by (fun a b => leb (snd a) (snd b)) (combine (seq 0 (length l)) l)).

(* a[idx] with an integer index array, and DataFrame.iloc[idx]:
   IndexError when a position is out of bounds *)
Fixpoint take {A : Type} (l : list A) (idx : list nat) : option (list A) :=
  match idx with
  | [] => Some []
  | i :: rest =>
      x <- nth_error l i ;;
      xs <- take l rest ;;
      Some (x :: xs)
  end.

(* a[mask] with a boolean mask *)
Definition mask_select {A : Type} (mask : list bool) (l : list A) : list A :=
  map snd (filter fst (combine mask l)).

(* a[start:stop] *)
Definition slice {A : Type} (l : list A) (start stop : nat) : list A :=
  firstn (stop - start) (skipn start l).

(* np.unique / torch.unique: the distinct values, ascending *)
Definition np_unique (l : list Z) : list Z :=
  sort_by Z.leb (nodup Z.eq_dec l).

(* pd.Series(l).value_counts().sort_index().values *)
Definition value_counts_sort_index (l : list Z) : list nat :=
  map (count_occ Z.eq_dec l) (np_unique l).

(* Series.isin *)
Definition isin (l values : list Z) : list bool :=
  map (fun q => existsb (Z.eqb q) values) l.

(* int(x) on a float: truncation toward zero *)
Definition py_int (x : Q) : Z :=
  if Qle_bool 0 x then Qfloor x else Qceiling x.

Definition log2 (x : R) : R := (ln x / ln 2)%R.

(** * RankingPredictor.py *)

Module SEORankingPredictor.

(* The six arrays returned by prepare_ranking_data *)
Definition RankingSplit : Type :=
  list (list Q) * list (list Q) * list Z * list Z * list nat * list nat.

Section PrepareRankingData.

(* np.random.seed(self.random_state); np.random.choice(n, m, replace=False):
   the generator is numpy's, so the drawn sample is a parameter.  It is only
   called with 0 <= m <= n; outside that range numpy raises ValueError. *)
Variable np_random_choice : nat -> nat -> list nat.

Definition random_choice (n : nat) (m : Z) : option (list nat) :=
  if (m <? 0)%Z || (Z.of_nat n <? m)%Z then None
  else Some (np_random_choice n (Z.to_nat m)).

(* prepare_ranking_data up to the row split: the six locals
   X_train, X_test, y_train, y_test, qid_train, qid_test.  Frames and series
   are taken with their default positional index. *)
Definition prepare_ranking_rows (features : list (list Q)) (labels : list Z)
    (query_ids : list Z) (test_size : Q)
  : option (list (list Q) * list (list Q) * list Z * list Z * list Z * list Z) :=
  let sorted_indices := argsort Z.leb query_ids in
  features <- take features sorted_indices ;;
  labels <- take labels sorted_indices ;;
  query_ids <- take query_ids sorted_indices ;;
  let unique_queries := np_unique query_ids in
  let n_queries := length unique_queries in
  let n_test_queries := py_int (inject_Z (Z.of_nat n_queries) * test_size) in
  test_query_indices <- random_choice n_queries n_test_queries ;;
  test_queries <- take unique_queries test_query_indices ;;
  let test_mask := isin query_ids test_queries in
  let train_mask := map negb test_mask in
  let X_train := mask_select train_mask features in
  let X_test := mask_select test_mask features in
  let y_train := mask_select train_mask labels in
  let y_test := mask_select test_mask labels in
  let qid_train := mask_select train_mask query_ids in
  let qid_test := mask_select test_mask query_ids in
  Some (X_train, X_test, y_train, y_test, qid_train, qid_test).

(* The assignment to self.feature_names does not take part in the result *)
Definition prepare_ranking_data (features : list (list Q)) (labels : list Z)
    (query_ids : list Z) (test_size : Q) : option RankingSplit :=
  '(X_train, X_test, y_train, y_test, qid_train, qid_test) <-
     prepare_ranking_rows features labels query_ids test_size ;;
  let train_groups := value_counts_sort_index qid_train in
  let test_groups := value_counts_sort_index qid_test in
  Some (X_train, X_test, y_train, y_test, train_groups, test_groups).

End PrepareRankingData.

(* An int64 result of numpy: two's-complement wrap-around on overflow *)
Definition wrap_int64 (z : Z) : Z := ((z + 2 ^ 63) mod 2 ^ 64 - 2 ^ 63)%Z.

(* 2**relevance - 1 on a label of an int64 array: numpy raises ValueError
   for a negative integer exponent; the power and the subtraction are int64
   operations, which wrap around (2**64 is 0, 2**63 - 1 is 2**63 - 1 again
   only after two wraps) *)
Definition dcg_gain (relevance : Z) : option R :=
  if (relevance <? 0)%Z then None
  else Some (IZR (wrap_int64 (wrap_int64 (2 ^ relevance) - 1))).

(* for i, idx in enumerate(top_k_indices): dcg += (2**y_true[idx] - 1) / np.log2(i + 2) *)
Fixpoint dcg_loop (y_true : list Z) (i : nat) (top_k_indices : list nat)
    (dcg : R) : option R :=
  match top_k_indices with
  | [] => Some dcg
  | idx :: rest =>
      relevance <- nth_error y_true idx ;;
      g <- dcg_gain relevance ;;
      dcg_loop y_true (S i) rest (dcg + g / log2 (INR i + 2))%R
  end.

(* sum((2**rel - 1) / np.log2(i + 2) for i, rel in enumerate(ideal_relevances)) *)
Fixpoint idcg_sum (i : nat) (ideal_relevances : list Z) (acc : R) : option R :=
  match ideal_relevances with
  | [] => Some acc
  | rel :: rest =>
      g <- dcg_gain rel ;;
      idcg_sum (S i) rest (acc + g / log2 (INR i + 2))%R
  end.

(* The ideal DCG@K computed inside _calculate_ndcg_at_k *)
Definition ideal_dcg (y_true : list Z) (k : nat) : option R :=
  let ideal_relevances := firstn k (rev (sort_by Z.leb y_true)) in
  idcg_sum 0 ideal_relevances 0%R.

Definition _calculate_ndcg_at_k (y_true : list Z) (y_pred : list Q) (k : nat)
  : option R :=
  let sorted_indices := rev (argsort Qle_bool y_pred) in
  let top_k_indices := firstn (Nat.min k (length sorted_indices)) sorted_indices in
  dcg <- dcg_loop y_true 0 top_k_indices 0%R ;;
  idcg <- ideal_dcg y_true k ;;
  if Req_dec_T idcg 0 then Some 0%R else Some (dcg / idcg)%R.

(* for i, is_relevant in enumerate(sorted_true): ... precisions.append(...) *)
Fixpoint precisions_loop (sorted_true : list Z) (i relevant_count : nat)
    (precisions : list Q) : list Q :=
  match sorted_true with
  | [] => precisions
  | is_relevant :: rest =>
      if negb (is_relevant =? 0)%Z then
        let relevant_count := S relevant_count in
        let precision :=
          inject_Z (Z.of_nat relevant_count) / inject_Z (Z.of_nat (i + 1)) in
        precisions_loop rest (S i) relevant_count (precisions ++ [precision])
      else precisions_loop rest (S i) relevant_count precisions
  end.

(* (group_true >= 2).astype(int) *)
Definition binarize (group_true : list Z) : list Z :=
  map (fun t => if (2 <=? t)%Z then 1%Z else 0%Z) group_true.

Definition Zsum (l : list Z) : Z := fold_left Z.add l 0%Z.

(* The [for group_size in groups] loop of _calculate_map *)
Fixpoint map_loop (y_true : list Z) (y_pred : list Q) (groups : list nat)
    (start_idx : nat) (ap_scores : list Q) : option (list Q) :=
  match groups with
  | [] => Some ap_scores
  | group_size :: rest =>
      let end_idx := (start_idx + group_size)%nat in
      let group_pred := slice y_pred start_idx end_idx in
      let group_true := slice y_true start_idx end_idx in
      let binary_true := binarize group_true in
      if (Zsum binary_true =? 0)%Z then
        map_loop y_true y_pred rest end_idx ap_scores
      else
        let sorted_indices := rev (argsort Qle_bool group_pred) in
        sorted_true <- take binary_true sorted_indices ;;
        let precisions := precisions_loop sorted_true 0 0 [] in
        let ap := match precisions with [] => 0 | _ => np_mean precisions end in
        map_loop y_true y_pred rest end_idx (ap_scores ++ [ap])
  end.

Definition _calculate_map (y_true : list Z) (y_pred : list Q)
    (groups : list nat) : option Q :=
  ap_scores <- map_loop y_true y_pred groups 0 [] ;;
  Some (match ap_scores with [] => 0 | _ => np_mean ap_scores end).

End SEORankingPredictor.

(** * NeuralNetworkRealTime.py *)

Module LambdaRankLoss.

Definition ndcg_lambda_weight (positions_i positions_j : nat) : R :=
  Rabs (1 / log2 (INR positions_i + 2) - 1 / log2 (INR positions_j + 2))%R.

(* Body of the two nested pair loops for one (i, j) *)
Definition pair_step (sigma : Q) (q_scores q_labels : list Q) (i j : nat)
    (acc : R * nat) : R * nat :=
  let '(loss, count) := acc in
  if negb (Qeq_bool (nth i q_labels 0) (nth j q_labels 0)) then
    let positions :=
      argsort Nat.leb (argsort (fun a b => Qle_bool b a) q_scores) in
    let pos_i := nth i positions 0%nat in
    let pos_j := nth j positions 0%nat in
    let lambda_weight := ndcg_lambda_weight pos_i pos_j in
    let score_diff := nth i q_scores 0 - nth j q_scores 0 in
    let label_diff := nth i q_labels 0 - nth j q_labels 0 in
    let pair_loss :=
      if Qlt_bool 0 label_diff
      then ln (1 + exp (Q2R (- sigma * score_diff)))%R
      else ln (1 + exp (Q2R (sigma * score_diff)))%R in
    ((loss + lambda_weight * pair_loss)%R, S count)
  else acc.

(* for i in range(n): for j in range(i + 1, n): ... *)
Definition pair_loops (sigma : Q) (q_scores q_labels : list Q)
    (acc : R * nat) : R * nat :=
  let n := length q_scores in
  fold_left
    (fun acc i =>
       fold_left (fun acc j => pair_step sigma q_scores q_labels i j acc)
                 (seq (i + 1) (n - (i + 1))) acc)
    (seq 0 n) acc.

(* Body of [for qid in unique_queries] *)
Definition query_step (sigma : Q) (scores labels : list Q) (query_ids : list Z)
    (acc : R * nat) (qid : Z) : R * nat :=
  let mask := map (fun q => (q =? qid)%Z) query_ids in
  let q_scores := mask_select mask scores in
  let q_labels := mask_select mask labels in
  if (length q_scores <? 2)%nat then acc
  else pair_loops sigma q_scores q_labels acc.

Definition forward (sigma : Q) (scores labels : list Q) (query_ids : list Z)
  : R :=
  let unique_queries := np_unique query_ids in
  let '(loss, count) :=
    fold_left (query_step sigma scores labels query_ids) unique_queries
              (0%R, 0%nat) in
  (loss / INR (Nat.max count 1))%R.

End LambdaRankLoss.

(** * FeatureEngineering.py *)

Module SEOFeatureEngineer.

(** ** Numeric columns

    A numeric cell is a float: a finite value, an infinity or NaN.  Division
    follows numpy on float arrays, which never raises: x/0 is an infinity
    (NaN when x is 0 or NaN).  Signed zeros are not distinguished. *)

Inductive npfloat := Fin (q : Q) | PInf | NInf | NaN.

Definition fneg (a : npfloat) : npfloat :=
  match a with
  | Fin x => Fin (- x)
  | PInf => NInf
  | NInf => PInf
  | NaN => NaN
  end.

Definition fadd (a b : npfloat) : npfloat :=
  match a, b with
  | NaN, _ | _, NaN => NaN
  | Fin x, Fin y => Fin (x + y)
  | PInf, NInf | NInf, PInf => NaN
  | PInf, _ | _, PInf => PInf
  | NInf, _ | _, NInf => NInf
  end.

Definition fsub (a b : npfloat) : npfloat := fadd a (fneg b).

Definition fmul (a b : npfloat) : npfloat :=
  match a, b with
  | NaN, _ | _, NaN => NaN
  | Fin x, Fin y => Fin (x * y)
  | Fin x, PInf | PInf, Fin x =>
      if Qeq_bool x 0 then NaN else if Qlt_bool 0 x then PInf else NInf
  | Fin x, NInf | NInf, Fin x =>
      if Qeq_bool x 0 then NaN else if Qlt_bool 0 x then NInf else PInf
  | PInf, PInf | NInf, NInf => PInf
  | PInf, NInf | NInf, PInf => NaN
  end.

Definition fdiv (a b : npfloat) : npfloat :=
  match a, b with
  | NaN, _ | _, NaN => NaN
  | Fin x, Fin y =>
      if Qeq_bool y 0 then
        if Qeq_bool x 0 then NaN else if Qlt_bool 0 x then PInf else NInf
      else Fin (x / y)
  | Fin _, PInf | Fin _, NInf => Fin 0
  | PInf, Fin y => if Qlt_bool y 0 then NInf else PInf
  | NInf, Fin y => if Qlt_bool y 0 then PInf else NInf
  | PInf, PInf | PInf, NInf | NInf, PInf | NInf, NInf => NaN
  end.

(* a > 0 *)
Definition fgt0 (a : npfloat) : bool :=
  match a with
  | Fin x => Qlt_bool 0 x
  | PInf => true
  | NInf | NaN => false
  end.

(* The numeric columns of a pandas DataFrame, in column order.  Columns of
   other dtypes (text, timestamps) are neither read nor written by the ratio
   step and are left out. *)
Definition Series := list npfloat.
Definition DataFrame := list (string * Series).

(* all(col in df.columns for col in cols) *)
Definition has_columns (df : DataFrame) (cols : list string) : bool :=
  forallb (fun c => dict_mem String.eqb c df) cols.

(* df[name], read only under a has_columns guard *)
Definition col (df : DataFrame) (name : string) : Series :=
  match dict_get String.eqb name df with Some s => s | None => [] end.

(* df[name] = values *)
Definition set_col (name : string) (values : Series) (df : DataFrame)
  : DataFrame :=
  dict_set String.eqb name values df.

Fixpoint map2 {A B C : Type} (f : A -> B -> C) (a : list A) (b : list B)
  : list C :=
  match a, b with
  | x :: a', y :: b' => f x y :: map2 f a' b'
  | _, _ => []
  end.

(* np.where(cond, values, default) with a scalar default *)
Definition np_where (cond : list bool) (values : Series) (default : npfloat)
  : Series :=
  map2 (fun (c : bool) v => if c then v else default) cond values.

Definition series_gt0 (s : Series) : list bool := map fgt0 s.
Definition series_div (a b : Series) : Series := map2 fdiv a b.
Definition series_add (a b : Series) : Series := map2 fadd a b.
Definition series_mul (a b : Series) : Series := map2 fmul a b.

(* df[cols].sum(axis=1): row sums, NaN cells skipped *)
Definition row_sum (df : DataFrame) (cols : list string) : Series :=
  match cols with
  | [] => []
  | c :: rest =>
      let skipna (x : npfloat) := match x with NaN => Fin 0 | _ => x end in
      fold_left (fun acc c' => map2 fadd acc (map skipna (col df c')))
                rest (map skipna (col df c))
  end.

(* Series.replace(float('inf'), v) *)
Definition replace_inf (v : npfloat) (s : Series) : Series :=
  map (fun x => match x with PInf => v | _ => x end) s.

(* (col, col.replace('_anchors', '_anchor_ratio')) for col in anchor_cols *)
Definition anchor_cols : list (string * string) :=
  [ ("exact_match_anchors", "exact_match_anchor_ratio");
    ("partial_match_anchors", "partial_match_anchor_ratio");
    ("branded_anchors", "branded_anchor_ratio");
    ("generic_anchors", "generic_anchor_ratio") ].

(* # Image optimization ratio *)
Definition image_optimization_ratio (df : DataFrame) : DataFrame :=
  if has_columns df ["images_with_alt_text"; "image_count"] then
    set_col "image_alt_ratio"
      (np_where (series_gt0 (col df "image_count"))
         (series_div (col df "images_with_alt_text") (col df "image_count"))
         (Fin 1.0)) df
  else df.

(* # Link ratios *)
Definition link_ratios (df : DataFrame) : DataFrame :=
  if has_columns df ["dofollow_links"; "total_backlinks"] then
    set_col "dofollow_ratio"
      (np_where (series_gt0 (col df "total_backlinks"))
         (series_div (col df "dofollow_links") (col df "total_backlinks"))
         (Fin 0.0)) df
  else df.

(* # Authority distribution *)
Definition authority_distribution (df : DataFrame) : DataFrame :=
  if has_columns df ["high_authority_links"; "medium_authority_links";
                     "low_authority_links"; "total_backlinks"] then
    let df :=
      set_col "high_authority_ratio"
        (np_where (series_gt0 (col df "total_backlinks"))
           (series_div (col df "high_authority_links")
                       (col df "total_backlinks"))
           (Fin 0.0)) df in
    set_col "authority_concentration"
      (np_where (series_gt0 (col df "total_backlinks"))
         (series_div (col df "high_authority_links")
            (map (fun x => fadd x (Fin 1)) (col df "low_authority_links")))
         (Fin 0.0)) df
  else df.

(* # Anchor text diversity *)
Definition anchor_text_diversity (df : DataFrame) : DataFrame :=
  if has_columns df (map fst anchor_cols) then
    let total_anchors := row_sum df (map fst anchor_cols) in
    fold_left
      (fun df cr =>
         set_col (snd cr)
           (np_where (series_gt0 total_anchors)
              (series_div (col df (fst cr)) total_anchors) (Fin 0.0)) df)
      anchor_cols df
  else df.

(* # Content to code ratio *)
Definition content_to_code_ratio (df : DataFrame) : DataFrame :=
  if has_columns df ["content_length"; "javascript_size"; "css_size"] then
    let total_code :=
      series_add (col df "javascript_size") (col df "css_size") in
    let df :=
      set_col "content_to_code_ratio"
        (np_where (series_gt0 total_code)
           (series_div (col df "content_length") total_code) PInf) df in
    set_col "content_to_code_ratio"
      (replace_inf (Fin 100) (col df "content_to_code_ratio")) df
  else df.

(* # Engagement efficiency *)
Definition engagement_efficiency (df : DataFrame) : DataFrame :=
  if has_columns df ["engagement_rate"; "bounce_rate"] then
    set_col "engagement_efficiency"
      (series_mul (col df "engagement_rate")
         (map (fun x => fsub (Fin 1) x) (col df "bounce_rate"))) df
  else df.

(* The blocks of _create_ratio_features in source order; the
   'ctr_by_device' block between the last two is [pass] *)
Definition _create_ratio_features (df : DataFrame) : DataFrame :=
  let df := image_optimization_ratio df in
  let df := link_ratios df in
  let df := authority_distribution df in
  let df := anchor_text_diversity df in
  let df := content_to_code_ratio df in
  let df := engagement_efficiency df in
  df.

(** ** The pipeline

    engineer_features threads the instance through nine stages.  Apart from
    the ratio stage above, the stages are pandas, scipy and scikit-learn
    computations over the whole frame; each is a function of the frame it
    receives (none reads the instance, except the text stage, which reads and
    updates the TF-IDF vectorizer, and the scaling stage, which reads and
    updates the scaler).  They are parameters of the embedding; an exception
    in a stage is [None]. *)

(* The pandas / scikit-learn operations the pipeline is written against *)
Class Toolkit : Type := mkToolkit {
  Frame : Type;    (* pandas DataFrame *)
  Matrix : Type;   (* numpy 2-d array *)
  Corpus : Type;   (* Series of combined text *)
  Scaler : Type;   (* sklearn StandardScaler / RobustScaler object *)
  Tfidf : Type;    (* sklearn TfidfVectorizer object *)
  new_StandardScaler : Scaler;
  new_RobustScaler : Scaler;
  scaler_fit_transform : Scaler -> Matrix -> option (Scaler * Matrix);
  scaler_transform : Scaler -> Matrix -> option Matrix;
  new_TfidfVectorizer : Tfidf;
  tfidf_fit_transform : Tfidf -> Corpus -> option (Tfidf * Matrix);
  tfidf_transform : Tfidf -> Corpus -> option Matrix;
  (* the numeric columns of a frame, and the frame with them replaced *)
  numeric_part : Frame -> DataFrame;
  with_numeric_part : Frame -> DataFrame -> Frame;
  _create_basic_features : Frame -> option Frame;
  _create_interaction_features : Frame -> option Frame;
  _create_temporal_features : Frame -> option Frame;
  (* title, meta description and content statistics; also returns the list
     text_features of the text columns that are present *)
  text_statistics : Frame -> option (Frame * list string);
  (* df[text_features].fillna('').agg(' '.join, axis=1) *)
  combined_text : Frame -> list string -> option Corpus;
  (* pd.concat([df, tfidf_df], axis=1) with columns tfidf_0 .. tfidf_{n-1} *)
  concat_tfidf : Frame -> Matrix -> option Frame;
  _create_composite_scores : Frame -> option Frame;
  _log_transform_features : Frame -> option Frame;
  _handle_missing_values : Frame -> option Frame;
  (* df.select_dtypes(include=[np.number]).columns *)
  numeric_columns : Frame -> list string;
  (* df[cols] and df[cols] = values *)
  get_columns : Frame -> list string -> Matrix;
  set_columns : Frame -> list string -> Matrix -> option Frame;
  (* df.columns.tolist() *)
  columns : Frame -> list string
}.

Section Pipeline.

Context {T : Toolkit}.

Record SEOFeatureEngineer : Type := mkEngineer {
  scaler_type : string;
  create_interactions : bool;
  create_temporal : bool;
  create_ratios : bool;
  create_text_features : bool;
  scaler : option Scaler;
  tfidf_vectorizer : Tfidf;
  feature_names : list string
}.

Definition __init__ (scaler_type : string)
    (create_interactions create_temporal create_ratios create_text_features : bool)
  : SEOFeatureEngineer :=
  mkEngineer scaler_type create_interactions create_temporal create_ratios
    create_text_features
    (if String.eqb scaler_type "standard" then Some new_StandardScaler
     else if String.eqb scaler_type "robust" then Some new_RobustScaler
     else None)
    new_TfidfVectorizer [].

Definition _create_text_features (tfidf : Tfidf) (df : Frame) (fit : bool)
  : option (Frame * Tfidf) :=
  '(df, text_features) <- text_statistics df ;;
  match text_features with
  | [] => Some (df, tfidf)
  | _ :: _ =>
      if fit then
        combined <- combined_text df text_features ;;
        '(tfidf, tfidf_matrix) <- tfidf_fit_transform tfidf combined ;;
        df <- concat_tfidf df tfidf_matrix ;;
        Some (df, tfidf)
      else
        combined <- combined_text df text_features ;;
        tfidf_matrix <- tfidf_transform tfidf combined ;;
        df <- concat_tfidf df tfidf_matrix ;;
        Some (df, tfidf)
  end.

Definition engineer_features (self : SEOFeatureEngineer) (df : Frame)
    (fit : bool) : option (Frame * SEOFeatureEngineer) :=
  let df_features := df in
  df_features <- _create_basic_features df_features ;;
  let df_features :=
    if create_ratios self
    then with_numeric_part df_features
           (_create_ratio_features (numeric_part df_features))
    else df_features in
  df_features <- (if create_interactions self
                  then _create_interaction_features df_features
                  else Some df_features) ;;
  df_features <- (if create_temporal self
                  then _create_temporal_features df_features
                  else Some df_features) ;;
  '(df_features, tfidf) <-
     (if create_text_features self
      then _create_text_features (tfidf_vectorizer self) df_features fit
      else Some (df_features, tfidf_vectorizer self)) ;;
  df_features <- _create_composite_scores df_features ;;
  df_features <- _log_transform_features df_features ;;
  df_features <- _handle_missing_values df_features ;;
  '(df_features, scaler) <-
     match scaler self with
     | Some sc =>
         let numeric_features := numeric_columns df_features in
         if fit then
           '(sc, scaled) <- scaler_fit_transform sc
                              (get_columns df_features numeric_features) ;;
           df_features <- set_columns df_features numeric_features scaled ;;
           Some (df_features, Some sc)
         else
           scaled <- scaler_transform sc
                       (get_columns df_features numeric_features) ;;
           df_features <- set_columns df_features numeric_features scaled ;;
           Some (df_features, Some sc)
     | None => Some (df_features, None)
     end ;;
  Some (df_features,
        mkEngineer (scaler_type self) (create_interactions self)
          (create_temporal self) (create_ratios self)
          (create_text_features self) scaler tfidf (columns df_features)).

End Pipeline.

End SEOFeatureEngineer.

(** * RankingPredictor.py: downsampling and evaluation *)

(* Series.sum() of a boolean mask *)
Definition mask_sum (mask : list bool) : nat := count_occ bool_dec mask true.

(* A pandas Series or DataFrame: its rows, each with its index label *)
Definition IndexedSeries (A : Type) : Type := list (Z * A).
Definition index {A : Type} (s : IndexedSeries A) : list Z := map fst s.
Definition values {A : Type} (s : IndexedSeries A) : list A := map snd s.

(* s.loc[keys]: for each key in turn, the rows labelled with it; a key that
   labels no row raises KeyError *)
Fixpoint loc {A : Type} (s : IndexedSeries A) (keys : list Z)
  : option (IndexedSeries A) :=
  match keys with
  | [] => Some []
  | key :: rest =>
      match filter (fun row => (fst row =? key)%Z) s with
      | [] => None
      | rows => tail <- loc s rest ;; Some (rows ++ tail)
      end
  end.

Section HandleImbalancedData.

(* np.random.choice(a, size=m, replace=False): the generator is numpy's, so
   the drawn sample is a parameter.  It is only called with
   0 <= m <= len(a); outside that range numpy raises ValueError. *)
Variable np_random_choice_from : list Z -> nat -> list Z.

Definition random_choice_from (a : list Z) (m : Z) : option (list Z) :=
  if (m <? 0)%Z || (Z.of_nat (length a) <? m)%Z then None
  else Some (np_random_choice_from a (Z.to_nat m)).

(* n_high / target_ratio is a numpy division, which gives inf or nan for a
   zero ratio; int() then raises, so a zero ratio raises either way.
   labels[mask].index are index labels, and .loc reads rows by label. *)
Definition handle_imbalanced_data (features : IndexedSeries (list Q))
    (labels query_ids : IndexedSeries Z) (target_ratio : Q)
  : option (IndexedSeries (list Q) * IndexedSeries Z * IndexedSeries Z) :=
  let high_ranking_mask := map (fun l => (2 <=? l)%Z) (values labels) in
  let low_ranking_mask := map (fun l => (l <? 2)%Z) (values labels) in
  let n_high := mask_sum high_ranking_mask in
  let n_low := mask_sum low_ranking_mask in
  ratio <- py_div (inject_Z (Z.of_nat n_high)) target_ratio ;;
  let n_low_target := py_int ratio in
  if (n_low_target <? Z.of_nat n_low)%Z then
    let low_indices := mask_select low_ranking_mask (index labels) in
    sampled_low_indices <- random_choice_from low_indices n_low_target ;;
    let keep_indices :=
      mask_select high_ranking_mask (index labels) ++ sampled_low_indices in
    let keep_indices := sort_by Z.leb keep_indices in
    features <- loc features keep_indices ;;
    labels <- loc labels keep_indices ;;
    query_ids <- loc query_ids keep_indices ;;
    Some (features, labels, query_ids)
  else Some (features, labels, query_ids).

End HandleImbalancedData.

From Stdlib Require Import DecimalString Qreals.

Module RankingMetrics.
Import SEORankingPredictor.







End RankingMetrics.

(** * NeuralNetworkRealTime.py: dataset, network, streaming, training loop *)

Module SEORankingDataset.

Record SEORankingDataset := mkDataset {
  features : list (list Q);
  labels : list Q;
  query_ids : list Z
}.

(* np.arange(n) *)
Definition np_arange (n : nat) : list Z := map Z.of_nat (seq 0 n).

Definition __init__ (features : list (list Q)) (labels : list Q)
    (query_ids : option (list Z)) : SEORankingDataset :=
  mkDataset features labels
    (match query_ids with
     | Some query_ids => query_ids
     | None => np_arange (length features)
     end).

Definition __len__ (self : SEORankingDataset) : nat := length (features self).

(* IndexError when idx is out of range for one of the three arrays *)
Definition __getitem__ (self : SEORankingDataset) (idx : nat)
  : option (list Q * Q * Z) :=
  f <- nth_error (features self) idx ;;
  l <- nth_error (labels self) idx ;;
  q <- nth_error (query_ids self) idx ;;
  Some (f, l, q).

(* The batch a DataLoader builds for a list of row positions: the items
   fetched with __getitem__, collated field by field *)
Fixpoint batch (self : SEORankingDataset) (indices : list nat)
  : option (list (list Q) * list Q * list Z) :=
  match indices with
  | [] => Some ([], [], [])
  | idx :: rest =>
      '(f, l, q) <- __getitem__ self idx ;;
      '(fs, ls, qs) <- batch self rest ;;
      Some (f :: fs, l :: ls, q :: qs)
  end.

End SEORankingDataset.

Module DeepRankingNetwork.

Inductive layer :=
| Linear (in_features out_features : nat)
| BatchNorm1d (num_features : nat)
| ReLU
| Dropout (p : Q).

(* for hidden_dim in hidden_dims: ... prev_dim = hidden_dim *)
Fixpoint hidden_layers (prev_dim : nat) (hidden_dims : list nat) (dropout : Q)
    (use_batch_norm : bool) (layers : list layer) : list layer * nat :=
  match hidden_dims with
  | [] => (layers, prev_dim)
  | hidden_dim :: rest =>
      let layers := layers ++ [Linear prev_dim hidden_dim] in
      let layers :=
        if use_batch_norm then layers ++ [BatchNorm1d hidden_dim]
        else layers in
      let layers := layers ++ [ReLU] in
      let layers := layers ++ [Dropout dropout] in
      hidden_layers hidden_dim rest dropout use_batch_norm layers
  end.

(* The layer list handed to nn.Sequential by __init__ *)
Definition __init__ (input_dim : nat) (hidden_dims : list nat) (dropout : Q)
    (use_batch_norm : bool) : list layer :=
  let '(layers, prev_dim) :=
    hidden_layers input_dim hidden_dims dropout use_batch_norm [] in
  layers ++ [Linear prev_dim 1].

End DeepRankingNetwork.

Module RealTimeTrainingCallback.
Import SEOFeatureEngineer.

(* A value of a metrics dictionary *)
Inductive value := Str (s : string) | Int (z : Z) | Num (x : npfloat).

Definition Metrics := list (string * value).

(* metric_queue: the queue.Queue given to __init__, oldest entry first, or
   None.  ws: the messages handed to ws.send while a socket is connected;
   a failing send is caught and only printed. *)
Record RealTimeTrainingCallback := mkCallback {
  metric_queue : option (list Metrics);
  ws : option (list Metrics);
  log_interval : Z
}.

Definition send_metrics (self : RealTimeTrainingCallback) (metrics : Metrics)
  : RealTimeTrainingCallback :=
  mkCallback
    (match metric_queue self with
     | Some q => Some (q ++ [metrics])
     | None => None
     end)
    (match ws self with
     | Some sent => Some (sent ++ [metrics])
     | None => None
     end)
    (log_interval self).

(* {'type': ..., 'epoch': epoch, 'timestamp': now, **metrics}: a key of
   metrics that is already there replaces the value in place *)
Definition epoch_message (epoch : Z) (now : string) (metrics : Metrics)
  : Metrics :=
  fold_left (fun d kv => dict_set String.eqb (fst kv) (snd kv) d) metrics
    [("type", Str "epoch_metrics"); ("epoch", Int epoch);
     ("timestamp", Str now)].

(* epoch % self.log_interval raises ZeroDivisionError for a zero interval;
   now is datetime.now().isoformat() *)
Definition on_epoch_end (self : RealTimeTrainingCallback) (epoch : Z)
    (now : string) (metrics : Metrics) : option RealTimeTrainingCallback :=
  if (log_interval self =? 0)%Z then None
  else if (epoch mod log_interval self =? 0)%Z || (epoch =? 0)%Z then
    Some (send_metrics self (epoch_message epoch now metrics))
  else Some self.

Definition on_batch_end (self : RealTimeTrainingCallback) (batch : Z)
    (now : string) (loss : npfloat) : option RealTimeTrainingCallback :=
  if (log_interval self * 10 =? 0)%Z then None
  else if (batch mod (log_interval self * 10) =? 0)%Z then
    Some (send_metrics self
            [("type", Str "batch_metrics"); ("batch", Int batch);
             ("loss", Num loss); ("timestamp", Str now)])
  else Some self.

(* RealTimeNeuralRanker.get_live_metrics, on the queue the ranker shares
   with its callback: the drained entries and the queue left behind *)
Fixpoint get_live_metrics (metric_queue : list Metrics) (metrics : list Metrics)
  : list Metrics * list Metrics :=
  match metric_queue with
  | [] => (metrics, [])
  | m :: rest => get_live_metrics rest (metrics ++ [m])
  end.

End RealTimeTrainingCallback.

Module RealTimeNeuralRanker.
Import SEOFeatureEngineer.

(* a < b on floats: false as soon as one side is nan *)
Definition flt (a b : npfloat) : bool :=
  match a, b with
  | NaN, _ | _, NaN => false
  | Fin x, Fin y => Qlt_bool x y
  | NInf, NInf => false
  | NInf, _ => true
  | _, NInf => false
  | PInf, _ => false
  | Fin _, PInf => true
  end.

Section TrainRealtime.
Context {Metrics : Type}.

(* One epoch of training and validation is torch's work: run_epoch gives the
   metrics dictionary appended to the history and the val_loss compared by
   the early stopping, or None when the epoch raises (an empty loader makes
   train_loss / batch_count raise ZeroDivisionError). *)
Variable run_epoch : nat -> option (Metrics * npfloat).

Record TrainState := mkState {
  best_val_loss : npfloat;
  patience_counter : Z;
  history : list Metrics;
  checkpoints : list nat     (* epochs at which save_checkpoint was called *)
}.

(* for epoch in range(epochs): ... ; the streaming and MLflow calls do not
   take part in the loop's control flow or result *)
Fixpoint epoch_loop (early_stopping_patience : Z) (epochs : list nat)
    (st : TrainState) : option TrainState :=
  match epochs with
  | [] => Some st
  | epoch :: rest =>
      '(metrics, val_loss) <- run_epoch epoch ;;
      let history := history st ++ [metrics] in
      if flt val_loss (best_val_loss st) then
        epoch_loop early_stopping_patience rest
          (mkState val_loss 0 history (checkpoints st ++ [epoch]))
      else
        let patience_counter := (patience_counter st + 1)%Z in
        let st := mkState (best_val_loss st) patience_counter history
                          (checkpoints st) in
        if (early_stopping_patience <=? patience_counter)%Z then Some st
        else epoch_loop early_stopping_patience rest st
  end.

Record TrainResult := mkResult {
  result_best_val_loss : npfloat;
  result_history : list Metrics;
  total_epochs : nat;
  saved : list nat
}.

(* self_history is self.history on entry: it is never reset *)
Definition train_realtime (self_history : list Metrics) (epochs : Z)
    (early_stopping_patience : Z) : option TrainResult :=
  st <- epoch_loop early_stopping_patience (seq 0 (Z.to_nat epochs))
          (mkState PInf 0 self_history []) ;;
  Some (mkResult (best_val_loss st) (history st) (length (history st))
                 (checkpoints st)).

End TrainRealtime.
End RealTimeNeuralRanker.

(** * train_seo_model.py *)

Module SEOModelTrainer.

(* a / b on one-dimensional arrays with numpy's broadcasting: equal lengths
   divide element by element, a length-1 array is stretched to the other
   length, and any other pair of lengths raises ValueError *)
Definition broadcast_div (a b : list R) : option (list R) :=
  if (length a =? length b)%nat then
    Some (map (fun p => (fst p / snd p)%R) (combine a b))
  else if (length a =? 1)%nat then Some (map (fun y => (hd 0%R a / y)%R) b)
  else if (length b =? 1)%nat then Some (map (fun x => (x / hd 0%R b)%R) a)
  else None.

(* np.sum *)
Definition np_sum (l : list R) : R := fold_left Rplus l 0%R.

(* 2 ** y - 1 on a float array *)
Definition gains (y : list Q) : list R :=
  map (fun rel => (Rpower 2 (Q2R rel) - 1)%R) y.

(* np.log2(np.arange(2, k + 2)) *)
Definition log2_ranks (k : nat) : list R :=
  map (fun i => log2 (INR i)) (seq 2 k).

Definition _calculate_ndcg (y_true y_pred : list Q) (k : nat) : option R :=
  let indices := firstn k (rev (argsort Qle_bool y_pred)) in
  ranked <- take y_true indices ;;
  terms <- broadcast_div (gains ranked) (log2_ranks k) ;;
  let dcg := np_sum terms in
  let ideal_indices := firstn k (rev (argsort Qle_bool y_true)) in
  ideal <- take y_true ideal_indices ;;
  ideal_terms <- broadcast_div (gains ideal) (log2_ranks k) ;;
  let idcg := np_sum ideal_terms in
  if Rlt_dec 0 idcg then Some (dcg / idcg)%R else Some 0%R.

End SEOModelTrainer.

(** * analyze_seo.py *)

Module AnalyzeSeo.

(* A value found in the collected data, as far as the scores read it *)
Inductive pyval :=
| PyNone
| PyBool (b : bool)
| PyNum (q : Q)
| PyStr (s : string).

(* bool(v) *)
Definition truthy (v : pyval) : bool :=
  match v with
  | PyNone => false
  | PyBool b => b
  | PyNum q => negb (Qeq_bool q 0)
  | PyStr s => negb (String.eqb s "")
  end.

(* v in arithmetic or in a comparison with a number: True and False count
   as 1 and 0, None and str raise TypeError *)
Definition number (v : pyval) : option Q :=
  match v with
  | PyBool b => Some (if b then 1 else 0)
  | PyNum q => Some q
  | PyNone | PyStr _ => None
  end.

Definition Data := list (string * pyval).

(* d.get(key, default) *)
Definition get (d : Data) (key : string) (default : pyval) : pyval :=
  match dict_get String.eqb key d with
  | Some v => v
  | None => default
  end.

Definition calculate_onpage_score (onpage_data : Data) : option Q :=
  let score := 0 in
  let max_score := 0 in
  (* Title optimization (20 points) *)
  let score :=
    if truthy (get onpage_data "titleOptimized" PyNone) then score + 20
    else score in
  let max_score := max_score + 20 in
  (* Meta optimization (15 points) *)
  let score :=
    if truthy (get onpage_data "metaOptimized" PyNone) then score + 15
    else score in
  let max_score := max_score + 15 in
  (* Heading structure (15 points) *)
  heading_score <- number (get onpage_data "headingStructure" (PyNum 0)) ;;
  let score := score + (heading_score / 100) * 15 in
  let max_score := max_score + 15 in
  (* Content quality (25 points) *)
  content_score <- number (get onpage_data "contentQuality" (PyNum 0)) ;;
  let score := score + (content_score / 100) * 25 in
  let max_score := max_score + 25 in
  (* Keyword density (10 points) *)
  keyword_density <- number (get onpage_data "keywordDensity" (PyNum 0)) ;;
  let score :=
    if Qle_bool 1.0 keyword_density && Qle_bool keyword_density 2.5 then
      score + 10
    else if (Qle_bool 0.5 keyword_density && Qlt_bool keyword_density 1.0)
            || (Qlt_bool 2.5 keyword_density && Qle_bool keyword_density 3.5)
    then score + 5
    else score in
  let max_score := max_score + 10 in
  (* Schema markup (15 points) *)
  let score :=
    if truthy (get onpage_data "schemaMarkup" PyNone) then score + 15
    else score in
  let max_score := max_score + 15 in
  ratio <- py_div score max_score ;;
  Some (ratio * 100).

Definition calculate_technical_score (technical_data : Data) : option Q :=
  let score := 0 in
  (* LCP (33.33%) *)
  lcp <- number (get technical_data "largestContentfulPaint" (PyNum 4000)) ;;
  let score :=
    if Qle_bool lcp 2500 then score + 33.33
    else if Qle_bool lcp 4000 then score + 16.67
    else score in
  (* INP (33.33%) *)
  inp <- number (get technical_data "interactionToNextPaint" (PyNum 500)) ;;
  let score :=
    if Qle_bool inp 200 then score + 33.33
    else if Qle_bool inp 500 then score + 16.67
    else score in
  (* CLS (33.33%) *)
  cls <- number (get technical_data "cumulativeLayoutShift" (PyNum 0.25)) ;;
  let score :=
    if Qle_bool cls 0.1 then score + 33.33
    else if Qle_bool cls 0.25 then score + 16.67
    else score in
  Some score.

Definition get_cwv_rating (metric : string) (value : pyval) : option string :=
  if String.eqb metric "lcp" then
    v <- number value ;;
    if Qle_bool v 2500 then Some "good"
    else if Qle_bool v 4000 then Some "needs-improvement"
    else Some "poor"
  else if String.eqb metric "inp" then
    v <- number value ;;
    if Qle_bool v 200 then Some "good"
    else if Qle_bool v 500 then Some "needs-improvement"
    else Some "poor"
  else if String.eqb metric "cls" then
    v <- number value ;;
    if Qle_bool v 0.1 then Some "good"
    else if Qle_bool v 0.25 then Some "needs-improvement"
    else Some "poor"
  else Some "unknown".

(* One entry of the 'coreWebVitals' dictionary *)
Record Vital := mkVital { value : pyval; rating : string }.

(* The dictionary analyze_technical returns *)
Record TechnicalAnalysis := mkTechnical {
  score : Q;
  lcp : Vital;
  inp : Vital;
  cls : Vital
}.

Definition analyze_technical (technical_data : Data)
  : option TechnicalAnalysis :=
  score <- calculate_technical_score technical_data ;;
  lcp_rating <-
    get_cwv_rating "lcp"
      (get technical_data "largestContentfulPaint" (PyNum 0)) ;;
  inp_rating <-
    get_cwv_rating "inp"
      (get technical_data "interactionToNextPaint" (PyNum 0)) ;;
  cls_rating <-
    get_cwv_rating "cls"
      (get technical_data "cumulativeLayoutShift" (PyNum 0)) ;;
  Some (mkTechnical score
          (mkVital (get technical_data "largestContentfulPaint" (PyNum 0))
                   lcp_rating)
          (mkVital (get technical_data "interactionToNextPaint" (PyNum 0))
                   inp_rating)
          (mkVital (get technical_data "cumulativeLayoutShift" (PyNum 0))
                   cls_rating)).

(* max(a, b) on ints *)
Definition py_max_int (a b : Z) : Z := if (a <? b)%Z then b else a.

Definition score_to_position (score : Q) (current_position : Z) : Z :=
  if Qle_bool 0.8 score then py_max_int 1 (current_position - 10)
  else if Qle_bool 0.6 score then py_max_int 1 (current_position - 5)
  else if Qle_bool 0.4 score then py_max_int 1 (current_position - 2)
  else (current_position + 2)%Z.

End AnalyzeSeo.

(** * Specification vocabulary *)

(* The entries of a record that calculate_overall_quality scores: those whose
   name has an entry in the threshold table *)
Definition known_features (thresholds : FeatureScoreThresholds.Thresholds)
    (features : list (string * Q)) : list (string * Q) :=
  filter (fun kv => dict_mem String.eqb (fst kv) thresholds) features.

(* The only divisor of evaluate_feature that no branch guard keeps away from
   zero is max_good, in the last branch of an inverse feature *)
Definition safe_spec (config : FeatureScoreThresholds.ThresholdSpec) : bool :=
  implb (FeatureScoreThresholds.inverse config)
        (negb (Qeq_bool (FeatureScoreThresholds.max_good config) 0)).

(* A lower-is-better entry whose max_good is positive *)
Definition positive_ceiling (config : FeatureScoreThresholds.ThresholdSpec)
  : bool :=
  implb (FeatureScoreThresholds.inverse config)
        (Qlt_bool 0 (FeatureScoreThresholds.max_good config)).

(* The order decided by a boolean comparison *)
Definition leb_le {A : Type} (leb : A -> A -> bool) (a b : A) : Prop :=
  leb a b = true.

(* A label whose gain 2**rel - 1 fits int64 *)
Definition int64_gain_label (rel : Z) : Prop := (0 <= rel <= 62)%Z.

(* 2**rel - 1 without overflow, and the rank discount 1/log2(i + 2) *)
Definition gain_total (rel : Z) : R := (IZR (2 ^ rel) - 1)%R.
Definition discount (i : nat) : R := (/ log2 (INR i + 2))%R.

(* Discounted sum of a list of gains placed at ranks i, i+1, ... *)
Fixpoint wsum (d : nat -> R) (i : nat) (gains : list R) : R :=
  match gains with
  | [] => 0%R
  | g :: rest => (g * d i + wsum d (S i) rest)%R
  end.

(* The discount cut off at rank k *)
Definition cutoff (k : nat) (d : nat -> R) (i : nat) : R :=
  if (i <? k)%nat then d i else 0%R.

Definition antitone (d : nat -> R) : Prop := forall i, (d (S i) <= d i)%R.

(* The array l with the rows [start, start + size) of one group cut out *)
Definition remove_slice {A : Type} (l : list A) (start size : nat) : list A :=
  firstn start l ++ skipn (start + size) l.

(* No label of the list counts as relevant for MAP (label >= 2) *)
Definition no_relevant (labels : list Z) : Prop :=
  Forall (fun t => (t < 2)%Z) labels.

(* numpy's contract for np.random.choice(n, m, replace=False) with m <= n:
   m distinct positions below n *)
Definition choice_contract (choice : nat -> nat -> list nat) : Prop :=
  forall n m, (m <= n)%nat ->
    length (choice n m) = m
    /\ NoDup (choice n m)
    /\ Forall (fun i => (i < n)%nat) (choice n m).

(* scikit-learn's contract for its transformers: fit_transform(X) returns
   what transform(X) returns on the object fit_transform leaves behind *)
Definition sklearn_contract (T : SEOFeatureEngineer.Toolkit) : Prop :=
  (forall sc X sc' Y,
      SEOFeatureEngineer.scaler_fit_transform sc X = Some (sc', Y) ->
      SEOFeatureEngineer.scaler_transform sc' X = Some Y)
  /\ (forall v C v' M,
      SEOFeatureEngineer.tfidf_fit_transform v C = Some (v', M) ->
      SEOFeatureEngineer.tfidf_transform v' C = Some M).

(* A small toolkit over numeric frames, to run the pipeline on: the scaler
   learns the first cell of the matrix and subtracts it; the vectorizer
   learns the row count and emits one constant column; the stages that are
   parameters leave the frame as it is *)
Definition center (m : SEOFeatureEngineer.npfloat)
    (X : list SEOFeatureEngineer.Series) : list SEOFeatureEngineer.Series :=
  map (map (fun x => SEOFeatureEngineer.fsub x m)) X.

Definition first_cell (X : list SEOFeatureEngineer.Series)
  : SEOFeatureEngineer.npfloat :=
  match X with
  | (x :: _) :: _ => x
  | _ => SEOFeatureEngineer.Fin 0
  end.

Definition row_count (df : SEOFeatureEngineer.DataFrame) : nat :=
  match df with
  | (_, s) :: _ => length s
  | [] => 0%nat
  end.

Definition sample_toolkit : SEOFeatureEngineer.Toolkit :=
  {| SEOFeatureEngineer.Frame := SEOFeatureEngineer.DataFrame;
     SEOFeatureEngineer.Matrix := list SEOFeatureEngineer.Series;
     SEOFeatureEngineer.Corpus := nat;
     SEOFeatureEngineer.Scaler := option SEOFeatureEngineer.npfloat;
     SEOFeatureEngineer.Tfidf := option nat;
     SEOFeatureEngineer.new_StandardScaler := None;
     SEOFeatureEngineer.new_RobustScaler := None;
     SEOFeatureEngineer.scaler_fit_transform :=
       fun _ X => Some (Some (first_cell X), center (first_cell X) X);
     SEOFeatureEngineer.scaler_transform :=
       fun sc X => match sc with Some m => Some (center m X) | None => None end;
     SEOFeatureEngineer.new_TfidfVectorizer := None;
     SEOFeatureEngineer.tfidf_fit_transform :=
       fun _ rows => Some (Some rows, [repeat (SEOFeatureEngineer.Fin 1) rows]);
     SEOFeatureEngineer.tfidf_transform :=
       fun v rows =>
         match v with
         | Some _ => Some [repeat (SEOFeatureEngineer.Fin 1) rows]
         | None => None
         end;
     SEOFeatureEngineer.numeric_part := fun df => df;
     SEOFeatureEngineer.with_numeric_part := fun _ df => df;
     SEOFeatureEngineer._create_basic_features := fun df => Some df;
     SEOFeatureEngineer._create_interaction_features := fun df => Some df;
     SEOFeatureEngineer._create_temporal_features := fun df => Some df;
     SEOFeatureEngineer.text_statistics := fun df => Some (df, ["title_tag"]);
     SEOFeatureEngineer.combined_text := fun df _ => Some (row_count df);
     SEOFeatureEngineer.concat_tfidf :=
       fun df M => Some (df ++ combine ["tfidf_0"] M);
     SEOFeatureEngineer._create_composite_scores := fun df => Some df;
     SEOFeatureEngineer._log_transform_features := fun df => Some df;
     SEOFeatureEngineer._handle_missing_values := fun df => Some df;
     SEOFeatureEngineer.numeric_columns := fun df => map fst df;
     SEOFeatureEngineer.get_columns := fun df _ => map snd df;
     SEOFeatureEngineer.set_columns :=
       fun df cols X => Some (combine cols X);
     SEOFeatureEngineer.columns := fun df => map fst df |}.

(** * Further specification vocabulary *)

(* The score band that goes with each tier of evaluate_feature *)
Definition tier_band (quality : DataQuality) (score : Q) : Prop :=
  match quality with
  | EXCELLENT => 0.85 <= score <= 1
  | GOOD => 0.7 <= score <= 1
  | FAIR => 0.5 <= score <= 0.7
  | POOR => 0.1 <= score
  end.

(* A value the scoring is written for: any value of a lower-is-better
   feature, a value up to max_good of a higher-is-better one *)
Definition in_scored_range (thresholds : FeatureScoreThresholds.Thresholds)
    (name : string) (value : Q) : Prop :=
  forall config,
    dict_get String.eqb name thresholds = Some config ->
    FeatureScoreThresholds.inverse config = false ->
    value <= FeatureScoreThresholds.max_good config.

(* Table checks: the excellent band is not empty; the weight is positive *)
Definition excellent_band_ok (config : FeatureScoreThresholds.ThresholdSpec)
  : bool :=
  FeatureScoreThresholds.inverse config
  || Qle_bool (FeatureScoreThresholds.min_excellent config)
              (FeatureScoreThresholds.max_excellent config).

Definition positive_weight (config : FeatureScoreThresholds.ThresholdSpec)
  : bool :=
  Qlt_bool 0 (FeatureScoreThresholds.weight config).

(* Table check: the bounds of a higher-is-better entry are nested,
   min_good <= min_excellent <= max_excellent <= max_good *)
Definition nested_bounds (config : FeatureScoreThresholds.ThresholdSpec)
  : bool :=
  FeatureScoreThresholds.inverse config
  || (Qle_bool (FeatureScoreThresholds.min_good config)
               (FeatureScoreThresholds.min_excellent config)
      && Qle_bool (FeatureScoreThresholds.min_excellent config)
                  (FeatureScoreThresholds.max_excellent config)
      && Qle_bool (FeatureScoreThresholds.max_excellent config)
                  (FeatureScoreThresholds.max_good config)).

(* The columns _create_ratio_features writes *)
Definition derived_ratio_columns : list string :=
  [ "image_alt_ratio"; "dofollow_ratio"; "high_authority_ratio";
    "authority_concentration"; "exact_match_anchor_ratio";
    "partial_match_anchor_ratio"; "branded_anchor_ratio";
    "generic_anchor_ratio"; "content_to_code_ratio";
    "engagement_efficiency" ].

(* One column that each block of _create_ratio_features requires *)
Definition ratio_trigger_columns : list string :=
  [ "image_count"; "total_backlinks"; "generic_anchors"; "css_size";
    "bounce_rate" ].

(* What column assignments do to a frame: the columns outside [names] keep
   their cells, and the column list grows only by names of [names], at the
   end *)
Definition extends_by (names : list string)
    (df df' : SEOFeatureEngineer.DataFrame) : Prop :=
  (forall name, ~ In name names ->
                dict_get String.eqb name df' = dict_get String.eqb name df)
  /\ exists added, map fst df' = map fst df ++ added /\ incl added names.

(* The labels of a query group in predicted order, best score first *)
Definition ranked_labels (y_true : list Z) (y_pred : list Q) : list Z :=
  map (fun idx => nth idx y_true 0%Z) (rev (argsort Qle_bool y_pred)).

Definition descending (l : list Z) : Prop :=
  StronglySorted (fun a b => (b <= a)%Z) l.

Definition in_unit (x : Q) : Prop := 0 <= x <= 1.

(* The id column that a list of group sizes describes: sizes[i] rows of
   ids[i], one run after the other *)
Definition expand_groups (ids : list Z) (sizes : list nat) : list Z :=
  flat_map (fun p => repeat (fst p) (snd p)) (combine ids sizes).

(* numpy's contract for np.random.choice(a, m, replace=False) with
   m <= len(a): m entries of a, taken at distinct positions *)
Definition choice_from_contract (choice : list Z -> nat -> list Z) : Prop :=
  forall a m, (m <= length a)%nat ->
    length (choice a m) = m
    /\ (NoDup a -> NoDup (choice a m))
    /\ incl (choice a m) a.

(* The rows of a dataset: features, label and query id side by side *)
Definition dataset_rows (features : list (list Q)) (labels query_ids : list Z)
  : list (list Q * (Z * Z)) :=
  combine features (combine labels query_ids).

(* The entries of l at the positions idx *)
Definition rows_at {A : Type} (d : A) (l : list A) (idx : list nat) : list A :=
  map (fun i => nth i l d) idx.

(* The index pandas gives by default: the row positions 0, 1, 2, ... *)
Definition default_index {A : Type} (s : IndexedSeries A) : Prop :=
  index s = map Z.of_nat (seq 0 (length s)).

Definition is_high (label : Z) : bool := (2 <=? label)%Z.
Definition is_low (label : Z) : bool := (label <? 2)%Z.


(* The validation loss an epoch reports (nan for an epoch that raises) *)
Definition val_loss_at {M : Type}
    (run_epoch : nat -> option (M * SEOFeatureEngineer.npfloat))
    (epoch : nat) : SEOFeatureEngineer.npfloat :=
  match run_epoch epoch with
  | Some (_, val_loss) => val_loss
  | None => SEOFeatureEngineer.NaN
  end.

(* What holds of the training state after k epochs: the history has grown
   by k entries, no epoch so far reported a loss below best_val_loss, the
   last checkpoint was written at an epoch that reported best_val_loss, and
   patience_counter counts the epochs since that checkpoint *)
Definition training_invariant {M : Type}
    (run_epoch : nat -> option (M * SEOFeatureEngineer.npfloat))
    (h0 : list M) (k : nat) (st : @RealTimeNeuralRanker.TrainState M) : Prop :=
  let best := RealTimeNeuralRanker.best_val_loss st in
  let stale := Z.to_nat (RealTimeNeuralRanker.patience_counter st) in
  let saved := RealTimeNeuralRanker.checkpoints st in
  length (RealTimeNeuralRanker.history st) = (length h0 + k)%nat
  /\ (forall e, (e < k)%nat ->
        RealTimeNeuralRanker.flt (val_loss_at run_epoch e) best = false)
  /\ ((saved = [] /\ best = SEOFeatureEngineer.PInf)
      \/ exists pre e, saved = pre ++ [e] /\ (e < k)%nat
                       /\ val_loss_at run_epoch e = best)
  /\ Forall (fun e => (e < k)%nat) saved
  /\ (0 <= RealTimeNeuralRanker.patience_counter st)%Z
  /\ (stale <= k)%nat
  /\ (forall e, (k - stale <= e < k)%nat -> ~ In e saved)
  /\ (k = stale \/ In (k - stale - 1)%nat saved).

(* on_epoch_end called once per entry of calls: (epoch, now, metrics) *)
Fixpoint on_epochs (cb : RealTimeTrainingCallback.RealTimeTrainingCallback)
    (calls : list (Z * string * RealTimeTrainingCallback.Metrics))
  : option RealTimeTrainingCallback.RealTimeTrainingCallback :=
  match calls with
  | [] => Some cb
  | (epoch, now, metrics) :: rest =>
      cb' <- RealTimeTrainingCallback.on_epoch_end cb epoch now metrics ;;
      on_epochs cb' rest
  end.

(* The width nn.Sequential produces for an input of the given width, or
   None when a layer does not accept what it is handed *)
Fixpoint feed (layers : list DeepRankingNetwork.layer) (width : nat)
  : option nat :=
  match layers with
  | [] => Some width
  | DeepRankingNetwork.Linear i o :: rest =>
      if (i =? width)%nat then feed rest o else None
  | DeepRankingNetwork.BatchNorm1d n :: rest =>
      if (n =? width)%nat then feed rest width else None
  | DeepRankingNetwork.ReLU :: rest => feed rest width
  | DeepRankingNetwork.Dropout _ :: rest => feed rest width
  end.

(* The points calculate_technical_score gives for a rating *)
Definition rating_points (rating : string) : Q :=
  if String.eqb rating "good" then 33.33
  else if String.eqb rating "needs-improvement" then 16.67
  else 0.

(* The points a vital contributes: those of its rating when the metric is
   in the data, the needs-improvement points when it is missing *)
Definition vital_points (technical_data : AnalyzeSeo.Data) (key : string)
    (vital : AnalyzeSeo.Vital) : Q :=
  match dict_get String.eqb key technical_data with
  | Some _ => rating_points (AnalyzeSeo.rating vital)
  | None => 16.67
  end.

(* The scores order the documents as the labels do: a document with a
   higher label has a strictly higher score *)
Definition concordant (y_true : list Z) (y_pred : list Q) : Prop :=
  forall i j, (i < length y_true)%nat -> (j < length y_true)%nat ->
    (nth i y_true 0 < nth j y_true 0)%Z -> nth i y_pred 0 < nth j y_pred 0.

(* Documents with equal scores have equal labels, so the labels in ranked
   order do not depend on how argsort breaks ties *)
Definition ties_share_labels (y_true : list Z) (y_pred : list Q) : Prop :=
  forall i j, (i < length y_true)%nat -> (j < length y_true)%nat ->
    nth i y_pred 0 == nth j y_pred 0 -> nth i y_true 0%Z = nth j y_true 0%Z.

(** * Feature scoring *)

Section FeatureScoring.
Import FeatureScoreThresholds.

Lemma Qle_bool_false (x y : Q) : Qle_bool x y = false -> y < x.
Proof.
  intros H. apply Qnot_le_lt. intros L.
  apply Qle_bool_iff in L. congruence.
Qed.

Lemma Qlt_bool_true (x y : Q) : Qlt_bool x y = true -> x < y.
Proof.
  unfold Qlt_bool. intros H. apply negb_true_iff in H.
  now apply Qle_bool_false.
Qed.

Lemma Qlt_bool_false (x y : Q) : Qlt_bool x y = false -> y <= x.
Proof.
  unfold Qlt_bool. intros H. apply negb_false_iff in H.
  now apply Qle_bool_iff.
Qed.

Lemma py_div_some (a b : Q) : ~ b == 0 -> py_div a b = Some (a / b).
Proof.
  intros H. unfold py_div.
  destruct (Qeq_bool b 0) eqn:E; [|reflexivity].
  apply Qeq_bool_iff in E. contradiction.
Qed.

(* Turn the boolean guards collected along a path into order facts *)
Ltac guards :=
  repeat match goal with
  | H : (_ && _)%bool = true |- _ => apply andb_true_iff in H; destruct H
  | H : (_ && _)%bool = false |- _ => apply andb_false_iff in H; destruct H
  | H : Qle_bool _ _ = true |- _ => apply Qle_bool_iff in H
  | H : Qle_bool _ _ = false |- _ => apply Qle_bool_false in H
  | H : Qlt_bool _ _ = true |- _ => apply Qlt_bool_true in H
  | H : Qlt_bool _ _ = false |- _ => apply Qlt_bool_false in H
  end.

Ltac divide :=
  match goal with
  | |- context [py_div ?a ?b] =>
      rewrite (py_div_some a b); [eauto | intros Hz; guards; lra]
  end.

Lemma evaluate_feature_total (thresholds : Thresholds) (name : string) (value : Q) :
  (forall config, dict_get String.eqb name thresholds = Some config ->
                  safe_spec config = true) ->
  exists r, evaluate_feature name value thresholds = Some r.
Proof.
  intros Hsafe. unfold evaluate_feature.
  destruct (dict_get String.eqb name thresholds) as [config|]; [|eauto].
  cbv zeta.
  specialize (Hsafe config eq_refl). unfold safe_spec in Hsafe.
  destruct (inverse config).
  - (* lower is better *)
    simpl in Hsafe. apply negb_true_iff in Hsafe.
    destruct (Qle_bool value (min_excellent config)) eqn:G1; [eauto|].
    destruct (Qle_bool value (max_excellent config)) eqn:G2; [divide|].
    destruct (Qle_bool value (min_good config)) eqn:G3; [divide|].
    destruct (Qle_bool value (max_good config)) eqn:G4; [divide|].
    rewrite py_div_some; [eauto|].
    intros Hz. apply Qeq_bool_iff in Hz. congruence.
  - (* higher is better *)
    destruct (Qle_bool (min_excellent config) value
              && Qle_bool value (max_excellent config))%bool eqn:G1; [eauto|].
    destruct (Qle_bool (min_good config) value
              && Qle_bool value (max_good config))%bool eqn:G2.
    + destruct (Qlt_bool value (min_excellent config)) eqn:G3; [divide|].
      divide.
    + destruct (Qle_bool (min_good config * 0.5) value
                && Qlt_bool value (min_good config))%bool eqn:G3; [divide|].
      destruct (Qlt_bool 0 (min_good config)) eqn:G4; [divide|eauto].
Qed.

Lemma dict_get_In {V : Type} (k : string) (d : list (string * V)) (v : V) :
  dict_get String.eqb k d = Some v -> exists k', In (k', v) d.
Proof.
  induction d as [|[k' v'] d IH]; simpl; [discriminate|].
  destruct (String.eqb k k').
  - intros [= ->]. eauto.
  - intros H. destruct (IH H) as [k'' Hin]. eauto.
Qed.

Lemma catalog_safe :
  forallb (fun kv => safe_spec (snd kv)) get_all_thresholds = true.
Proof. vm_compute. reflexivity. Qed.

Lemma catalog_entry_safe (name : string) (config : ThresholdSpec) :
  dict_get String.eqb name get_all_thresholds = Some config ->
  safe_spec config = true.
Proof.
  intros Hget. apply dict_get_In in Hget. destruct Hget as [k Hin].
  pose proof catalog_safe as Hall. rewrite forallb_forall in Hall.
  apply (Hall (k, config) Hin).
Qed.

(** C10.  On the shipped catalog evaluate_feature returns a (tier, score) pair
    for every feature name and every finite value: no path reaches a division
    whose divisor is zero. *)
Theorem evaluate_feature_never_divides_by_zero :
  forall (feature_name : string) (value : Q),
  exists quality score,
    evaluate_feature feature_name value get_all_thresholds
    = Some (quality, score).
Proof.
  intros name value.
  destruct (evaluate_feature_total get_all_thresholds name value
              (catalog_entry_safe name)) as [[q s] E].
  eauto.
Qed.

(** C1 (failing input).  title_tag_length has the entry min_good 30,
    max_good 70 and is not inverse; the value 100 lies above max_good, falls
    through to the last branch and is scored 100/30, a POOR tier with a score
    above 1. *)
Theorem evaluate_feature_score_above_one :
  exists score,
    evaluate_feature "title_tag_length" 100 get_all_thresholds
    = Some (POOR, score) /\ 3 < score.
Proof.
  exists (5000 # 1500). split; [vm_compute; reflexivity | reflexivity].
Qed.

(* The same slip carried into the overall score, documented as 0-100 *)
Example overall_score_above_hundred :
  exists r,
    calculate_overall_quality [("h1_count", 3)] get_all_thresholds = Some r
    /\ overall_quality r = EXCELLENT /\ poor_features r = 1%nat
    /\ overall_score r == 300.
Proof.
  eexists. split; [vm_compute; reflexivity|].
  repeat split.
Qed.

Lemma quality_loop_known (thresholds : Thresholds) (items : list (string * Q)) :
  forall acc,
    quality_loop thresholds items acc
    = quality_loop thresholds (known_features thresholds items) acc.
Proof.
  induction items as [|[name value] rest IH]; intros acc; [reflexivity|].
  unfold known_features, dict_mem. simpl.
  destruct (dict_get String.eqb name thresholds) as [config|] eqn:E.
  - simpl. rewrite E.
    destruct (evaluate_feature name value thresholds) as [[quality score]|];
      [apply IH | reflexivity].
  - apply IH.
Qed.

Lemma calculate_overall_quality_known (thresholds : Thresholds)
    (features : list (string * Q)) :
  calculate_overall_quality features thresholds
  = calculate_overall_quality (known_features thresholds features) thresholds.
Proof.
  unfold calculate_overall_quality. now rewrite quality_loop_known.
Qed.

(* A table of safe entries gives every record a report *)
Lemma quality_loop_returns (thresholds : Thresholds) (items : list (string * Q)) :
  (forall name config, dict_get String.eqb name thresholds = Some config ->
                       safe_spec config = true) ->
  forall acc, exists acc', quality_loop thresholds items acc = Some acc'.
Proof.
  intros Hsafe.
  induction items as [|[name value] rest IH]; intros acc; cbn [quality_loop];
    [eauto|].
  destruct (dict_get String.eqb name thresholds) as [config|] eqn:E;
    [|apply IH].
  destruct (evaluate_feature_total thresholds name value (Hsafe name))
    as [[quality score] ->].
  apply IH.
Qed.

Lemma calculate_overall_quality_catalog_returns (features : list (string * Q)) :
  exists report,
    calculate_overall_quality features get_all_thresholds = Some report.
Proof.
  unfold calculate_overall_quality.
  destruct (quality_loop_returns get_all_thresholds features catalog_entry_safe
              (mkAcc [] [] 0.0 0.0)) as [acc ->].
  eauto.
Qed.

(** C9.  calculate_overall_quality reads a record only through the entries
    whose name is in the threshold table: two records with the same such
    entries get the same report (or fail alike), and a record with no such
    entry gets overall_score 0, tier POOR and empty counts. *)
Theorem calculate_overall_quality_ignores_unknown :
  forall (thresholds : Thresholds) (features1 features2 : list (string * Q)),
    known_features thresholds features1 = known_features thresholds features2 ->
    calculate_overall_quality features1 thresholds
    = calculate_overall_quality features2 thresholds
    /\ (known_features thresholds features1 = [] ->
        calculate_overall_quality features1 thresholds
        = Some (mkReport POOR 0 [] [] 0 0 0)).
Proof.
  intros thresholds f1 f2 Heq. split.
  - rewrite (calculate_overall_quality_known thresholds f1).
    rewrite (calculate_overall_quality_known thresholds f2).
    now rewrite Heq.
  - intros Hnone. rewrite calculate_overall_quality_known, Hnone.
    reflexivity.
Qed.

Lemma calculate_overall_quality_ignores_unknown_witness :
  calculate_overall_quality
    [("title_tag_length", 55); ("favicon_hue", 7)] get_all_thresholds
  = calculate_overall_quality
      [("viewport_ratio", 2); ("title_tag_length", 55); ("favicon_hue", 9)]
      get_all_thresholds
  /\ calculate_overall_quality [("favicon_hue", 7)] get_all_thresholds
     = Some (mkReport POOR 0 [] [] 0 0 0).
Proof.
  split.
  - apply (calculate_overall_quality_ignores_unknown get_all_thresholds
             [("title_tag_length", 55); ("favicon_hue", 7)]
             [("viewport_ratio", 2); ("title_tag_length", 55); ("favicon_hue", 9)]).
    vm_compute. reflexivity.
  - apply (calculate_overall_quality_ignores_unknown get_all_thresholds
             [("favicon_hue", 7)] []).
    + vm_compute. reflexivity.
    + vm_compute. reflexivity.
Defined.

(* Name a quotient r and keep the equation that defines it *)
Ltac quotient :=
  match goal with
  | |- context [py_div ?a ?b] =>
      let Hb := fresh "Hb" in
      assert (Hb : ~ b == 0) by (intros Hz; guards; lra);
      rewrite (py_div_some a b Hb);
      let r := fresh "r" in
      let Hr := fresh "Hr" in
      pose proof (Qmult_div_r a b Hb) as Hr;
      set (r := a / b) in *; clearbody r
  end.

Ltac floor :=
  unfold py_max;
  match goal with
  | |- context [Qlt_bool ?a ?b] => destruct (Qlt_bool a b) eqn:?
  end.

(* Away from the missed case the score is normalized: for a lower-is-better
   entry with max_good > 0 at any value, and for a higher-is-better entry at
   any value up to max_good, the score lies in [0.1, 1]. *)
Lemma evaluate_feature_score_bounds (thresholds : Thresholds) (name : string)
    (value : Q) (config : ThresholdSpec) (quality : DataQuality) (score : Q) :
  dict_get String.eqb name thresholds = Some config ->
  (inverse config = true -> 0 < max_good config) ->
  (inverse config = false -> value <= max_good config) ->
  evaluate_feature name value thresholds = Some (quality, score) ->
  0.1 <= score <= 1.
Proof.
  intros Hget Hinv Hnorm. unfold evaluate_feature. rewrite Hget. cbv zeta.
  destruct (inverse config).
  - specialize (Hinv eq_refl). clear Hnorm.
    destruct (Qle_bool value (min_excellent config)) eqn:G1;
      [intros [= <- <-]; lra|].
    destruct (Qle_bool value (max_excellent config)) eqn:G2;
      [quotient; intros [= <- <-]; guards; split; nra|].
    destruct (Qle_bool value (min_good config)) eqn:G3;
      [quotient; intros [= <- <-]; guards; split; nra|].
    destruct (Qle_bool value (max_good config)) eqn:G4;
      [quotient; intros [= <- <-]; guards; split; nra|].
    quotient. intros [= <- <-]. floor; guards; split; nra.
  - specialize (Hnorm eq_refl). clear Hinv.
    destruct (Qle_bool (min_excellent config) value
              && Qle_bool value (max_excellent config))%bool eqn:G1;
      [intros [= <- <-]; lra|].
    destruct (Qle_bool (min_good config) value
              && Qle_bool value (max_good config))%bool eqn:G2.
    + destruct (Qlt_bool value (min_excellent config)) eqn:G3;
        quotient; intros [= <- <-]; guards; split; nra.
    + destruct (Qle_bool (min_good config * 0.5) value
                && Qlt_bool value (min_good config))%bool eqn:G3;
        [quotient; intros [= <- <-]; guards; split; nra|].
      destruct (Qlt_bool 0 (min_good config)) eqn:G4.
      * quotient. intros [= <- <-]. floor; guards; split; nra.
      * intros [= <- <-]. floor; guards; split; lra.
Qed.

Lemma catalog_positive_ceiling :
  forallb (fun kv => positive_ceiling (snd kv)) get_all_thresholds = true.
Proof. vm_compute. reflexivity. Qed.

(** X2.  On the shipped catalog the score is normalized, in [0.1, 1], for
    every value of a lower-is-better feature and for every value up to
    max_good of a higher-is-better feature. *)
Lemma catalog_score_bounds (name : string) (value : Q) (config : ThresholdSpec)
    (quality : DataQuality) (score : Q) :
  dict_get String.eqb name get_all_thresholds = Some config ->
  (inverse config = false -> value <= max_good config) ->
  evaluate_feature name value get_all_thresholds = Some (quality, score) ->
  0.1 <= score <= 1.
Proof.
  intros Hget Hnorm.
  apply (evaluate_feature_score_bounds _ _ _ config); auto.
  intros Hinv. apply dict_get_In in Hget as [k Hin].
  pose proof catalog_positive_ceiling as Hall.
  rewrite forallb_forall in Hall. specialize (Hall (k, config) Hin).
  unfold positive_ceiling in Hall. simpl in Hall. rewrite Hinv in Hall.
  now apply Qlt_bool_true.
Qed.

End FeatureScoring.

(** * Sorting and index arrays *)

Section SortFacts.
Context {A : Type} (leb : A -> A -> bool).

Lemma insert_sorted_perm (x : A) (l : list A) :
  Permutation (insert_sorted leb x l) (x :: l).
Proof.
  induction l as [|y t IH]; simpl; [reflexivity|].
  destruct (leb x y); [reflexivity|].
  rewrite IH. apply perm_swap.
Qed.

Lemma sort_by_perm (l : list A) : Permutation (sort_by leb l) l.
Proof.
  induction l as [|x t IH]; simpl; [reflexivity|].
  rewrite insert_sorted_perm. now constructor.
Qed.

Hypothesis leb_total : forall a b, leb a b = true \/ leb b a = true.
Hypothesis leb_trans :
  forall a b c, leb a b = true -> leb b c = true -> leb a c = true.

Lemma insert_sorted_sorted (x : A) (l : list A) :
  StronglySorted (leb_le leb) l ->
  StronglySorted (leb_le leb) (insert_sorted leb x l).
Proof.
  induction 1 as [|y t Ht IH Hy]; simpl.
  - repeat constructor.
  - destruct (leb x y) eqn:E.
    + constructor; [now constructor|].
      constructor; [exact E|].
      eapply Forall_impl; [|exact Hy].
      intros z Hz. exact (leb_trans x y z E Hz).
    + constructor; [exact IH|].
      eapply Permutation_Forall; [symmetry; apply insert_sorted_perm|].
      constructor; [|exact Hy].
      destruct (leb_total x y) as [H|H]; [congruence | exact H].
Qed.

Lemma sort_by_sorted (l : list A) : StronglySorted (leb_le leb) (sort_by leb l).
Proof.
  induction l as [|x t IH]; simpl; [constructor|].
  now apply insert_sorted_sorted.
Qed.

End SortFacts.

Lemma map_fst_combine_seq {A : Type} (l : list A) (s : nat) :
  map fst (combine (seq s (length l)) l) = seq s (length l).
Proof.
  revert s. induction l as [|x t IH]; intros s; simpl; [reflexivity|].
  now rewrite IH.
Qed.

Lemma argsort_perm {A : Type} (leb : A -> A -> bool) (l : list A) :
  Permutation (argsort leb l) (seq 0 (length l)).
Proof.
  unfold argsort.
  rewrite <- (map_fst_combine_seq l 0) at 2.
  apply Permutation_map, sort_by_perm.
Qed.

Lemma argsort_length {A : Type} (leb : A -> A -> bool) (l : list A) :
  length (argsort leb l) = length l.
Proof.
  rewrite (Permutation_length (argsort_perm leb l)). apply length_seq.
Qed.

Lemma argsort_in_range {A : Type} (leb : A -> A -> bool) (l : list A) :
  Forall (fun i => (i < length l)%nat) (argsort leb l).
Proof.
  eapply Permutation_Forall; [symmetry; apply argsort_perm|].
  apply Forall_forall. intros i Hi. apply in_seq in Hi. lia.
Qed.

Lemma map_nth_seq {A : Type} (l : list A) (d : A) :
  map (fun i => nth i l d) (seq 0 (length l)) = l.
Proof.
  induction l as [|x t IH]; [reflexivity|].
  simpl. f_equal. rewrite <- seq_shift, map_map. exact IH.
Qed.

Lemma In_firstn {A : Type} (x : A) (k : nat) (l : list A) :
  In x (firstn k l) -> In x l.
Proof.
  intros H. rewrite <- (firstn_skipn k l). apply in_or_app. now left.
Qed.

Lemma In_skipn {A : Type} (x : A) (k : nat) (l : list A) :
  In x (skipn k l) -> In x l.
Proof.
  intros H. rewrite <- (firstn_skipn k l). apply in_or_app. now right.
Qed.

Lemma StronglySorted_snoc {A : Type} (R : A -> A -> Prop) (l : list A) (x : A) :
  StronglySorted R l -> Forall (fun y => R y x) l -> StronglySorted R (l ++ [x]).
Proof.
  induction 1 as [|y t Ht IH Hy]; intros Hx; simpl.
  - repeat constructor.
  - inversion Hx; subst. constructor; [now apply IH|].
    apply Forall_app. split; [exact Hy | now repeat constructor].
Qed.

Lemma StronglySorted_rev {A : Type} (R : A -> A -> Prop) (l : list A) :
  StronglySorted R l -> StronglySorted (fun a b => R b a) (rev l).
Proof.
  induction 1 as [|y t Ht IH Hy]; simpl; [constructor|].
  apply StronglySorted_snoc; [exact IH|].
  apply Forall_rev. exact Hy.
Qed.

Lemma StronglySorted_map {A B : Type} (R : A -> A -> Prop) (S : B -> B -> Prop)
    (f : A -> B) (l : list A) :
  (forall a b, R a b -> S (f a) (f b)) ->
  StronglySorted R l -> StronglySorted S (map f l).
Proof.
  intros Hf. induction 1 as [|y t Ht IH Hy]; simpl; constructor; auto.
  apply Forall_map. eapply Forall_impl; [|exact Hy]. auto.
Qed.

Lemma StronglySorted_weaken {A : Type} (R S : A -> A -> Prop) (l : list A) :
  (forall a b, R a b -> S a b) -> StronglySorted R l -> StronglySorted S l.
Proof.
  intros HRS. induction 1 as [|y t Ht IH Hy]; constructor; auto.
  eapply Forall_impl; [|exact Hy]. auto.
Qed.

(** * Rearrangement: the descending order maximises a discounted sum *)

Section Rearrangement.
Local Open Scope R_scope.

Variable d : nat -> R.
Hypothesis d_antitone : antitone d.

Lemma wsum_to_front (a1 : list R) (x : R) (a2 : list R) :
  forall i, Forall (fun y => y <= x) a1 ->
  wsum d i (a1 ++ x :: a2) <= wsum d i (x :: a1 ++ a2).
Proof.
  induction a1 as [|y t IH]; intros i Hle; simpl; [lra|].
  inversion Hle as [|? ? Hy Ht]; subst.
  specialize (IH (S i) Ht). simpl in IH.
  pose proof (d_antitone i) as Hd.
  assert ((x - y) * (d i - d (S i)) >= 0) by nra.
  nra.
Qed.

Lemma wsum_sorted_max (s : list R) :
  StronglySorted Rge s ->
  forall a i, Permutation a s -> wsum d i a <= wsum d i s.
Proof.
  induction 1 as [|x s' Hs IH Hx]; intros a i Hperm.
  - apply Permutation_sym, Permutation_nil in Hperm. subst. simpl. lra.
  - assert (Hin : In x a)
      by (eapply Permutation_in; [symmetry; exact Hperm | now left]).
    destruct (in_split x a Hin) as (a1 & a2 & ->).
    apply Permutation_sym, Permutation_cons_app_inv, Permutation_sym in Hperm.
    eapply Rle_trans; [apply wsum_to_front|].
    + apply Forall_forall. intros y Hy.
      rewrite Forall_forall in Hx.
      apply Rge_le, Hx. eapply Permutation_in; [exact Hperm|].
      apply in_or_app. now left.
    + simpl. specialize (IH (a1 ++ a2) (S i) Hperm). lra.
Qed.

End Rearrangement.

(** * NDCG@K *)

Section Ndcg.
Import SEORankingPredictor.
Local Open Scope R_scope.

Lemma ln2_pos : 0 < ln 2.
Proof. rewrite <- ln_1. apply ln_increasing; lra. Qed.

Lemma log2_ge_1 (x : R) : 2 <= x -> 1 <= log2 x.
Proof.
  intros Hx. unfold log2. pose proof ln2_pos as H2.
  assert (Hln : ln 2 <= ln x).
  { destruct Hx as [Hlt| ->]; [|lra].
    left. apply ln_increasing; lra. }
  apply (Rmult_le_reg_r (ln 2)); [exact H2|].
  unfold Rdiv. rewrite Rmult_assoc, Rinv_l; lra.
Qed.

Lemma log2_mono (x y : R) : 2 <= x -> x <= y -> log2 x <= log2 y.
Proof.
  intros Hx Hxy. unfold log2, Rdiv. pose proof ln2_pos as H2.
  apply Rmult_le_compat_r; [left; now apply Rinv_0_lt_compat|].
  destruct Hxy as [Hlt| ->]; [|lra].
  left. apply ln_increasing; lra.
Qed.

Lemma rank_ge_2 (i : nat) : 2 <= INR i + 2.
Proof. pose proof (pos_INR i). lra. Qed.

Lemma discount_pos (i : nat) : 0 < discount i.
Proof.
  unfold discount. apply Rinv_0_lt_compat.
  pose proof (log2_ge_1 _ (rank_ge_2 i)). lra.
Qed.

Lemma discount_antitone : antitone discount.
Proof.
  intros i. unfold discount.
  apply Rinv_le_contravar.
  - pose proof (log2_ge_1 _ (rank_ge_2 i)). lra.
  - apply log2_mono; [apply rank_ge_2|].
    rewrite S_INR. lra.
Qed.

Lemma cutoff_nonneg (k : nat) (d : nat -> R) :
  (forall i, 0 <= d i) -> forall i, 0 <= cutoff k d i.
Proof.
  intros Hd i. unfold cutoff. destruct (i <? k)%nat; [apply Hd | lra].
Qed.

Lemma cutoff_antitone (k : nat) (d : nat -> R) :
  antitone d -> (forall i, 0 <= d i) -> antitone (cutoff k d).
Proof.
  intros Hanti Hd i. unfold cutoff.
  destruct (S i <? k)%nat eqn:E1; destruct (i <? k)%nat eqn:E2.
  - apply Hanti.
  - apply Nat.ltb_lt in E1. apply Nat.ltb_ge in E2. lia.
  - apply Hd.
  - lra.
Qed.

Lemma wsum_ext_from (d d' : nat -> R) (l : list R) :
  forall i, (forall j, (i <= j)%nat -> d j = d' j) -> wsum d i l = wsum d' i l.
Proof.
  induction l as [|x t IH]; intros i Heq; simpl; [reflexivity|].
  rewrite (Heq i (Nat.le_refl i)). f_equal.
  apply IH. intros j Hj. apply Heq. lia.
Qed.

Lemma wsum_zero (d : nat -> R) (l : list R) :
  forall i, (forall j, (i <= j)%nat -> d j = 0) -> wsum d i l = 0.
Proof.
  induction l as [|x t IH]; intros i Hz; simpl; [reflexivity|].
  rewrite (Hz i (Nat.le_refl i)), IH; [lra|].
  intros j Hj. apply Hz. lia.
Qed.

Lemma wsum_firstn (d : nat -> R) (l : list R) :
  forall i k, wsum d i (firstn k l) = wsum (cutoff (i + k) d) i l.
Proof.
  induction l as [|x t IH]; intros i k.
  - now rewrite firstn_nil.
  - destruct k as [|k]; simpl.
    + symmetry. rewrite Nat.add_0_r.
      assert (Hz : forall j, (i <= j)%nat -> cutoff i d j = 0).
      { intros j Hj. unfold cutoff.
        destruct (j <? i)%nat eqn:E; [|reflexivity].
        apply Nat.ltb_lt in E. lia. }
      rewrite (Hz i (Nat.le_refl i)), wsum_zero; [lra|].
      intros j Hj. apply Hz. lia.
    + rewrite IH. replace (S i + k)%nat with (i + S k)%nat by lia.
      f_equal. unfold cutoff.
      assert (E : (i <? i + S k)%nat = true) by (apply Nat.ltb_lt; lia).
      now rewrite E.
Qed.

Lemma wsum_nonneg (d : nat -> R) (l : list R) :
  (forall i, 0 <= d i) -> Forall (fun x => 0 <= x) l ->
  forall i, 0 <= wsum d i l.
Proof.
  intros Hd. induction 1 as [|x t Hx Ht IH]; intros i; simpl; [lra|].
  specialize (IH (S i)). specialize (Hd i). nra.
Qed.

Lemma gain_total_nonneg (rel : Z) : (0 <= rel)%Z -> 0 <= gain_total rel.
Proof.
  intros H. unfold gain_total.
  assert (1 <= 2 ^ rel)%Z by (pose proof (Z.pow_pos_nonneg 2 rel); lia).
  apply IZR_le in H0. lra.
Qed.

Lemma gain_total_mono (a b : Z) : (a <= b)%Z -> gain_total a <= gain_total b.
Proof.
  intros H. unfold gain_total.
  assert (2 ^ a <= 2 ^ b)%Z by (apply Z.pow_le_mono_r; lia).
  apply IZR_le in H0. lra.
Qed.

Lemma wrap_int64_small (z : Z) :
  (- 2 ^ 63 <= z < 2 ^ 63)%Z -> wrap_int64 z = z.
Proof.
  intros H. unfold wrap_int64. rewrite Z.mod_small; lia.
Qed.

Lemma int64_labels_nonneg (labels : list Z) :
  Forall int64_gain_label labels -> Forall (fun rel => 0 <= rel)%Z labels.
Proof.
  intros H. eapply Forall_impl; [|exact H].
  intros rel Hrel. unfold int64_gain_label in Hrel. lia.
Qed.

(* Within the int64 range the gain is the exact 2**rel - 1 *)
Lemma dcg_gain_nonneg (rel : Z) :
  int64_gain_label rel -> dcg_gain rel = Some (gain_total rel).
Proof.
  intros H. unfold int64_gain_label in H. unfold dcg_gain, gain_total.
  destruct (rel <? 0)%Z eqn:E; [apply Z.ltb_lt in E; lia|].
  assert (H1 : (1 <= 2 ^ rel)%Z)
    by (pose proof (Z.pow_pos_nonneg 2 rel); lia).
  assert (H2 : (2 ^ rel <= 2 ^ 62)%Z) by (apply Z.pow_le_mono_r; lia).
  assert (H3 : (2 ^ 62 < 2 ^ 63)%Z) by (apply Z.pow_lt_mono_r; lia).
  assert (H4 : (0 < 2 ^ 63)%Z) by (apply Z.pow_pos_nonneg; lia).
  rewrite (wrap_int64_small (2 ^ rel)) by lia.
  rewrite wrap_int64_small by lia.
  now rewrite minus_IZR.
Qed.

Lemma dcg_loop_spec (y_true : list Z) (idxs : list nat) :
  Forall int64_gain_label y_true ->
  Forall (fun idx => (idx < length y_true)%nat) idxs ->
  forall i dcg,
    dcg_loop y_true i idxs dcg
    = Some (dcg + wsum discount i
                    (map (fun idx => gain_total (nth idx y_true 0%Z)) idxs)).
Proof.
  intros Hpos. induction 1 as [|idx rest Hidx Hrest IH]; intros i dcg; simpl.
  - f_equal. lra.
  - rewrite (nth_error_nth' y_true 0%Z Hidx).
    rewrite dcg_gain_nonneg.
    + rewrite IH. f_equal. unfold discount, Rdiv. lra.
    + rewrite Forall_forall in Hpos. apply Hpos. now apply nth_In.
Qed.

Lemma idcg_sum_spec (rels : list Z) :
  Forall int64_gain_label rels ->
  forall i acc,
    idcg_sum i rels acc
    = Some (acc + wsum discount i (map gain_total rels)).
Proof.
  induction 1 as [|rel rest Hrel Hrest IH]; intros i acc; simpl.
  - f_equal. lra.
  - rewrite dcg_gain_nonneg by exact Hrel.
    rewrite IH. f_equal. unfold discount, Rdiv. lra.
Qed.

Lemma firstn_min_length {A : Type} (k : nat) (l : list A) :
  firstn (Nat.min k (length l)) l = firstn k l.
Proof.
  rewrite <- firstn_firstn. now rewrite firstn_all.
Qed.

Lemma Zleb_total (a b : Z) : (a <=? b)%Z = true \/ (b <=? a)%Z = true.
Proof. rewrite !Z.leb_le. lia. Qed.

Lemma Zleb_trans (a b c : Z) :
  (a <=? b)%Z = true -> (b <=? c)%Z = true -> (a <=? c)%Z = true.
Proof. rewrite !Z.leb_le. lia. Qed.

(* The ideal ordering: labels descending, as gains *)
Lemma ideal_gains_sorted (y_true : list Z) :
  StronglySorted Rge (map gain_total (rev (sort_by Z.leb y_true))).
Proof.
  apply (StronglySorted_map (fun a b => (b <= a)%Z)).
  - intros a b Hab. apply Rle_ge. now apply gain_total_mono.
  - apply (StronglySorted_rev Z.le).
    eapply StronglySorted_weaken;
      [|apply (sort_by_sorted Z.leb Zleb_total Zleb_trans)].
    intros a b Hab. now apply Z.leb_le.
Qed.

(* The predicted ordering visits every label exactly once *)
Lemma ranked_labels_perm (y_true : list Z) (y_pred : list Q) :
  length y_pred = length y_true ->
  Permutation
    (map (fun idx => gain_total (nth idx y_true 0%Z)) (rev (argsort Qle_bool y_pred)))
    (map gain_total (rev (sort_by Z.leb y_true))).
Proof.
  intros Hlen.
  rewrite <- (map_map (fun idx => nth idx y_true 0%Z) gain_total).
  apply Permutation_map.
  rewrite <- Permutation_rev, <- (Permutation_rev (sort_by Z.leb y_true)).
  rewrite sort_by_perm, argsort_perm, Hlen.
  now rewrite map_nth_seq.
Qed.

Lemma dcg_le_ideal (y_true : list Z) (y_pred : list Q) (k : nat) :
  length y_pred = length y_true ->
  wsum discount 0
    (map (fun idx => gain_total (nth idx y_true 0%Z))
         (firstn k (rev (argsort Qle_bool y_pred))))
  <= wsum discount 0
       (map gain_total (firstn k (rev (sort_by Z.leb y_true)))).
Proof.
  intros Hlen. rewrite <- !firstn_map, !wsum_firstn.
  apply wsum_sorted_max.
  - apply cutoff_antitone; [apply discount_antitone|].
    intros i. left. apply discount_pos.
  - apply ideal_gains_sorted.
  - now apply ranked_labels_perm.
Qed.






End Ndcg.

(** * Mean average precision *)

Section MeanAveragePrecision.
Import SEORankingPredictor.

Lemma slice_as_skipn {A : Type} (l : list A) (start size : nat) :
  slice l start (start + size) = skipn start (firstn (start + size) l).
Proof.
  unfold slice. replace (start + size - start)%nat with size by lia.
  apply firstn_skipn_comm.
Qed.

Lemma firstn_agree {A : Type} (l l' : list A) (n m : nat) :
  (n <= m)%nat -> firstn m l = firstn m l' -> firstn n l = firstn n l'.
Proof.
  intros Hnm H.
  rewrite <- (Nat.min_l n m Hnm), <- !firstn_firstn. now rewrite H.
Qed.

Lemma binarize_no_relevant (labels : list Z) :
  no_relevant labels -> forall a, fold_left Z.add (binarize labels) a = a.
Proof.
  induction 1 as [|t rest Ht Hrest IH]; intros a; simpl; [reflexivity|].
  destruct (2 <=? t)%Z eqn:E; [apply Z.leb_le in E; lia|].
  rewrite IH. lia.
Qed.

Lemma no_relevant_sum (labels : list Z) :
  no_relevant labels -> (Zsum (binarize labels) =? 0)%Z = true.
Proof.
  intros H. unfold Zsum. now rewrite binarize_no_relevant.
Qed.

Lemma no_relevant_slice (y_true : list Z) (start size n : nat) :
  (start + size <= n)%nat ->
  no_relevant (firstn n y_true) ->
  no_relevant (slice y_true start (start + size)).
Proof.
  intros Hn Hall. rewrite slice_as_skipn.
  apply Forall_forall. intros t Ht.
  unfold no_relevant in Hall. rewrite Forall_forall in Hall. apply Hall.
  apply In_skipn in Ht.
  rewrite <- (Nat.min_l _ _ Hn), <- firstn_firstn in Ht.
  now apply In_firstn in Ht.
Qed.

Lemma slice_len {A : Type} (l : list A) (start size : nat) :
  slice l start (start + size) = firstn size (skipn start l).
Proof.
  unfold slice. now replace (start + size - start)%nat with size by lia.
Qed.

Lemma firstn_remove_slice {A : Type} (l : list A) (s g : nat) :
  firstn s (remove_slice l s g) = firstn s l.
Proof.
  unfold remove_slice. rewrite firstn_app, firstn_firstn, Nat.min_id.
  rewrite length_firstn.
  destruct (Nat.le_gt_cases s (length l)) as [Hle|Hgt].
  - rewrite Nat.min_l, Nat.sub_diag by exact Hle.
    simpl. apply app_nil_r.
  - rewrite (skipn_all2 l) by lia.
    rewrite firstn_nil. apply app_nil_r.
Qed.

Lemma skipn_remove_slice {A : Type} (l : list A) (s g s' : nat) :
  (s <= s')%nat -> skipn s' (remove_slice l s g) = skipn (s' + g) l.
Proof.
  intros Hs. unfold remove_slice. rewrite skipn_app.
  rewrite (skipn_all2 (firstn s l)) by (rewrite length_firstn; lia).
  rewrite length_firstn. simpl.
  destruct (Nat.le_gt_cases s (length l)) as [Hle|Hgt].
  - rewrite Nat.min_l by exact Hle. rewrite skipn_skipn.
    f_equal. lia.
  - rewrite (skipn_all2 l (n := s + g)) by lia.
    rewrite (skipn_all2 l (n := s' + g)) by lia.
    apply skipn_nil.
Qed.

(* The loop over a concatenation runs the first part, then the second part
   from the row where the first part stopped *)
Lemma map_loop_app (y_true : list Z) (y_pred : list Q) (gs1 gs2 : list nat) :
  forall start acc,
    map_loop y_true y_pred (gs1 ++ gs2) start acc
    = (acc' <- map_loop y_true y_pred gs1 start acc ;;
       map_loop y_true y_pred gs2 (start + list_sum gs1) acc').
Proof.
  induction gs1 as [|g rest IH]; intros start acc; simpl.
  - now rewrite Nat.add_0_r.
  - rewrite Nat.add_assoc.
    destruct (Zsum _ =? 0)%Z; [apply IH|].
    destruct (take _ _); [apply IH | reflexivity].
Qed.

(* The loop reads its arrays only below the last row of its groups *)
Lemma map_loop_local (y_true y_true' : list Z) (y_pred y_pred' : list Q)
    (gs : list nat) :
  forall start acc,
    firstn (start + list_sum gs) y_true = firstn (start + list_sum gs) y_true' ->
    firstn (start + list_sum gs) y_pred = firstn (start + list_sum gs) y_pred' ->
    map_loop y_true y_pred gs start acc = map_loop y_true' y_pred' gs start acc.
Proof.
  induction gs as [|g rest IH]; intros start acc Ht Hp; [reflexivity|].
  simpl in Ht, Hp. rewrite Nat.add_assoc in Ht, Hp.
  assert (Et : slice y_true start (start + g) = slice y_true' start (start + g)).
  { rewrite !slice_as_skipn. f_equal.
    eapply firstn_agree; [|exact Ht]. lia. }
  assert (Ep : slice y_pred start (start + g) = slice y_pred' start (start + g)).
  { rewrite !slice_as_skipn. f_equal.
    eapply firstn_agree; [|exact Hp]. lia. }
  simpl. rewrite Et, Ep.
  destruct (Zsum _ =? 0)%Z; [now apply IH|].
  destruct (take _ _); [now apply IH | reflexivity].
Qed.

(* Past a removed group, the loop on the shortened arrays sees the same rows *)
Lemma map_loop_removed (y_true : list Z) (y_pred : list Q) (s g : nat)
    (gs : list nat) :
  forall s' acc, (s <= s')%nat ->
    map_loop y_true y_pred gs (s' + g) acc
    = map_loop (remove_slice y_true s g) (remove_slice y_pred s g) gs s' acc.
Proof.
  induction gs as [|sz rest IH]; intros s' acc Hs; [reflexivity|].
  simpl. rewrite !slice_len.
  rewrite !skipn_remove_slice by exact Hs.
  replace (s' + g + sz)%nat with (s' + sz + g)%nat by lia.
  destruct (Zsum _ =? 0)%Z; [apply IH; lia|].
  destruct (take _ _); [apply IH; lia | reflexivity].
Qed.

Lemma map_loop_no_relevant (y_true : list Z) (y_pred : list Q) (gs : list nat) :
  forall start acc,
    no_relevant (firstn (start + list_sum gs) y_true) ->
    map_loop y_true y_pred gs start acc = Some acc.
Proof.
  induction gs as [|g rest IH]; intros start acc Hnone; [reflexivity|].
  simpl in *. rewrite Nat.add_assoc in Hnone.
  rewrite no_relevant_sum.
  - now apply IH.
  - eapply no_relevant_slice; [|exact Hnone]. lia.
Qed.

(** C5.  A query group without a relevant document (no label >= 2) adds
    nothing to the MAP average: _calculate_map gives the same result as on
    the data with that group's rows and size removed.  When no group has a
    relevant document, _calculate_map returns 0. *)
Theorem calculate_map_skips_groups_without_relevant :
  forall (y_true : list Z) (y_pred : list Q) (gs1 : list nat) (g : nat)
         (gs2 : list nat),
    no_relevant (slice y_true (list_sum gs1) (list_sum gs1 + g)) ->
    _calculate_map y_true y_pred (gs1 ++ g :: gs2)
    = _calculate_map (remove_slice y_true (list_sum gs1) g)
                     (remove_slice y_pred (list_sum gs1) g) (gs1 ++ gs2)
    /\ (no_relevant (firstn (list_sum (gs1 ++ g :: gs2)) y_true) ->
        _calculate_map y_true y_pred (gs1 ++ g :: gs2) = Some 0).
Proof.
  intros y_true y_pred gs1 g gs2 Hg. split.
  - unfold _calculate_map. rewrite !map_loop_app. simpl.
    rewrite (map_loop_local (remove_slice y_true (list_sum gs1) g) y_true
               (remove_slice y_pred (list_sum gs1) g) y_pred gs1 0 [])
      by (simpl; apply firstn_remove_slice).
    destruct (map_loop y_true y_pred gs1 0 []) as [acc|]; [|reflexivity].
    rewrite (no_relevant_sum _ Hg).
    now rewrite map_loop_removed with (s := list_sum gs1).
  - intros Hall. unfold _calculate_map.
    now rewrite map_loop_no_relevant.
Qed.

Lemma calculate_map_skips_groups_without_relevant_witness :
  _calculate_map [3; 0; 1; 0; 0; 2]%Z [0.2; 0.9; 0.4; 0.8; 0.3; 0.6]
                 ([2] ++ 2 :: [2])%nat
  = _calculate_map [3; 0; 0; 2]%Z [0.2; 0.9; 0.3; 0.6] ([2] ++ [2])%nat
  /\ _calculate_map [1; 0; 1]%Z [0.5; 0.1; 0.7] ([1] ++ 1 :: [1])%nat = Some 0.
Proof.
  split.
  - apply (calculate_map_skips_groups_without_relevant
             [3; 0; 1; 0; 0; 2]%Z [0.2; 0.9; 0.4; 0.8; 0.3; 0.6]
             [2]%nat 2%nat [2]%nat).
    repeat constructor.
  - apply (calculate_map_skips_groups_without_relevant
             [1; 0; 1]%Z [0.5; 0.1; 0.7] [1]%nat 1%nat [1]%nat);
      repeat constructor.
Defined.

End MeanAveragePrecision.

(** * Grouped train/test split *)

Section GroupedSplit.
Import SEORankingPredictor.

Lemma take_length {A : Type} (l : list A) (idx : list nat) :
  forall r, take l idx = Some r -> length r = length idx.
Proof.
  induction idx as [|i rest IH]; simpl; intros r.
  - now intros [= <-].
  - destruct (nth_error l i); [|discriminate].
    destruct (take l rest) as [xs|]; [|discriminate].
    intros [= <-]. simpl. f_equal. now apply IH.
Qed.

Lemma take_some {A : Type} (l : list A) (idx : list nat) :
  Forall (fun i => (i < length l)%nat) idx -> exists r, take l idx = Some r.
Proof.
  induction 1 as [|i rest Hi Hrest [xs IH]]; simpl; [eauto|].
  destruct (nth_error l i) as [x|] eqn:E.
  - rewrite IH. eauto.
  - apply nth_error_None in E. lia.
Qed.

Lemma take_perm {A : Type} (l : list A) (idx : list nat) (d : A) :
  forall r, take l idx = Some r -> r = map (fun i => nth i l d) idx.
Proof.
  induction idx as [|i rest IH]; simpl; intros r.
  - now intros [= <-].
  - destruct (nth_error l i) as [x|] eqn:E; [|discriminate].
    destruct (take l rest) as [xs|]; [|discriminate].
    intros [= <-]. f_equal; [|now apply IH].
    symmetry. now apply nth_error_nth.
Qed.

Lemma mask_select_length {A B : Type} (mask : list bool) :
  forall (l : list A) (l' : list B),
    length l = length l' ->
    length (mask_select mask l) = length (mask_select mask l').
Proof.
  unfold mask_select.
  induction mask as [|b mask IH]; intros [|x l] [|x' l'] H; simpl in *;
    try reflexivity; try discriminate.
  injection H as H. destruct b; simpl; [f_equal|]; now apply IH.
Qed.

Lemma mask_select_filter {A : Type} (f : A -> bool) (l : list A) :
  mask_select (map f l) l = filter f l.
Proof.
  unfold mask_select. induction l as [|x l IH]; simpl; [reflexivity|].
  destruct (f x); simpl; now rewrite IH.
Qed.

Lemma list_sum_cons (n : nat) (l : list nat) :
  list_sum (n :: l) = (n + list_sum l)%nat.
Proof. reflexivity. Qed.

Lemma count_occ_new_row (a : Z) (l u : list Z) :
  NoDup u -> In a u ->
  list_sum (map (count_occ Z.eq_dec (a :: l)) u)
  = S (list_sum (map (count_occ Z.eq_dec l) u)).
Proof.
  induction 1 as [|x u' Hx Hu IH]; intros Hin; [contradiction|].
  rewrite !map_cons, !list_sum_cons.
  destruct (Z.eq_dec a x) as [->|Hne].
  - rewrite count_occ_cons_eq by reflexivity.
    rewrite (map_ext_in (count_occ Z.eq_dec (x :: l)) (count_occ Z.eq_dec l)).
    + reflexivity.
    + intros y Hy. apply count_occ_cons_neq. congruence.
  - rewrite count_occ_cons_neq by exact Hne.
    destruct Hin as [Heq|Hin]; [congruence|].
    rewrite (IH Hin). lia.
Qed.

Lemma count_occ_total (l u : list Z) :
  NoDup u -> incl l u ->
  list_sum (map (count_occ Z.eq_dec l) u) = length l.
Proof.
  intros Hu. induction l as [|a l IH]; intros Hincl.
  - clear. induction u as [|x u IH]; simpl; auto.
  - rewrite count_occ_new_row; [|exact Hu|apply Hincl; now left].
    simpl length. f_equal. apply IH. intros y Hy. apply Hincl. now right.
Qed.

Lemma np_unique_perm (l : list Z) : Permutation (np_unique l) (nodup Z.eq_dec l).
Proof. apply sort_by_perm. Qed.

(* The group sizes of an id column add up to its row count *)
Lemma value_counts_total (l : list Z) :
  list_sum (value_counts_sort_index l) = length l.
Proof.
  unfold value_counts_sort_index.
  rewrite (Permutation_list_sum
             (Permutation_map (count_occ Z.eq_dec l) (np_unique_perm l))).
  apply count_occ_total.
  - apply NoDup_nodup.
  - intros x Hx. now apply nodup_In.
Qed.

Lemma py_int_fraction (n : nat) (test_size : Q) :
  0 <= test_size <= 1 ->
  (0 <= py_int (inject_Z (Z.of_nat n) * test_size) <= Z.of_nat n)%Z.
Proof.
  intros [H0 H1]. unfold py_int.
  assert (Hn : 0 <= inject_Z (Z.of_nat n)).
  { unfold Qle. simpl. lia. }
  assert (Hlo : 0 <= inject_Z (Z.of_nat n) * test_size) by nra.
  assert (Hhi : inject_Z (Z.of_nat n) * test_size <= inject_Z (Z.of_nat n)) by nra.
  apply Qle_bool_iff in Hlo as Hb. rewrite Hb. split.
  - apply Qfloor_resp_le in Hlo. exact Hlo.
  - apply Qfloor_resp_le in Hhi. now rewrite Qfloor_Z in Hhi.
Qed.

Variable np_random_choice : nat -> nat -> list nat.

Lemma prepare_ranking_rows_split features labels query_ids test_size
    X_train X_test y_train y_test qid_train qid_test :
  prepare_ranking_rows np_random_choice features labels query_ids test_size
  = Some (X_train, X_test, y_train, y_test, qid_train, qid_test) ->
  length qid_train = length X_train
  /\ length qid_test = length X_test
  /\ length qid_train = length y_train
  /\ length qid_test = length y_test
  /\ (forall q, In q qid_train -> In q qid_test -> False).
Proof.
  unfold prepare_ranking_rows.
  destruct (take features _) as [fs|] eqn:Ef; [|discriminate].
  destruct (take labels _) as [ls|] eqn:El; [|discriminate].
  destruct (take query_ids _) as [qs|] eqn:Eq; [|discriminate].
  destruct (random_choice _ _ _) as [idx|]; [|discriminate].
  destruct (take (np_unique qs) idx) as [tq|]; [|discriminate].
  intros [= <- <- <- <- <- <-].
  apply take_length in Ef, El, Eq.
  assert (Hfq : length qs = length fs) by congruence.
  assert (Hlq : length qs = length ls) by congruence.
  unfold isin. rewrite map_map.
  repeat split; try (now apply mask_select_length).
  intros q. rewrite !mask_select_filter, !filter_In.
  intros [_ Htrain] [_ Htest]. rewrite Htest in Htrain. discriminate.
Qed.

Lemma prepare_ranking_rows_returns features labels query_ids test_size :
  choice_contract np_random_choice ->
  length features = length query_ids ->
  length labels = length query_ids ->
  0 <= test_size <= 1 ->
  exists rows,
    prepare_ranking_rows np_random_choice features labels query_ids test_size
    = Some rows.
Proof.
  intros Hchoice Hf Hl Ht. unfold prepare_ranking_rows. cbv zeta.
  pose proof (argsort_in_range Z.leb query_ids) as Hr.
  destruct (take_some features _ (eq_ind_r (fun n => Forall (fun i => (i < n)%nat) _) Hr Hf))
    as [fs ->].
  destruct (take_some labels _ (eq_ind_r (fun n => Forall (fun i => (i < n)%nat) _) Hr Hl))
    as [ls ->].
  destruct (take_some query_ids _ Hr) as [qs ->].
  unfold random_choice.
  pose proof (py_int_fraction (length (np_unique qs)) test_size Ht) as [Hlo Hhi].
  set (n := length (np_unique qs)) in *.
  set (m := py_int (inject_Z (Z.of_nat n) * test_size)) in *.
  assert (E1 : (m <? 0)%Z = false) by (apply Z.ltb_ge; lia).
  assert (E2 : (Z.of_nat n <? m)%Z = false) by (apply Z.ltb_ge; lia).
  rewrite E1, E2. cbn [orb].
  destruct (Hchoice n (Z.to_nat m)) as (_ & _ & Hrange); [lia|].
  destruct (take_some _ _ Hrange) as [tq ->].
  eauto.
Qed.

Lemma mask_select_cons {A : Type} (c : bool) (m : list bool) (x : A)
    (l : list A) :
  mask_select (c :: m) (x :: l)
  = if c then x :: mask_select m l else mask_select m l.
Proof. unfold mask_select. simpl. now destruct c. Qed.

Lemma mask_select_combine {A B : Type} (m : list bool) :
  forall (a : list A) (b : list B),
    combine (mask_select m a) (mask_select m b) = mask_select m (combine a b).
Proof.
  induction m as [|c m IH]; intros a b; [reflexivity|].
  destruct a as [|x a]; [reflexivity|].
  destruct b as [|y b]; [apply combine_nil|].
  cbn [combine]. rewrite !mask_select_cons. destruct c; simpl; now rewrite IH.
Qed.

(* A mask and its negation share out the rows *)
Lemma mask_partition {A : Type} (m : list bool) :
  forall (l : list A),
    length m = length l ->
    Permutation (mask_select (map negb m) l ++ mask_select m l) l.
Proof.
  induction m as [|c m IH]; intros [|x l] Hlen; try discriminate.
  - constructor.
  - injection Hlen as Hlen. cbn [map]. rewrite !mask_select_cons.
    destruct c; simpl.
    + apply Permutation_sym, Permutation_cons_app, Permutation_sym, IH, Hlen.
    + constructor. now apply IH.
Qed.

Lemma combine_map_same {A B C : Type} (f : A -> B) (g : A -> C) (l : list A) :
  combine (map f l) (map g l) = map (fun x => (f x, g x)) l.
Proof. induction l as [|x l IH]; simpl; [reflexivity | now rewrite IH]. Qed.

(* What prepare_ranking_rows computes, step by step *)
Lemma prepare_ranking_rows_steps features labels query_ids test_size
    X_train X_test y_train y_test qid_train qid_test :
  prepare_ranking_rows np_random_choice features labels query_ids test_size
  = Some (X_train, X_test, y_train, y_test, qid_train, qid_test) ->
  exists fs ls qs idx tq,
    take features (argsort Z.leb query_ids) = Some fs
    /\ take labels (argsort Z.leb query_ids) = Some ls
    /\ take query_ids (argsort Z.leb query_ids) = Some qs
    /\ random_choice np_random_choice (length (np_unique qs))
         (py_int (inject_Z (Z.of_nat (length (np_unique qs))) * test_size))
       = Some idx
    /\ take (np_unique qs) idx = Some tq
    /\ X_train = mask_select (map negb (isin qs tq)) fs
    /\ X_test = mask_select (isin qs tq) fs
    /\ y_train = mask_select (map negb (isin qs tq)) ls
    /\ y_test = mask_select (isin qs tq) ls
    /\ qid_train = mask_select (map negb (isin qs tq)) qs
    /\ qid_test = mask_select (isin qs tq) qs.
Proof.
  unfold prepare_ranking_rows.
  destruct (take features _) as [fs|] eqn:Ef; [|discriminate].
  destruct (take labels _) as [ls|] eqn:El; [|discriminate].
  destruct (take query_ids _) as [qs|] eqn:Eq; [|discriminate].
  cbv zeta.
  destruct (random_choice _ _ _) as [idx|] eqn:Ei; [|discriminate].
  destruct (take (np_unique qs) idx) as [tq|] eqn:Et; [|discriminate].
  intros [= <- <- <- <- <- <-].
  exists fs, ls, qs, idx, tq. repeat split; assumption.
Qed.

Lemma take_in_range {A : Type} (l : list A) (idx : list nat) :
  forall r, take l idx = Some r -> Forall (fun i => (i < length l)%nat) idx.
Proof.
  induction idx as [|i rest IH]; intros r; simpl; [constructor|].
  destruct (nth_error l i) eqn:E; [|discriminate].
  destruct (take l rest) as [xs|]; [|discriminate]. intros _.
  constructor; [apply nth_error_Some; congruence | now apply (IH xs)].
Qed.

Lemma nth_combine_lt {A B : Type} (a : list A) (b : list B) (da : A) (db : B) :
  forall i, (i < length a)%nat -> (i < length b)%nat ->
            nth i (combine a b) (da, db) = (nth i a da, nth i b db).
Proof.
  revert b. induction a as [|x a IH]; intros [|y b] [|i]; simpl; try lia.
  - reflexivity.
  - intros Ha Hb. apply IH; lia.
Qed.

(* A column that takes every position of 0 .. n-1 has at least n rows *)
Lemma perm_seq_in_range (idx : list nat) (n len : nat) :
  Permutation idx (seq 0 n) -> Forall (fun i => (i < len)%nat) idx ->
  (n <= len)%nat.
Proof.
  intros Hperm Hrange. destruct n as [|n]; [lia|].
  rewrite Forall_forall in Hrange.
  assert (Hin : In n idx).
  { apply (Permutation_in n (Permutation_sym Hperm)). apply in_seq. lia. }
  specialize (Hrange n Hin). lia.
Qed.

(* Reading three columns at the argsort of the third keeps the rows: each
   returned row is an input row, with the label and the query id it had *)
Lemma take_triples_perm {A B C : Type} (a : list A) (b : list B) (c : list C)
    (idx : list nat) (ra : list A) (rb : list B) (rc : list C)
    (da : A) (db : B) (dc : C) :
  Permutation idx (seq 0 (length c)) ->
  take a idx = Some ra -> take b idx = Some rb -> take c idx = Some rc ->
  Permutation (combine ra (combine rb rc)) (combine a (combine b c)).
Proof.
  intros Hperm Ha Hb Hc.
  pose proof (perm_seq_in_range _ _ _ Hperm (take_in_range _ _ _ Ha)) as La.
  pose proof (perm_seq_in_range _ _ _ Hperm (take_in_range _ _ _ Hb)) as Lb.
  rewrite (take_perm a idx da ra Ha), (take_perm b idx db rb Hb),
    (take_perm c idx dc rc Hc).
  rewrite !combine_map_same.
  rewrite (map_ext_in _ (fun i => nth i (combine a (combine b c))
                                      (da, (db, dc)))).
  - rewrite Hperm.
    replace (length c) with (length (combine a (combine b c)))
      by (rewrite !length_combine; lia).
    now rewrite map_nth_seq.
  - intros i Hi. apply (Permutation_in i Hperm), in_seq in Hi.
    rewrite nth_combine_lt, nth_combine_lt; try lia; [reflexivity|].
    rewrite length_combine. lia.
Qed.

(** C3.  prepare_ranking_data splits by query id: on every input for which it
    returns, the returned rows, each with its label and the query id found
    beside it, are the input rows with the label and the query id they had
    there (training rows then test rows are a rearrangement of the input
    rows); no query id has rows on both sides; and each group-size array
    sums to the row count of its side.  It returns whenever the three inputs
    have one row per query id entry and test_size is a fraction in [0,1]. *)
Theorem prepare_ranking_data_grouped_split :
  forall (features : list (list Q)) (labels query_ids : list Z) (test_size : Q),
    (choice_contract np_random_choice ->
     length features = length query_ids ->
     length labels = length query_ids ->
     0 <= test_size <= 1 ->
     exists split,
       prepare_ranking_data np_random_choice features labels query_ids test_size
       = Some split)
    /\ forall X_train X_test y_train y_test train_groups test_groups,
         prepare_ranking_data np_random_choice features labels query_ids test_size
         = Some (X_train, X_test, y_train, y_test, train_groups, test_groups) ->
         exists qid_train qid_test,
           prepare_ranking_rows np_random_choice features labels query_ids test_size
           = Some (X_train, X_test, y_train, y_test, qid_train, qid_test)
           /\ length qid_train = length X_train
           /\ length qid_test = length X_test
           /\ length qid_train = length y_train
           /\ length qid_test = length y_test
           /\ (forall q, In q qid_train -> In q qid_test -> False)
           /\ list_sum train_groups = length X_train
           /\ list_sum test_groups = length X_test
           /\ Permutation
                (combine X_train (combine y_train qid_train)
                 ++ combine X_test (combine y_test qid_test))
                (combine features (combine labels query_ids)).
Proof.
  intros features labels query_ids test_size. split.
  - intros Hchoice Hf Hl Ht.
    destruct (prepare_ranking_rows_returns features labels query_ids test_size
                Hchoice Hf Hl Ht) as [[[[[[a b] c] d] e] f] E].
    unfold prepare_ranking_data. rewrite E. eauto.
  - intros X_train X_test y_train y_test train_groups test_groups.
    unfold prepare_ranking_data.
    destruct (prepare_ranking_rows _ _ _ _ _)
      as [[[[[[a b] c] d] qid_train] qid_test]|] eqn:E; [|discriminate].
    intros [= -> -> -> -> <- <-].
    destruct (prepare_ranking_rows_split _ _ _ _ _ _ _ _ _ _ E)
      as (H1 & H2 & H3 & H4 & Hdisj).
    exists qid_train, qid_test.
    rewrite !value_counts_total.
    repeat match goal with |- _ /\ _ => split end; auto.
    apply prepare_ranking_rows_steps in E
      as (fs & ls & qs & idx & tq & Ef & El & Eq & _ & _
          & -> & -> & -> & -> & -> & ->).
    rewrite !mask_select_combine.
    transitivity (combine fs (combine ls qs)).
    + apply mask_partition. unfold isin.
      rewrite length_map, !length_combine.
      apply take_length in Ef, El, Eq. lia.
    + apply (take_triples_perm features labels query_ids
               (argsort Z.leb query_ids) fs ls qs [] 0%Z 0%Z);
        try assumption.
      apply argsort_perm.
Qed.

End GroupedSplit.

Lemma seq_choice_contract : choice_contract (fun _ m => seq 0 m).
Proof.
  intros n m Hm. repeat split.
  - apply length_seq.
  - apply seq_NoDup.
  - apply Forall_forall. intros i Hi. apply in_seq in Hi. lia.
Qed.

Lemma prepare_ranking_data_grouped_split_witness :
  (exists split,
     SEORankingPredictor.prepare_ranking_data (fun _ m => seq 0 m)
       [[1]; [2]; [3]; [4]; [5]] [1; 2; 3; 4; 5]%Z [7; 3; 7; 5; 3]%Z 0.4
     = Some split)
  /\ (exists qid_train qid_test,
        SEORankingPredictor.prepare_ranking_rows (fun _ m => seq 0 m)
          [[1]; [2]; [3]; [4]; [5]] [1; 2; 3; 4; 5]%Z [7; 3; 7; 5; 3]%Z 0.4
        = Some ([[4]; [1]; [3]], [[2]; [5]], [4; 1; 3]%Z, [2; 5]%Z,
                qid_train, qid_test)
        /\ length qid_train = 3%nat
        /\ length qid_test = 2%nat
        /\ length qid_train = 3%nat
        /\ length qid_test = 2%nat
        /\ (forall q, In q qid_train -> In q qid_test -> False)
        /\ list_sum [1; 2]%nat = 3%nat
        /\ list_sum [2]%nat = 2%nat
        /\ Permutation
             (combine [[4]; [1]; [3]] (combine [4; 1; 3]%Z qid_train)
              ++ combine [[2]; [5]] (combine [2; 5]%Z qid_test))
             (combine [[1]; [2]; [3]; [4]; [5]]
                (combine [1; 2; 3; 4; 5]%Z [7; 3; 7; 5; 3]%Z))).
Proof.
  destruct (prepare_ranking_data_grouped_split (fun _ m => seq 0 m)
              [[1]; [2]; [3]; [4]; [5]] [1; 2; 3; 4; 5]%Z [7; 3; 7; 5; 3]%Z 0.4)
    as [Hreturns Hsplit].
  split.
  - apply Hreturns.
    + exact seq_choice_contract.
    + reflexivity.
    + reflexivity.
    + split; unfold Qle; simpl; lia.
  - apply (Hsplit [[4]; [1]; [3]] [[2]; [5]] [4; 1; 3]%Z [2; 5]%Z
             [1; 2]%nat [2]%nat).
    vm_compute. reflexivity.
Defined.

(** * Pairwise ranking loss *)

Section PairwiseLoss.
Import LambdaRankLoss.

Lemma fold_left_fixed {A B : Type} (f : A -> B -> A) (l : list B) (a : A) :
  (forall x, In x l -> f a x = a) -> fold_left f l a = a.
Proof.
  induction l as [|x l IH]; intros H; simpl; [reflexivity|].
  rewrite (H x (or_introl eq_refl)). apply IH.
  intros y Hy. apply H. now right.
Qed.

Lemma mask_select_In {A B : Type} (f : A -> bool) (keys : list A) :
  forall (values : list B) (v : B),
    In v (mask_select (map f keys) values) ->
    exists k, In (k, v) (combine keys values) /\ f k = true.
Proof.
  unfold mask_select.
  induction keys as [|k keys IH]; intros [|x values] v; simpl;
    try contradiction.
  destruct (f k) eqn:E; simpl.
  - intros [<-|Hin]; [eauto|].
    destruct (IH values v Hin) as (k' & Hk' & Hf). eauto.
  - intros Hin. destruct (IH values v Hin) as (k' & Hk' & Hf). eauto.
Qed.

(* A pair with equal labels leaves loss and count as they are *)
Lemma pair_step_equal_labels sigma q_scores q_labels i j acc :
  nth i q_labels 0 == nth j q_labels 0 ->
  pair_step sigma q_scores q_labels i j acc = acc.
Proof.
  intros Heq. unfold pair_step. destruct acc as [loss count].
  apply Qeq_bool_iff in Heq. now rewrite Heq.
Qed.

Lemma pair_loops_equal_labels sigma q_scores q_labels acc :
  length q_labels = length q_scores ->
  (forall l1 l2, In l1 q_labels -> In l2 q_labels -> l1 == l2) ->
  pair_loops sigma q_scores q_labels acc = acc.
Proof.
  intros Hlen Hall. unfold pair_loops.
  apply fold_left_fixed. intros i Hi. apply in_seq in Hi.
  apply fold_left_fixed. intros j Hj. apply in_seq in Hj.
  apply pair_step_equal_labels.
  apply Hall; apply nth_In; lia.
Qed.

Lemma query_step_equal_labels sigma scores labels query_ids acc qid :
  length scores = length query_ids ->
  length labels = length query_ids ->
  (forall q l1 l2,
     In (q, l1) (combine query_ids labels) ->
     In (q, l2) (combine query_ids labels) -> l1 == l2) ->
  query_step sigma scores labels query_ids acc qid = acc.
Proof.
  intros Hs Hl Hgroup. unfold query_step.
  destruct (_ <? 2)%nat; [reflexivity|].
  apply pair_loops_equal_labels.
  - apply mask_select_length. congruence.
  - intros l1 l2 H1 H2.
    apply mask_select_In in H1, H2.
    destruct H1 as (q1 & Hin1 & E1), H2 as (q2 & Hin2 & E2).
    apply Z.eqb_eq in E1, E2. subst q1 q2.
    exact (Hgroup qid l1 l2 Hin1 Hin2).
Qed.

(** C6.  On a batch in which the rows of each query id all carry the same
    label, LambdaRankLoss.forward returns 0 whatever the scores are: no pair
    is counted. *)
Theorem lambda_rank_loss_zero_on_constant_groups :
  forall (sigma : Q) (scores labels : list Q) (query_ids : list Z),
    length scores = length query_ids ->
    length labels = length query_ids ->
    (forall q l1 l2,
       In (q, l1) (combine query_ids labels) ->
       In (q, l2) (combine query_ids labels) -> l1 == l2) ->
    forward sigma scores labels query_ids = 0%R.
Proof.
  intros sigma scores labels query_ids Hs Hl Hgroup. unfold forward.
  rewrite fold_left_fixed.
  - simpl. unfold Rdiv. rewrite Rinv_1. apply Rmult_0_l.
  - intros qid _. now apply query_step_equal_labels.
Qed.

Lemma lambda_rank_loss_zero_on_constant_groups_witness :
  forward 1 [0.3; 1.2; -0.4; 0.8; 0.1] [2; 0; 2; 0; 2] [7; 4; 7; 4; 7]%Z = 0%R.
Proof.
  apply lambda_rank_loss_zero_on_constant_groups.
  - reflexivity.
  - reflexivity.
  - intros q l1 l2 H1 H2. simpl in H1, H2.
    destruct H1 as [H1|[H1|[H1|[H1|[H1|[]]]]]];
      destruct H2 as [H2|[H2|[H2|[H2|[H2|[]]]]]];
      inversion H1; subst; inversion H2; subst; reflexivity.
Defined.

End PairwiseLoss.

(** * Feature engineering *)

Section RatioFeatures.
Import SEOFeatureEngineer.

Lemma dict_get_set_same {V : Type} (k : string) (v : V) (d : list (string * V)) :
  dict_get String.eqb k (dict_set String.eqb k v d) = Some v.
Proof.
  induction d as [|[k' v'] d IH]; simpl.
  - now rewrite String.eqb_refl.
  - destruct (String.eqb k k') eqn:E; simpl.
    + now rewrite String.eqb_refl.
    + now rewrite E.
Qed.

Lemma dict_get_set_other {V : Type} (k k' : string) (v : V)
    (d : list (string * V)) :
  String.eqb k' k = false ->
  dict_get String.eqb k' (dict_set String.eqb k v d) = dict_get String.eqb k' d.
Proof.
  intros Hne. induction d as [|[key v0] d IH]; simpl.
  - now rewrite Hne.
  - destruct (String.eqb k key) eqn:E; simpl.
    + apply String.eqb_eq in E. subst key. now rewrite Hne.
    + now rewrite IH.
Qed.

Lemma nth_error_map2 {A B C : Type} (f : A -> B -> C) (a : list A) (b : list B) :
  forall i x y,
    nth_error a i = Some x -> nth_error b i = Some y ->
    nth_error (map2 f a b) i = Some (f x y).
Proof.
  revert b. induction a as [|x0 a IH]; intros [|y0 b] [|i] x y; simpl;
    try discriminate.
  - now intros [= ->] [= ->].
  - apply IH.
Qed.

Lemma image_optimization_ratio_keeps (df : DataFrame) (name : string) :
  String.eqb name "image_alt_ratio" = false ->
  dict_get String.eqb name (image_optimization_ratio df)
  = dict_get String.eqb name df.
Proof.
  intros Hne. unfold image_optimization_ratio.
  destruct (has_columns df _); [|reflexivity].
  now apply dict_get_set_other.
Qed.

Lemma later_blocks_keep_dofollow_ratio (df : DataFrame) :
  dict_get String.eqb "dofollow_ratio"
    (engagement_efficiency
       (content_to_code_ratio
          (anchor_text_diversity (authority_distribution df))))
  = dict_get String.eqb "dofollow_ratio" df.
Proof.
  unfold engagement_efficiency.
  destruct (has_columns _ ["engagement_rate"; "bounce_rate"]);
    [unfold set_col; rewrite dict_get_set_other by reflexivity|];
    (unfold content_to_code_ratio;
     destruct (has_columns _ ["content_length"; "javascript_size"; "css_size"]);
     [cbv zeta; unfold set_col;
      rewrite !dict_get_set_other by reflexivity|];
     (unfold anchor_text_diversity;
      destruct (has_columns _ (map fst anchor_cols));
      [cbv zeta; simpl fold_left; unfold set_col;
       rewrite !dict_get_set_other by reflexivity|];
      (unfold authority_distribution;
       destruct (has_columns df _);
       [cbv zeta; unfold set_col;
        rewrite !dict_get_set_other by reflexivity|];
       reflexivity))).
Qed.

Lemma has_both_link_columns (df : DataFrame) (tb dl : Series) :
  dict_get String.eqb "total_backlinks" df = Some tb ->
  dict_get String.eqb "dofollow_links" df = Some dl ->
  has_columns df ["dofollow_links"; "total_backlinks"] = true.
Proof.
  intros Htb Hdl. unfold has_columns, dict_mem. simpl.
  now rewrite Htb, Hdl.
Qed.

(** C7.  When a frame has the columns total_backlinks and dofollow_links,
    the ratio step returns a frame (it has no failing path) whose
    dofollow_ratio column holds exactly 0.0 in every row where
    total_backlinks is 0, whatever dofollow_links holds there: the quotient
    computed for that row (NaN or an infinity) is discarded by np.where. *)
Theorem dofollow_ratio_zero_when_no_backlinks :
  forall (df : DataFrame) (tb dl : Series),
    dict_get String.eqb "total_backlinks" df = Some tb ->
    dict_get String.eqb "dofollow_links" df = Some dl ->
    exists ratio,
      dict_get String.eqb "dofollow_ratio" (_create_ratio_features df)
      = Some ratio
      /\ forall (i : nat) (x : Q) (n : npfloat),
           nth_error tb i = Some (Fin x) -> x == 0 ->
           nth_error dl i = Some n ->
           nth_error ratio i = Some (Fin 0.0).
Proof.
  intros df tb dl Htb Hdl.
  unfold _create_ratio_features. cbv zeta.
  rewrite later_blocks_keep_dofollow_ratio.
  rewrite <- (image_optimization_ratio_keeps df "total_backlinks" eq_refl) in Htb.
  rewrite <- (image_optimization_ratio_keeps df "dofollow_links" eq_refl) in Hdl.
  unfold link_ratios.
  rewrite (has_both_link_columns _ tb dl Htb Hdl).
  unfold set_col. rewrite dict_get_set_same.
  eexists. split; [reflexivity|].
  intros i x n Hx Hzero Hn.
  unfold col. rewrite Htb, Hdl.
  unfold np_where, series_gt0, series_div.
  rewrite (nth_error_map2 _ _ _ i (fgt0 (Fin x)) (fdiv n (Fin x))).
  - simpl. unfold Qlt_bool.
    assert (Hle : Qle_bool x 0 = true) by (apply Qle_bool_iff; lra).
    now rewrite Hle.
  - now rewrite nth_error_map, Hx.
  - now apply nth_error_map2.
Qed.

Lemma dofollow_ratio_zero_when_no_backlinks_witness :
  exists ratio,
    dict_get String.eqb "dofollow_ratio"
      (_create_ratio_features
         [("dofollow_links", [Fin 3; Fin 0; Fin 5; NaN]);
          ("total_backlinks", [Fin 6; Fin 0; Fin 0; Fin 0])])
    = Some ratio
    /\ forall (i : nat) (x : Q) (n : npfloat),
         nth_error [Fin 6; Fin 0; Fin 0; Fin 0] i = Some (Fin x) -> x == 0 ->
         nth_error [Fin 3; Fin 0; Fin 5; NaN] i = Some n ->
         nth_error ratio i = Some (Fin 0.0).
Proof.
  apply (dofollow_ratio_zero_when_no_backlinks
           [("dofollow_links", [Fin 3; Fin 0; Fin 5; NaN]);
            ("total_backlinks", [Fin 6; Fin 0; Fin 0; Fin 0])]
           [Fin 6; Fin 0; Fin 0; Fin 0] [Fin 3; Fin 0; Fin 5; NaN]);
    reflexivity.
Defined.

End RatioFeatures.

Section FitTransform.
Import SEOFeatureEngineer.

Context {T : Toolkit}.
Hypothesis sklearn : sklearn_contract T.

(* The text stage in transform mode, on the vectorizer the fit left behind *)
Lemma text_features_round_trip (tfidf tfidf' : Tfidf) (df df' : Frame) :
  _create_text_features tfidf df true = Some (df', tfidf') ->
  _create_text_features tfidf' df false = Some (df', tfidf').
Proof.
  unfold _create_text_features.
  destruct (text_statistics df) as [[df1 text_features]|]; [|discriminate].
  destruct text_features as [|t rest]; [now intros [= <- <-]|].
  destruct (combined_text df1 (t :: rest)) as [combined|]; [|discriminate].
  destruct (tfidf_fit_transform tfidf combined) as [[fitted tfidf_matrix]|] eqn:E;
    [|discriminate].
  destruct sklearn as [_ Htfidf]. apply Htfidf in E.
  destruct (concat_tfidf df1 tfidf_matrix) as [df2|] eqn:Ec; [|discriminate].
  intros [= <- <-]. now rewrite E, Ec.
Qed.

(** C4.  On one pipeline instance, a fit-mode run of engineer_features that
    returns a frame is followed by a transform-mode run on the same input
    that returns the very same frame: same columns, same order, same cells.
    The scaler and the vectorizer are assumed to honour scikit-learn's
    fit_transform/transform contract. *)
Theorem engineer_features_fit_then_transform :
  forall (self self' : SEOFeatureEngineer) (df out : Frame),
    engineer_features self df true = Some (out, self') ->
    engineer_features self' df false = Some (out, self').
Proof.
  intros self self' df out. unfold engineer_features. cbv zeta.
  destruct (_create_basic_features df) as [df1|]; [|discriminate].
  set (df2 := if create_ratios self then _ else _).
  destruct (if create_interactions self then _ else _) as [df3|] eqn:E3;
    [|discriminate].
  destruct (if create_temporal self then _ else _) as [df4|] eqn:E4;
    [|discriminate].
  destruct (if create_text_features self then _ else _) as [[df5 tfidf]|] eqn:E5;
    [|discriminate].
  destruct (_create_composite_scores df5) as [df6|] eqn:E6; [|discriminate].
  destruct (_log_transform_features df6) as [df7|] eqn:E7; [|discriminate].
  destruct (_handle_missing_values df7) as [df8|] eqn:E8; [|discriminate].
  destruct (match scaler self with Some _ => _ | None => _ end)
    as [[df9 fitted]|] eqn:E9; [|discriminate].
  intros [= <- <-]. simpl.
  fold df2. rewrite E3, E4.
  assert (E5' : (if create_text_features self
                 then _create_text_features tfidf df4 false
                 else Some (df4, tfidf)) = Some (df5, tfidf)).
  { destruct (create_text_features self).
    - now apply text_features_round_trip in E5.
    - now injection E5 as <- <-. }
  rewrite E5', E6, E7, E8.
  destruct (scaler self) as [sc|].
  - destruct (scaler_fit_transform sc _) as [[sc' scaled]|] eqn:Es;
      [|discriminate].
    destruct sklearn as [Hscaler _]. apply Hscaler in Es.
    destruct (set_columns df8 _ scaled) as [df10|] eqn:Ec; [|discriminate].
    injection E9 as <- <-. now rewrite Es, Ec.
  - injection E9 as <- <-. reflexivity.
Qed.

End FitTransform.

Lemma sample_toolkit_contract : sklearn_contract sample_toolkit.
Proof.
  split.
  - intros sc X sc' Y. simpl. now intros [= <- <-].
  - intros v C v' M. simpl. now intros [= <- <-].
Qed.

Lemma engineer_features_fit_then_transform_witness :
  exists out self',
    SEOFeatureEngineer.engineer_features (T := sample_toolkit)
      (SEOFeatureEngineer.__init__ "standard" true true true true)
      [("dofollow_links", [SEOFeatureEngineer.Fin 3; SEOFeatureEngineer.Fin 0]);
       ("total_backlinks", [SEOFeatureEngineer.Fin 6; SEOFeatureEngineer.Fin 0])]
      true
    = Some (out, self')
    /\ SEOFeatureEngineer.engineer_features (T := sample_toolkit) self'
         [("dofollow_links", [SEOFeatureEngineer.Fin 3; SEOFeatureEngineer.Fin 0]);
          ("total_backlinks", [SEOFeatureEngineer.Fin 6; SEOFeatureEngineer.Fin 0])]
         false
       = Some (out, self').
Proof.
  eexists. eexists. split.
  - vm_compute. reflexivity.
  - apply (engineer_features_fit_then_transform sample_toolkit_contract
             (SEOFeatureEngineer.__init__ "standard" true true true true)).
    vm_compute. reflexivity.
Defined.

(** * Feature scoring: tiers, bounds and counts *)

Lemma catalog_score_bounds_witness :
  0.1 <= (1620000 # 1800000) <= 1 /\ 0.1 <= (500 # 1500) <= 1.
Proof.
  split.
  - apply (catalog_score_bounds "lcp_score" 1.2
             (FeatureScoreThresholds.mkSpec CORE_WEB_VITALS 0 2.5 0 1.8 2.0 true)
             EXCELLENT (1620000 # 1800000)).
    + reflexivity.
    + discriminate.
    + vm_compute. reflexivity.
  - apply (catalog_score_bounds "title_tag_length" 10
             (FeatureScoreThresholds.mkSpec ON_PAGE 30 70 50 60 1.5 false)
             POOR (500 # 1500)).
    + reflexivity.
    + intros _. unfold Qle. simpl. lia.
    + vm_compute. reflexivity.
Defined.

Section FeatureScoringMore.
Import FeatureScoreThresholds.

Ltac guards :=
  repeat match goal with
  | H : (_ && _)%bool = true |- _ => apply andb_true_iff in H; destruct H
  | H : (_ && _)%bool = false |- _ => apply andb_false_iff in H; destruct H
  | H : Qle_bool _ _ = true |- _ => apply Qle_bool_iff in H
  | H : Qle_bool _ _ = false |- _ => apply Qle_bool_false in H
  | H : Qlt_bool _ _ = true |- _ => apply Qlt_bool_true in H
  | H : Qlt_bool _ _ = false |- _ => apply Qlt_bool_false in H
  end.

Ltac quotient :=
  match goal with
  | |- context [py_div ?a ?b] =>
      let Hb := fresh "Hb" in
      assert (Hb : ~ b == 0) by (intros Hz; guards; lra);
      rewrite (py_div_some a b Hb);
      let r := fresh "r" in
      let Hr := fresh "Hr" in
      pose proof (Qmult_div_r a b Hb) as Hr;
      set (r := a / b) in *; clearbody r
  end.

Ltac floor :=
  unfold py_max;
  match goal with
  | |- context [Qlt_bool ?a ?b] => destruct (Qlt_bool a b) eqn:?
  end.

Ltac band := intros [= <- <-]; unfold tier_band; guards; split; nra.

(** X1.  Whatever the table and the value, the tier evaluate_feature returns
    and the score it returns agree: EXCELLENT comes with a score in
    [0.85, 1], GOOD with [0.7, 1], FAIR with [0.5, 0.7] (the bounds
    included), and POOR with a score of at least 0.1. *)
Theorem evaluate_feature_tier_matches_score :
  forall (thresholds : Thresholds) (name : string) (value : Q)
         (quality : DataQuality) (score : Q),
    evaluate_feature name value thresholds = Some (quality, score) ->
    tier_band quality score.
Proof.
  intros thresholds name value quality score. unfold evaluate_feature.
  destruct (dict_get String.eqb name thresholds) as [config|];
    [|intros [= <- <-]; unfold tier_band; lra].
  cbv zeta. destruct (inverse config).
  - destruct (Qle_bool value (min_excellent config)) eqn:G1;
      [intros [= <- <-]; unfold tier_band; lra|].
    destruct (Qle_bool value (max_excellent config)) eqn:G2;
      [quotient; band|].
    destruct (Qle_bool value (min_good config)) eqn:G3; [quotient; band|].
    destruct (Qle_bool value (max_good config)) eqn:G4; [quotient; band|].
    destruct (py_div _ _) as [r|]; [|discriminate].
    intros [= <- <-]. unfold tier_band. floor; guards; lra.
  - destruct (Qle_bool (min_excellent config) value
              && Qle_bool value (max_excellent config))%bool eqn:G1;
      [intros [= <- <-]; unfold tier_band; lra|].
    destruct (Qle_bool (min_good config) value
              && Qle_bool value (max_good config))%bool eqn:G2.
    + destruct (Qlt_bool value (min_excellent config)) eqn:G3; quotient; band.
    + destruct (Qle_bool (min_good config * 0.5) value
                && Qlt_bool value (min_good config))%bool eqn:G3;
        [quotient; band|].
      destruct (if Qlt_bool 0 (min_good config) then _ else _) as [x|];
        [|discriminate].
      intros [= <- <-]. unfold tier_band. floor; guards; lra.
Qed.

Lemma evaluate_feature_tier_matches_score_witness :
  tier_band GOOD (109500000 # 150000000).
Proof.
  apply (evaluate_feature_tier_matches_score get_all_thresholds
           "traffic_growth_7d" (-0.07)).
  vm_compute. reflexivity.
Defined.

Lemma catalog_excellent_band :
  forallb (fun kv => excellent_band_ok (snd kv)) get_all_thresholds = true.
Proof. vm_compute. reflexivity. Qed.

Lemma catalog_positive_weight :
  forallb (fun kv => positive_weight (snd kv)) get_all_thresholds = true.
Proof. vm_compute. reflexivity. Qed.

Lemma catalog_entry_check (check : ThresholdSpec -> bool) (name : string)
    (config : ThresholdSpec) :
  forallb (fun kv => check (snd kv)) get_all_thresholds = true ->
  dict_get String.eqb name get_all_thresholds = Some config ->
  check config = true.
Proof.
  intros Hall Hget. apply dict_get_In in Hget as [k Hin].
  rewrite forallb_forall in Hall. exact (Hall (k, config) Hin).
Qed.

(** X3.  For every entry of the shipped catalog, the value min_excellent
    itself is scored (EXCELLENT, 1.0), for lower-is-better and for
    higher-is-better features alike. *)
Theorem evaluate_feature_at_min_excellent :
  forall (name : string) (config : ThresholdSpec),
    dict_get String.eqb name get_all_thresholds = Some config ->
    evaluate_feature name (min_excellent config) get_all_thresholds
    = Some (EXCELLENT, 1.0).
Proof.
  intros name config Hget.
  pose proof (catalog_entry_check excellent_band_ok name config
                catalog_excellent_band Hget) as Hband.
  unfold evaluate_feature. rewrite Hget. cbv zeta.
  unfold excellent_band_ok in Hband.
  destruct (inverse config); simpl in Hband.
  - assert (E : Qle_bool (min_excellent config) (min_excellent config) = true)
      by (apply Qle_bool_iff; lra).
    now rewrite E.
  - assert (E : Qle_bool (min_excellent config) (min_excellent config) = true)
      by (apply Qle_bool_iff; lra).
    now rewrite E, Hband.
Qed.

Lemma evaluate_feature_at_min_excellent_witness :
  evaluate_feature "page_load_time_ms" 500 get_all_thresholds
  = Some (EXCELLENT, 1.0).
Proof.
  apply (evaluate_feature_at_min_excellent "page_load_time_ms"
           (mkSpec TECHNICAL 500 3000 500 1500 1.7 true)).
  reflexivity.
Defined.

End FeatureScoringMore.

Section OverallQuality.
Import FeatureScoreThresholds.

(* The weighted sum stays between 0.1 and 1 times the total weight *)
Lemma quality_loop_weighted_mean (thresholds : Thresholds)
    (items : list (string * Q)) :
  (forall name config, dict_get String.eqb name thresholds = Some config ->
                       0 < weight config) ->
  (forall name value quality score,
      In (name, value) items ->
      evaluate_feature name value thresholds = Some (quality, score) ->
      0.1 <= score <= 1) ->
  forall acc acc',
    quality_loop thresholds items acc = Some acc' ->
    0 <= total_weight acc ->
    0.1 * total_weight acc <= weighted_sum acc <= total_weight acc ->
    0.1 * total_weight acc' <= weighted_sum acc' <= total_weight acc'
    /\ total_weight acc <= total_weight acc'
    /\ (known_features thresholds items <> [] ->
        total_weight acc < total_weight acc').
Proof.
  intros Hweight.
  induction items as [|[name value] rest IH]; intros Hscore acc acc'.
  - simpl. intros [= <-] Hpos Hmean. repeat split; try lra.
    intros H. now contradiction H.
  - cbn [quality_loop]. unfold known_features, dict_mem. cbn [filter fst].
    destruct (dict_get String.eqb name thresholds) as [config|] eqn:E.
    + destruct (evaluate_feature name value thresholds)
        as [[quality score]|] eqn:Ev; [|discriminate].
      intros Hloop Hpos Hmean.
      pose proof (Hweight name config E) as Hw.
      pose proof (Hscore name value quality score (or_introl eq_refl) Ev) as Hs.
      destruct (IH (fun n v q s Hin => Hscore n v q s (or_intror Hin))
                  _ _ Hloop) as (Hm & Hle & _); simpl.
      * lra.
      * split; nra.
      * simpl in Hle. repeat split; try lra.
    + intros Hloop Hpos Hmean.
      apply (IH (fun n v q s Hin => Hscore n v q s (or_intror Hin))
               _ _ Hloop Hpos Hmean).
Qed.

(** X4.  With the shipped catalog, a record whose values all lie in the
    scored range (any value of a lower-is-better feature, a value up to
    max_good of a higher-is-better one) gets an overall score between 0 and
    100, and a score above 0 as soon as one of its features is in the
    catalog. *)
Theorem overall_score_between_0_and_100 :
  forall (features : list (string * Q)),
    (forall name value, In (name, value) features ->
                        in_scored_range get_all_thresholds name value) ->
    exists report,
      calculate_overall_quality features get_all_thresholds = Some report
      /\ 0 <= overall_score report <= 100
      /\ (known_features get_all_thresholds features <> [] ->
          0 < overall_score report).
Proof.
  intros features Hrange. unfold calculate_overall_quality.
  destruct (quality_loop_returns get_all_thresholds features catalog_entry_safe
              (mkAcc [] [] 0.0 0.0)) as [acc Hloop].
  rewrite Hloop. eexists. split; [reflexivity|]. cbn [overall_score].
  destruct (quality_loop_weighted_mean get_all_thresholds features)
    with (acc := mkAcc [] [] 0.0 0.0) (acc' := acc)
    as (Hmean & Hle & Hgrow); simpl; try lra; try exact Hloop.
  - intros name config Hget. apply Qlt_bool_true.
    apply (catalog_entry_check positive_weight name config
             catalog_positive_weight Hget).
  - intros name value quality score Hin Hev.
    destruct (dict_get String.eqb name get_all_thresholds) as [config|] eqn:E.
    + apply (evaluate_feature_score_bounds get_all_thresholds name value
               config quality score E); [| |exact Hev].
      * intros Hinv. apply Qlt_bool_true.
        pose proof (catalog_entry_check positive_ceiling name config
                      catalog_positive_ceiling E) as Hc.
        unfold positive_ceiling in Hc. now rewrite Hinv in Hc.
      * intros Hinv. exact (Hrange name value Hin config E Hinv).
    + unfold evaluate_feature in Hev. rewrite E in Hev.
      injection Hev as <- <-. lra.
  - simpl in Hle.
    destruct (Qlt_bool 0 (total_weight acc)) eqn:Epos.
    + apply Qlt_bool_true in Epos.
      assert (Hnz : ~ total_weight acc == 0) by lra.
      pose proof (Qmult_div_r (weighted_sum acc) (total_weight acc) Hnz) as Hq.
      set (q := weighted_sum acc / total_weight acc) in *. clearbody q.
      split; [split; nra|]. intros _. nra.
    + apply Qlt_bool_false in Epos. split; [lra|].
      intros Hknown. specialize (Hgrow Hknown). simpl in Hgrow. lra.
Qed.

Lemma overall_score_between_0_and_100_witness :
  exists report,
    calculate_overall_quality
      [("title_tag_length", 55); ("lcp_score", 9); ("favicon_hue", 7)]
      get_all_thresholds = Some report
    /\ 0 <= overall_score report <= 100
    /\ (known_features get_all_thresholds
          [("title_tag_length", 55); ("lcp_score", 9); ("favicon_hue", 7)] <> [] ->
        0 < overall_score report).
Proof.
  apply (overall_score_between_0_and_100
           [("title_tag_length", 55); ("lcp_score", 9); ("favicon_hue", 7)]).
  intros name value [H|[H|[H|[]]]]; injection H as <- <-;
    intros config; vm_compute; intros [= <-]; try discriminate;
    intros _; discriminate.
Defined.

End OverallQuality.

Section QualityCounts.
Import FeatureScoreThresholds.

Lemma dict_set_new_key {V : Type} (k : string) (v : V) (d : list (string * V)) :
  ~ In k (map fst d) -> map fst (dict_set String.eqb k v d) = map fst d ++ [k].
Proof.
  induction d as [|[k' v'] d IH]; intros Hnew; simpl; [reflexivity|].
  destruct (String.eqb k k') eqn:E.
  - apply String.eqb_eq in E. subst. contradiction Hnew. now left.
  - simpl. f_equal. apply IH. intros Hin. apply Hnew. now right.
Qed.

Lemma quality_loop_keys (thresholds : Thresholds) (items : list (string * Q)) :
  forall acc acc',
    NoDup (map fst items) ->
    (forall k, In k (map fst items) ->
               ~ In k (map fst (acc_feature_scores acc))) ->
    quality_loop thresholds items acc = Some acc' ->
    map fst (acc_feature_scores acc')
    = map fst (acc_feature_scores acc)
      ++ map fst (known_features thresholds items).
Proof.
  induction items as [|[name value] rest IH]; intros acc acc' Hnodup Hfresh.
  - simpl. intros [= <-]. now rewrite app_nil_r.
  - cbn [quality_loop]. unfold known_features, dict_mem. cbn [filter fst].
    inversion Hnodup as [|? ? Hname Hrest]; subst.
    destruct (dict_get String.eqb name thresholds) as [config|] eqn:E.
    + destruct (evaluate_feature name value thresholds)
        as [[quality score]|]; [|discriminate].
      intros Hloop. apply IH in Hloop; [|exact Hrest|].
      * rewrite Hloop. simpl.
        rewrite dict_set_new_key by (apply Hfresh; now left).
        now rewrite <- app_assoc.
      * intros k Hk. simpl.
        rewrite dict_set_new_key by (apply Hfresh; now left).
        intros Hin. apply in_app_or in Hin as [Hin|[<-|[]]].
        -- apply (Hfresh k); [now right | exact Hin].
        -- contradiction.
    + intros Hloop. apply IH in Hloop; [exact Hloop | exact Hrest|].
      intros k Hk. apply Hfresh. now right.
Qed.

Lemma disjoint_counts {A : Type} (p1 p2 : A -> bool) (l : list A) :
  (forall x, p1 x = true -> p2 x = false) ->
  (length (filter p1 l) + length (filter p2 l) <= length l)%nat.
Proof.
  intros Hdisj. induction l as [|x l IH]; simpl; [lia|].
  destruct (p1 x) eqn:E1.
  - rewrite (Hdisj x E1). simpl. lia.
  - destruct (p2 x); simpl; lia.
Qed.

(** X5.  For a record with distinct feature names, the report of
    calculate_overall_quality holds one feature_scores entry per feature
    that is in the threshold table, in record order; total_features is their
    number, and good_features and poor_features together never exceed it. *)
Theorem quality_report_counts :
  forall (thresholds : Thresholds) (features : list (string * Q))
         (report : QualityReport),
    NoDup (map fst features) ->
    calculate_overall_quality features thresholds = Some report ->
    map fst (feature_scores report)
    = map fst (known_features thresholds features)
    /\ total_features report = length (known_features thresholds features)
    /\ (good_features report + poor_features report
        <= total_features report)%nat.
Proof.
  intros thresholds features report Hnodup. unfold calculate_overall_quality.
  destruct (quality_loop thresholds features (mkAcc [] [] 0.0 0.0))
    as [acc|] eqn:Hloop; [|discriminate].
  intros [= <-]. cbn [feature_scores total_features good_features poor_features].
  apply quality_loop_keys in Hloop; [|exact Hnodup|intros k _ []].
  simpl in Hloop. split; [exact Hloop|]. split.
  - rewrite <- (length_map fst (acc_feature_scores acc)), Hloop.
    apply length_map.
  - unfold count_quality, dict_values.
    rewrite <- (length_map snd (acc_feature_scores acc)).
    apply disjoint_counts.
    intros [[] s]; simpl; intros H; try discriminate; reflexivity.
Qed.

Lemma quality_report_counts_witness :
  exists report,
    calculate_overall_quality
      [("h1_count", 3); ("favicon_hue", 7); ("lcp_score", 1.2)]
      get_all_thresholds = Some report
    /\ map fst (feature_scores report) = ["h1_count"; "lcp_score"]
    /\ total_features report = 2%nat
    /\ (good_features report + poor_features report
        <= total_features report)%nat.
Proof.
  eexists. split; [vm_compute; reflexivity|].
  apply (quality_report_counts get_all_thresholds
           [("h1_count", 3); ("favicon_hue", 7); ("lcp_score", 1.2)]).
  - repeat constructor; simpl; intuition discriminate.
  - vm_compute. reflexivity.
Defined.

End QualityCounts.

Section ScoreMonotone.
Import FeatureScoreThresholds.

Ltac guards :=
  repeat match goal with
  | H : (_ && _)%bool = true |- _ => apply andb_true_iff in H; destruct H
  | H : (_ && _)%bool = false |- _ => apply andb_false_iff in H; destruct H
  | H : Qle_bool _ _ = true |- _ => apply Qle_bool_iff in H
  | H : Qle_bool _ _ = false |- _ => apply Qle_bool_false in H
  | H : Qlt_bool _ _ = true |- _ => apply Qlt_bool_true in H
  | H : Qlt_bool _ _ = false |- _ => apply Qlt_bool_false in H
  end.

Ltac quotient :=
  match goal with
  | |- context [py_div ?a ?b] =>
      let Hb := fresh "Hb" in
      assert (Hb : ~ b == 0) by (intros Hz; guards; lra);
      rewrite (py_div_some a b Hb);
      let r := fresh "r" in
      let Hr := fresh "Hr" in
      pose proof (Qmult_div_r a b Hb) as Hr;
      set (r := a / b) in *; clearbody r
  end.

Ltac floors :=
  unfold py_max;
  repeat match goal with
  | |- context [Qlt_bool ?a ?b] => destruct (Qlt_bool a b) eqn:?
  end.

(* What the guards say about each quotient on its own *)
Ltac bounds :=
  repeat match goal with
  | H : _ * ?r == _ |- _ =>
      lazymatch goal with
      | _ : 0 <= r |- _ => fail
      | _ => assert (0 <= r) by nra
      end
  | H : _ * ?r == _ |- _ =>
      lazymatch goal with
      | _ : r <= 1 |- _ => fail
      | _ => assert (r <= 1) by nra
      end
  end.

(* Run the branches of a lower-is-better entry for the value v *)
Ltac lower_branches config v :=
  destruct (Qle_bool v (min_excellent config)) eqn:?;
  [|destruct (Qle_bool v (max_excellent config)) eqn:?;
    [quotient|destruct (Qle_bool v (min_good config)) eqn:?;
      [quotient|destruct (Qle_bool v (max_good config)) eqn:?;
        [quotient|quotient]]]];
  intros [= <- <-].

Lemma lower_is_better_monotone (config : ThresholdSpec) (thresholds : Thresholds)
    (name : string) (v1 v2 : Q) (q1 q2 : DataQuality) (s1 s2 : Q) :
  dict_get String.eqb name thresholds = Some config ->
  inverse config = true ->
  0 < max_good config ->
  v1 <= v2 ->
  evaluate_feature name v1 thresholds = Some (q1, s1) ->
  evaluate_feature name v2 thresholds = Some (q2, s2) ->
  s2 <= s1.
Proof.
  intros Hget Hinv Hpos Hle. unfold evaluate_feature.
  rewrite Hget, Hinv. cbv zeta.
  lower_branches config v1; lower_branches config v2;
    floors; guards; try lra; bounds; try lra; nra.
Qed.

(* Run the branches of a higher-is-better entry for the value v, once the
   test min_good > 0 of the last branch is decided; last_branch is what that
   branch still needs *)
Ltac higher_branches config v last_branch :=
  destruct (Qle_bool (min_excellent config) v
            && Qle_bool v (max_excellent config))%bool eqn:?;
  [|destruct (Qle_bool (min_good config) v
              && Qle_bool v (max_good config))%bool eqn:?;
    [destruct (Qlt_bool v (min_excellent config)) eqn:?; quotient
    |destruct (Qle_bool (min_good config * 0.5) v
               && Qlt_bool v (min_good config))%bool eqn:?;
      [quotient|last_branch]]];
  cbv beta iota; intros [= <- <-].

Lemma higher_is_better_monotone (config : ThresholdSpec) (thresholds : Thresholds)
    (name : string) (v1 v2 : Q) (q1 q2 : DataQuality) (s1 s2 : Q) :
  dict_get String.eqb name thresholds = Some config ->
  inverse config = false ->
  min_good config <= min_excellent config ->
  min_excellent config <= max_excellent config ->
  max_excellent config <= max_good config ->
  v1 <= v2 ->
  v2 <= max_excellent config ->
  evaluate_feature name v1 thresholds = Some (q1, s1) ->
  evaluate_feature name v2 thresholds = Some (q2, s2) ->
  s1 <= s2.
Proof.
  intros Hget Hinv H1 H2 H3 Hle Hmax. unfold evaluate_feature.
  rewrite Hget, Hinv. cbv zeta.
  destruct (Qlt_bool 0 (min_good config)) eqn:Hmg.
  - higher_branches config v1 ltac:(idtac; quotient);
      higher_branches config v2 ltac:(idtac; quotient);
      floors; guards; try lra; bounds; try lra; nra.
  - higher_branches config v1 ltac:(idtac);
      higher_branches config v2 ltac:(idtac);
      floors; guards; try lra; bounds; try lra; nra.
Qed.

Lemma catalog_nested_bounds :
  forallb (fun kv => nested_bounds (snd kv)) get_all_thresholds = true.
Proof. vm_compute. reflexivity. Qed.

(** X6.  For a lower-is-better feature of the shipped catalog the score
    never increases with the value: of two values, the larger one gets a
    score that is no higher. *)
Theorem lower_is_better_score_decreases :
  forall (name : string) (config : ThresholdSpec) (v1 v2 : Q)
         (q1 q2 : DataQuality) (s1 s2 : Q),
    dict_get String.eqb name get_all_thresholds = Some config ->
    inverse config = true ->
    v1 <= v2 ->
    evaluate_feature name v1 get_all_thresholds = Some (q1, s1) ->
    evaluate_feature name v2 get_all_thresholds = Some (q2, s2) ->
    s2 <= s1.
Proof.
  intros name config v1 v2 q1 q2 s1 s2 Hget Hinv.
  apply (lower_is_better_monotone config); auto.
  apply Qlt_bool_true.
  pose proof (catalog_entry_check positive_ceiling name config
                catalog_positive_ceiling Hget) as Hc.
  unfold positive_ceiling in Hc. now rewrite Hinv in Hc.
Qed.

Lemma lower_is_better_score_decreases_witness :
  (1350 # 2500) <= (1620000 # 1800000).
Proof.
  apply (lower_is_better_score_decreases "lcp_score"
           (mkSpec CORE_WEB_VITALS 0 2.5 0 1.8 2.0 true) 1.2 2
           EXCELLENT FAIR (1620000 # 1800000) (1350 # 2500)).
  - reflexivity.
  - reflexivity.
  - unfold Qle. simpl. lia.
  - vm_compute. reflexivity.
  - vm_compute. reflexivity.
Defined.

(** X7.  For a higher-is-better feature of the shipped catalog the score
    never decreases with the value as long as the value stays at or below
    max_excellent. *)
Theorem higher_is_better_score_increases :
  forall (name : string) (config : ThresholdSpec) (v1 v2 : Q)
         (q1 q2 : DataQuality) (s1 s2 : Q),
    dict_get String.eqb name get_all_thresholds = Some config ->
    inverse config = false ->
    v1 <= v2 ->
    v2 <= max_excellent config ->
    evaluate_feature name v1 get_all_thresholds = Some (q1, s1) ->
    evaluate_feature name v2 get_all_thresholds = Some (q2, s2) ->
    s1 <= s2.
Proof.
  intros name config v1 v2 q1 q2 s1 s2 Hget Hinv.
  pose proof (catalog_entry_check nested_bounds name config
                catalog_nested_bounds Hget) as Hn.
  unfold nested_bounds in Hn. rewrite Hinv in Hn. simpl in Hn.
  apply andb_true_iff in Hn as [Hn H3]. apply andb_true_iff in Hn as [H1 H2].
  apply Qle_bool_iff in H1, H2, H3.
  apply (higher_is_better_monotone config); auto.
Qed.

Lemma higher_is_better_score_increases_witness :
  (500 # 1500) <= (85000 # 150000).
Proof.
  apply (higher_is_better_score_increases "title_tag_length"
           (mkSpec ON_PAGE 30 70 50 60 1.5 false) 10 20
           POOR FAIR (500 # 1500) (85000 # 150000)).
  - reflexivity.
  - reflexivity.
  - unfold Qle. simpl. lia.
  - unfold Qle. simpl. lia.
  - vm_compute. reflexivity.
  - vm_compute. reflexivity.
Defined.

End ScoreMonotone.

(** * Ratio features: columns kept, defaults, ceiling *)

Section RatioFeaturesMore.
Import SEOFeatureEngineer.

Lemma dict_set_keys {V : Type} (k : string) (v : V) (d : list (string * V)) :
  map fst (dict_set String.eqb k v d) = map fst d
  \/ map fst (dict_set String.eqb k v d) = map fst d ++ [k].
Proof.
  induction d as [|[k' v'] d IH]; simpl; [now right|].
  destruct (String.eqb k k') eqn:E.
  - apply String.eqb_eq in E. subst. now left.
  - simpl. destruct IH as [-> | ->]; [now left | now right].
Qed.

Lemma extends_by_refl (names : list string) (df : DataFrame) :
  extends_by names df df.
Proof.
  split; [reflexivity|]. exists []. split; [now rewrite app_nil_r|].
  intros x [].
Qed.

Lemma extends_by_trans (names : list string) (df1 df2 df3 : DataFrame) :
  extends_by names df1 df2 -> extends_by names df2 df3 ->
  extends_by names df1 df3.
Proof.
  intros [H1 (a1 & E1 & I1)] [H2 (a2 & E2 & I2)]. split.
  - intros name Hn. now rewrite H2, H1.
  - exists (a1 ++ a2). split.
    + now rewrite E2, E1, app_assoc.
    + now apply incl_app.
Qed.

Lemma extends_by_weaken (names names' : list string) (df df' : DataFrame) :
  incl names names' -> extends_by names df df' -> extends_by names' df df'.
Proof.
  intros Hincl [H (a & E & I)]. split.
  - intros name Hn. apply H. intros Hin. apply Hn, Hincl, Hin.
  - exists a. split; [exact E|]. intros x Hx. apply Hincl, I, Hx.
Qed.

Lemma extends_by_set_col (names : list string) (name : string) (values : Series)
    (df : DataFrame) :
  In name names -> extends_by names df (set_col name values df).
Proof.
  intros Hin. split.
  - intros other Hother. unfold set_col. apply dict_get_set_other.
    apply String.eqb_neq. intros ->. contradiction.
  - unfold set_col. destruct (dict_set_keys name values df) as [-> | ->].
    + exists []. split; [now rewrite app_nil_r | intros x []].
    + exists [name]. split; [reflexivity|]. intros x [<-|[]]. exact Hin.
Qed.

Lemma extends_by_mem (names : list string) (df df' : DataFrame)
    (cols : list string) :
  extends_by names df df' ->
  (forall c, In c cols -> ~ In c names) ->
  has_columns df' cols = has_columns df cols.
Proof.
  intros [H _] Hout. unfold has_columns.
  induction cols as [|c cols IH]; [reflexivity|]. simpl.
  rewrite IH by (intros c' Hc'; apply Hout; now right).
  unfold dict_mem. now rewrite (H c (Hout c (or_introl eq_refl))).
Qed.

Ltac assigned :=
  repeat first
    [ apply extends_by_refl
    | eapply extends_by_trans;
      [|apply extends_by_set_col; simpl;
        repeat first [left; reflexivity | right]] ].

Ltac block_extends :=
  match goal with
  | |- extends_by _ _ (if ?c then _ else _) => destruct c
  end; cbv zeta; unfold anchor_cols; cbn [fold_left fst snd]; assigned.

Lemma image_optimization_ratio_extends (df : DataFrame) :
  extends_by ["image_alt_ratio"] df (image_optimization_ratio df).
Proof. unfold image_optimization_ratio. block_extends. Qed.

Lemma link_ratios_extends (df : DataFrame) :
  extends_by ["dofollow_ratio"] df (link_ratios df).
Proof. unfold link_ratios. block_extends. Qed.

Lemma authority_distribution_extends (df : DataFrame) :
  extends_by ["high_authority_ratio"; "authority_concentration"] df
    (authority_distribution df).
Proof. unfold authority_distribution. block_extends. Qed.

Lemma anchor_text_diversity_extends (df : DataFrame) :
  extends_by (map snd anchor_cols) df (anchor_text_diversity df).
Proof. unfold anchor_text_diversity. block_extends. Qed.

Lemma content_to_code_ratio_extends (df : DataFrame) :
  extends_by ["content_to_code_ratio"] df (content_to_code_ratio df).
Proof. unfold content_to_code_ratio. block_extends. Qed.

Lemma engagement_efficiency_extends (df : DataFrame) :
  extends_by ["engagement_efficiency"] df (engagement_efficiency df).
Proof. unfold engagement_efficiency. block_extends. Qed.

Lemma incl_decide (l l' : list string) :
  forallb (fun x => existsb (String.eqb x) l') l = true -> incl l l'.
Proof.
  intros H x Hx. rewrite forallb_forall in H. specialize (H x Hx).
  apply existsb_exists in H as (y & Hy & E). apply String.eqb_eq in E.
  now subst.
Qed.

Lemma not_in_decide (x : string) (l : list string) :
  existsb (String.eqb x) l = false -> ~ In x l.
Proof.
  intros H Hin. apply not_true_iff_false in H. apply H.
  apply existsb_exists. exists x. split; [exact Hin | apply String.eqb_refl].
Qed.

(* Chains the blocks' frames: each block extends its input by names of
   [names] *)
Ltac blocks names :=
  repeat match goal with
         | |- extends_by _ ?d ?d => apply extends_by_refl
         | |- extends_by _ _ (?block ?d) =>
             eapply extends_by_trans;
             [|eapply extends_by_weaken with (names' := names);
               [|first [ apply image_optimization_ratio_extends
                       | apply link_ratios_extends
                       | apply authority_distribution_extends
                       | apply anchor_text_diversity_extends
                       | apply content_to_code_ratio_extends
                       | apply engagement_efficiency_extends ]];
               apply incl_decide; reflexivity]
         end.

(** X8.  _create_ratio_features never drops, reorders or rewrites an input
    column: every column other than the ten derived ratio columns keeps its
    cells, and the column list of the result is the input's column list
    followed by derived names only. *)
Theorem create_ratio_features_keeps_columns :
  forall (df : DataFrame),
    (forall name, ~ In name derived_ratio_columns ->
                  dict_get String.eqb name (_create_ratio_features df)
                  = dict_get String.eqb name df)
    /\ exists added,
         map fst (_create_ratio_features df) = map fst df ++ added
         /\ incl added derived_ratio_columns.
Proof.
  intros df.
  change (extends_by derived_ratio_columns df (_create_ratio_features df)).
  unfold _create_ratio_features. cbv zeta.
  blocks derived_ratio_columns.
Qed.

Lemma has_columns_missing (df : DataFrame) (cols : list string) (name : string) :
  In name cols -> dict_mem String.eqb name df = false ->
  has_columns df cols = false.
Proof.
  intros Hin Hmiss. unfold has_columns.
  apply not_true_is_false. intros Hall.
  rewrite forallb_forall in Hall. specialize (Hall name Hin). congruence.
Qed.

(** X9.  A frame that has none of the columns image_count, total_backlinks,
    generic_anchors, css_size and bounce_rate passes through
    _create_ratio_features unchanged: every block is skipped. *)
Theorem create_ratio_features_skips_missing_sources :
  forall (df : DataFrame),
    (forall name, In name ratio_trigger_columns ->
                  dict_mem String.eqb name df = false) ->
    _create_ratio_features df = df.
Proof.
  intros df Hmiss. unfold _create_ratio_features. cbv zeta.
  unfold image_optimization_ratio.
  rewrite (has_columns_missing df _ "image_count")
    by (simpl; auto; apply Hmiss; simpl; tauto).
  unfold link_ratios.
  rewrite (has_columns_missing df _ "total_backlinks")
    by (simpl; auto; apply Hmiss; simpl; tauto).
  unfold authority_distribution.
  rewrite (has_columns_missing df _ "total_backlinks")
    by (simpl; auto 6; apply Hmiss; simpl; tauto).
  unfold anchor_text_diversity.
  rewrite (has_columns_missing df _ "generic_anchors")
    by (simpl; auto 6; apply Hmiss; simpl; tauto).
  unfold content_to_code_ratio.
  rewrite (has_columns_missing df _ "css_size")
    by (simpl; auto 6; apply Hmiss; simpl; tauto).
  unfold engagement_efficiency.
  rewrite (has_columns_missing df _ "bounce_rate")
    by (simpl; auto 6; apply Hmiss; simpl; tauto).
  reflexivity.
Qed.

Lemma create_ratio_features_skips_missing_sources_witness :
  _create_ratio_features
    [("dofollow_links", [Fin 3; NaN]); ("page_size", [Fin 10; Fin 20])]
  = [("dofollow_links", [Fin 3; NaN]); ("page_size", [Fin 10; Fin 20])].
Proof.
  apply create_ratio_features_skips_missing_sources.
  intros name [<-|[<-|[<-|[<-|[<-|[]]]]]]; reflexivity.
Defined.

Lemma replace_inf_finite (v : npfloat) (s : Series) :
  v <> PInf -> ~ In PInf (replace_inf v s).
Proof.
  intros Hv Hin. unfold replace_inf in Hin. apply in_map_iff in Hin.
  destruct Hin as ([] & E & _); congruence.
Qed.

(** X10.  When the frame has the columns content_length, javascript_size and
    css_size, the content_to_code_ratio column of the result holds no
    positive infinity, whatever the cells are: pages without code get the
    ceiling 100 in place of the infinite ratio. *)
Theorem content_to_code_ratio_never_infinite :
  forall (df : DataFrame),
    has_columns df ["content_length"; "javascript_size"; "css_size"] = true ->
    exists ratios,
      dict_get String.eqb "content_to_code_ratio" (_create_ratio_features df)
      = Some ratios
      /\ ~ In PInf ratios.
Proof.
  intros df Hcols. unfold _create_ratio_features. cbv zeta.
  set (df4 := anchor_text_diversity _).
  assert (H4 : extends_by derived_ratio_columns df df4)
    by (unfold df4; blocks derived_ratio_columns).
  destruct (engagement_efficiency_extends (content_to_code_ratio df4))
    as [Hkeep _].
  rewrite Hkeep by (apply not_in_decide; reflexivity).
  unfold content_to_code_ratio.
  rewrite (extends_by_mem _ _ _ _ H4), Hcols.
  - cbv zeta. unfold set_col. rewrite dict_get_set_same.
    eexists. split; [reflexivity|]. apply replace_inf_finite. discriminate.
  - intros c [<-|[<-|[<-|[]]]]; apply not_in_decide; reflexivity.
Qed.

Lemma content_to_code_ratio_never_infinite_witness :
  exists ratios,
    dict_get String.eqb "content_to_code_ratio"
      (_create_ratio_features
         [("content_length", [Fin 1200; Fin 300]);
          ("javascript_size", [Fin 0; Fin 100]);
          ("css_size", [Fin 0; Fin 50])])
    = Some ratios
    /\ ~ In PInf ratios.
Proof.
  apply content_to_code_ratio_never_infinite. reflexivity.
Defined.

(** X11.  On a row whose image_count and images_with_alt_text are finite,
    image_alt_ratio is the quotient when image_count is positive and 1.0
    otherwise: a page without images counts as fully covered, and so does a
    page with a negative count. *)
Theorem image_alt_ratio_rows :
  forall (df : DataFrame) (counts alts : Series) (i : nat) (count alt : Q),
    dict_get String.eqb "image_count" df = Some counts ->
    dict_get String.eqb "images_with_alt_text" df = Some alts ->
    nth_error counts i = Some (Fin count) ->
    nth_error alts i = Some (Fin alt) ->
    exists ratios,
      dict_get String.eqb "image_alt_ratio" (_create_ratio_features df)
      = Some ratios
      /\ nth_error ratios i
         = Some (Fin (if Qlt_bool 0 count then alt / count else 1.0)).
Proof.
  intros df counts alts i count alt Hcounts Halts Hcount Halt.
  unfold _create_ratio_features. cbv zeta.
  set (df1 := image_optimization_ratio df).
  assert (Hlater : extends_by (skipn 1 derived_ratio_columns) df1
                     (engagement_efficiency
                        (content_to_code_ratio
                           (anchor_text_diversity
                              (authority_distribution (link_ratios df1))))))
    by blocks (skipn 1 derived_ratio_columns).
  destruct Hlater as [Hkeep _].
  rewrite Hkeep by (apply not_in_decide; reflexivity).
  unfold df1, image_optimization_ratio, has_columns. simpl forallb.
  unfold dict_mem. rewrite Hcounts, Halts. simpl.
  unfold set_col. rewrite dict_get_set_same.
  eexists. split; [reflexivity|].
  unfold np_where, series_gt0, series_div, col. rewrite Hcounts, Halts.
  rewrite (nth_error_map2 _ _ _ i (fgt0 (Fin count)) (fdiv (Fin alt) (Fin count))).
  - simpl. destruct (Qlt_bool 0 count) eqn:Hpos; [|reflexivity].
    apply Qlt_bool_true in Hpos.
    destruct (Qeq_bool count 0) eqn:Hz; [|reflexivity].
    apply Qeq_bool_iff in Hz. lra.
  - now rewrite nth_error_map, Hcount.
  - now apply nth_error_map2.
Qed.

Lemma image_alt_ratio_rows_witness :
  exists ratios,
    dict_get String.eqb "image_alt_ratio"
      (_create_ratio_features
         [("image_count", [Fin 4; Fin 0]);
          ("images_with_alt_text", [Fin 3; Fin 0])])
    = Some ratios
    /\ nth_error ratios 1 = Some (Fin (if Qlt_bool 0 0 then 0 / 0 else 1.0)).
Proof.
  apply (image_alt_ratio_rows _ [Fin 4; Fin 0] [Fin 3; Fin 0]); reflexivity.
Defined.

End RatioFeaturesMore.

(** * NDCG and MAP: extreme values *)

Section SortedLists.
Context {A : Type} (R : A -> A -> Prop).
Hypothesis R_antisym : forall a b, R a b -> R b a -> a = b.

(* A list has one sorted arrangement *)
Lemma sorted_perm_unique (l1 : list A) :
  forall l2, StronglySorted R l1 -> StronglySorted R l2 ->
             Permutation l1 l2 -> l1 = l2.
Proof.
  induction l1 as [|x t IH]; intros l2 S1 S2 P.
  - apply Permutation_nil in P. now subst.
  - destruct l2 as [|y t2].
    + apply Permutation_sym, Permutation_nil in P. discriminate.
    + apply StronglySorted_inv in S1 as [S1 F1].
      apply StronglySorted_inv in S2 as [S2 F2].
      rewrite Forall_forall in F1, F2.
      assert (E : x = y).
      { assert (Hx : In x (y :: t2))
          by (eapply Permutation_in; [exact P | now left]).
        assert (Hy : In y (x :: t))
          by (eapply Permutation_in;
              [apply Permutation_sym; exact P | now left]).
        destruct Hx as [->|Hx]; [reflexivity|].
        destruct Hy as [->|Hy]; [reflexivity|].
        apply R_antisym; [apply F1, Hy | apply F2, Hx]. }
      subst y. f_equal. apply IH; auto.
      now apply Permutation_cons_inv in P.
Qed.
End SortedLists.

Section NdcgMore.
Import SEORankingPredictor.
Open Scope R_scope.

(* The two sums _calculate_ndcg_at_k divides *)
Lemma ndcg_at_k_as_sums (y_true : list Z) (y_pred : list Q) (k : nat) :
  length y_pred = length y_true ->
  Forall int64_gain_label y_true ->
  _calculate_ndcg_at_k y_true y_pred k
  = (let dcg := wsum discount 0
                  (map gain_total (firstn k (ranked_labels y_true y_pred))) in
     let idcg := wsum discount 0
                   (map gain_total (firstn k (rev (sort_by Z.leb y_true)))) in
     if Req_dec_T idcg 0 then Some 0 else Some (dcg / idcg)).
Proof.
  intros Hlen Hpos.
  unfold _calculate_ndcg_at_k, ideal_dcg.
  rewrite firstn_min_length.
  rewrite dcg_loop_spec; [|exact Hpos|].
  2:{ apply Forall_forall. intros idx Hidx.
      apply In_firstn, in_rev in Hidx.
      pose proof (argsort_in_range Qle_bool y_pred) as Hr.
      rewrite Forall_forall in Hr. rewrite <- Hlen. now apply Hr. }
  rewrite idcg_sum_spec.
  2:{ apply Forall_forall. intros rel Hrel.
      apply In_firstn, in_rev in Hrel.
      rewrite Forall_forall in Hpos. apply Hpos.
      eapply Permutation_in; [apply sort_by_perm | exact Hrel]. }
  cbv zeta. unfold ranked_labels.
  rewrite firstn_map, map_map.
  rewrite !Rplus_0_l. reflexivity.
Qed.

Lemma ranked_labels_are_labels (y_true : list Z) (y_pred : list Q) :
  length y_pred = length y_true ->
  Permutation (ranked_labels y_true y_pred) (rev (sort_by Z.leb y_true)).
Proof.
  intros Hlen. unfold ranked_labels.
  rewrite <- (Permutation_rev (sort_by Z.leb y_true)), sort_by_perm.
  rewrite <- Permutation_rev, argsort_perm, Hlen.
  now rewrite map_nth_seq.
Qed.

Lemma ideal_labels_descending (y_true : list Z) :
  descending (rev (sort_by Z.leb y_true)).
Proof.
  unfold descending. apply (StronglySorted_rev Z.le).
  eapply StronglySorted_weaken;
    [|apply (sort_by_sorted Z.leb Zleb_total Zleb_trans)].
  intros a b Hab. now apply Z.leb_le.
Qed.

Lemma gains_nonneg (labels : list Z) :
  Forall (fun rel => 0 <= rel)%Z labels ->
  Forall (fun g => 0 <= g) (map gain_total labels).
Proof.
  intros H. apply Forall_map. eapply Forall_impl; [|exact H].
  intros rel. apply gain_total_nonneg.
Qed.

Lemma Forall_firstn {B : Type} (P : B -> Prop) (k : nat) (l : list B) :
  Forall P l -> Forall P (firstn k l).
Proof.
  intros H. apply Forall_forall. intros x Hx. apply In_firstn in Hx.
  rewrite Forall_forall in H. now apply H.
Qed.

Lemma ideal_dcg_positive (y_true : list Z) (k : nat) (rel : Z) :
  Forall (fun rel => 0 <= rel)%Z y_true ->
  (0 < k)%nat -> In rel y_true -> (0 < rel)%Z ->
  0 < wsum discount 0 (map gain_total (firstn k (rev (sort_by Z.leb y_true)))).
Proof.
  intros Hpos Hk Hin Hrel.
  assert (Hs : Forall (fun rel => 0 <= rel)%Z (rev (sort_by Z.leb y_true))).
  { apply Forall_forall. intros x Hx. apply in_rev in Hx.
    rewrite Forall_forall in Hpos. apply Hpos.
    eapply Permutation_in; [apply sort_by_perm | exact Hx]. }
  assert (Hin' : In rel (rev (sort_by Z.leb y_true))).
  { apply in_rev. rewrite rev_involutive.
    eapply Permutation_in; [apply Permutation_sym, sort_by_perm | exact Hin]. }
  pose proof (ideal_labels_descending y_true) as Hd. unfold descending in Hd.
  destruct (rev (sort_by Z.leb y_true)) as [|x t]; [contradiction|].
  destruct k as [|k]; [lia|]. cbn [firstn map wsum].
  apply StronglySorted_inv in Hd as [_ Hx]. rewrite Forall_forall in Hx.
  assert (Hone : (1 <= x)%Z) by (destruct Hin' as [->|Ht]; [lia|]; specialize (Hx rel Ht); lia).
  pose proof (gain_total_mono 1 x Hone) as Hg.
  assert (G1 : gain_total 1 = 1) by (unfold gain_total; simpl; lra).
  rewrite G1 in Hg.
  pose proof (discount_pos 0) as Hd0.
  assert (Hrest : 0 <= wsum discount 1 (map gain_total (firstn k t))).
  { apply wsum_nonneg; [intros i; left; apply discount_pos|].
    apply gains_nonneg, Forall_firstn. now inversion Hs. }
  nra.
Qed.

Lemma ndcg_of_descending_ranking (y_true : list Z) (y_pred : list Q) (k : nat)
    (rel : Z) :
  length y_pred = length y_true ->
  Forall int64_gain_label y_true ->
  (0 < k)%nat ->
  In rel y_true -> (0 < rel)%Z ->
  descending (ranked_labels y_true y_pred) ->
  _calculate_ndcg_at_k y_true y_pred k = Some 1.
Proof.
  intros Hlen Hfit Hk Hin Hrel Hdesc.
  pose proof (int64_labels_nonneg y_true Hfit) as Hpos.
  rewrite ndcg_at_k_as_sums by assumption. cbv zeta.
  assert (E : ranked_labels y_true y_pred = rev (sort_by Z.leb y_true)).
  { apply (sorted_perm_unique (fun a b => (b <= a)%Z)).
    - intros a b H1 H2. lia.
    - exact Hdesc.
    - apply ideal_labels_descending.
    - now apply ranked_labels_are_labels. }
  rewrite E.
  pose proof (ideal_dcg_positive y_true k rel Hpos Hk Hin Hrel) as Hidcg.
  destruct (Req_dec_T _ 0) as [Hz|Hnz]; [lra|].
  f_equal. now field.
Qed.

Lemma combine_seq_nth {A : Type} (l : list A) :
  forall s p, In p (combine (seq s (length l)) l) ->
              (s <= fst p)%nat /\ nth_error l (fst p - s) = Some (snd p).
Proof.
  induction l as [|x l IH]; intros s p; simpl; [intros []|].
  intros [<-|Hin].
  - simpl. split; [lia|]. now rewrite Nat.sub_diag.
  - apply IH in Hin as [H1 H2]. split; [lia|].
    replace (fst p - s)%nat with (S (fst p - S s)) by lia. exact H2.
Qed.

Lemma StronglySorted_and {A : Type} (R : A -> A -> Prop) (P : A -> Prop)
    (l : list A) :
  StronglySorted R l -> Forall P l ->
  StronglySorted (fun a b => R a b /\ P a /\ P b) l.
Proof.
  induction 1 as [|x l Hl IH Hx]; intros HP; constructor.
  - apply IH. now inversion HP.
  - inversion HP as [|? ? Px Pl]; subst.
    rewrite Forall_forall in *. intros y Hy. auto.
Qed.

(* argsort lists positions of the array, the values found there ascending *)
Lemma argsort_ascending (y_pred : list Q) :
  StronglySorted
    (fun a b => (a < length y_pred)%nat /\ (b < length y_pred)%nat
                /\ (nth a y_pred 0 <= nth b y_pred 0)%Q)
    (argsort Qle_bool y_pred).
Proof.
  unfold argsort.
  set (cmp := fun a b : nat * Q => Qle_bool (snd a) (snd b)).
  set (pairs := combine (seq 0 (length y_pred)) y_pred).
  assert (Hsorted : StronglySorted (leb_le cmp) (sort_by cmp pairs)).
  { apply sort_by_sorted; unfold cmp.
    - intros a b. destruct (Qlt_le_dec (snd b) (snd a)) as [H|H].
      + right. apply Qle_bool_iff. now apply Qlt_le_weak.
      + left. now apply Qle_bool_iff.
    - intros a b c H1 H2. apply Qle_bool_iff in H1, H2. apply Qle_bool_iff.
      eapply Qle_trans; eauto. }
  assert (Hrows : Forall (fun p => (fst p < length y_pred)%nat
                                   /\ nth (fst p) y_pred 0%Q = snd p)
                         (sort_by cmp pairs)).
  { apply Forall_forall. intros p Hp.
    apply (Permutation_in _ (sort_by_perm cmp pairs)) in Hp.
    apply combine_seq_nth in Hp as [_ Hp]. rewrite Nat.sub_0_r in Hp.
    split; [apply nth_error_Some; congruence | now apply nth_error_nth]. }
  apply (StronglySorted_map
           (fun a b => leb_le cmp a b
                       /\ ((fst a < length y_pred)%nat
                           /\ nth (fst a) y_pred 0%Q = snd a)
                       /\ ((fst b < length y_pred)%nat
                           /\ nth (fst b) y_pred 0%Q = snd b))).
  - intros a b (Hab & (Ha & Ea) & (Hb & Eb)). repeat split; try assumption.
    rewrite Ea, Eb. now apply Qle_bool_iff.
  - now apply StronglySorted_and.
Qed.

(* Concordant scores rank the labels in descending order *)
Lemma concordant_ranking_descending (y_true : list Z) (y_pred : list Q) :
  length y_pred = length y_true ->
  concordant y_true y_pred ->
  descending (ranked_labels y_true y_pred).
Proof.
  intros Hlen Hconc. unfold descending, ranked_labels.
  apply (StronglySorted_map
           (fun a b => (b < length y_pred)%nat /\ (a < length y_pred)%nat
                       /\ (nth b y_pred 0 <= nth a y_pred 0)%Q)).
  - intros a b (Hb & Ha & Hle).
    destruct (Z_lt_le_dec (nth a y_true 0%Z) (nth b y_true 0%Z)) as [Hlt|Hge];
      [|exact Hge].
    apply Hconc in Hlt; try (rewrite <- Hlen; assumption).
    exfalso. apply (Qlt_not_le _ _ Hlt). exact Hle.
  - apply (StronglySorted_rev
             (fun a b => (a < length y_pred)%nat /\ (b < length y_pred)%nat
                         /\ (nth a y_pred 0 <= nth b y_pred 0)%Q)).
    apply argsort_ascending.
Qed.

(** X12.  Scores that order the documents as the labels do are scored 1:
    when every document with a higher label has a strictly higher score
    (documents with equal labels may tie), the labels lie between 0 and 62,
    one of them is positive and the cutoff k is at least 1,
    _calculate_ndcg_at_k returns exactly 1 (whatever order argsort gives to
    tied scores, since those have equal labels). *)
Theorem ndcg_of_perfect_ranking :
  forall (y_true : list Z) (y_pred : list Q) (k : nat) (rel : Z),
    length y_pred = length y_true ->
    Forall int64_gain_label y_true ->
    (0 < k)%nat ->
    In rel y_true -> (0 < rel)%Z ->
    concordant y_true y_pred ->
    _calculate_ndcg_at_k y_true y_pred k = Some 1.
Proof.
  intros y_true y_pred k rel Hlen Hfit Hk Hin Hrel Hconc.
  apply (ndcg_of_descending_ranking y_true y_pred k rel); try assumption.
  now apply concordant_ranking_descending.
Qed.

Lemma ndcg_of_perfect_ranking_witness :
  _calculate_ndcg_at_k [1; 3; 0; 1]%Z [0.4; 0.9; 0.1; 0.4]%Q 3 = Some 1.
Proof.
  apply (ndcg_of_perfect_ranking _ _ _ 3%Z).
  - reflexivity.
  - repeat constructor; unfold int64_gain_label; lia.
  - lia.
  - simpl. tauto.
  - lia.
  - intros i j Hi Hj. simpl in Hi, Hj.
    destruct i as [|[|[|[|i]]]]; destruct j as [|[|[|[|j]]]];
      simpl; try lia; intros _; reflexivity.
Defined.

Lemma wsum_zero_gains (d : nat -> R) (gains : list R) :
  (forall i, 0 < d i) -> Forall (fun g => 0 <= g) gains ->
  forall i, wsum d i gains = 0 -> Forall (fun g => g = 0) gains.
Proof.
  intros Hd Hg. induction Hg as [|g rest Hg0 Hrest IH]; intros i Hsum;
    constructor.
  - simpl in Hsum. pose proof (Hd i).
    pose proof (wsum_nonneg d rest (fun j => Rlt_le _ _ (Hd j)) Hrest (S i)).
    nra.
  - apply (IH (S i)). simpl in Hsum. pose proof (Hd i).
    pose proof (wsum_nonneg d rest (fun j => Rlt_le _ _ (Hd j)) Hrest (S i)).
    nra.
Qed.

Lemma wsum_of_zero_gains (d : nat -> R) (gains : list R) :
  Forall (fun g => g = 0) gains -> forall i, wsum d i gains = 0.
Proof.
  induction 1 as [|g rest -> _ IH]; intros i; simpl; [reflexivity|].
  rewrite IH. lra.
Qed.

Lemma gain_total_zero (rel : Z) : (0 <= rel)%Z -> gain_total rel = 0 -> rel = 0%Z.
Proof.
  intros Hpos Hg. unfold gain_total in Hg.
  assert (H1 : IZR (2 ^ rel) = IZR 1) by lra.
  apply eq_IZR in H1.
  destruct (Z.eq_dec rel 0) as [|Hne]; [assumption|].
  pose proof (Z.pow_gt_1 2 rel). lia.
Qed.

(** X13.  For labels between 0 and 62 and scores whose ties, if any, are
    between documents with the same label (so that the labels in ranked
    order do not depend on how argsort breaks ties), NDCG@k is zero exactly
    when no document with a positive label is ranked among the first k: in
    particular a query group whose labels are all zero is scored 0, not
    1. *)
Theorem ndcg_zero_iff_no_gain_in_top_k :
  forall (y_true : list Z) (y_pred : list Q) (k : nat),
    length y_pred = length y_true ->
    Forall int64_gain_label y_true ->
    ties_share_labels y_true y_pred ->
    exists ndcg,
      _calculate_ndcg_at_k y_true y_pred k = Some ndcg
      /\ (ndcg = 0 <->
          Forall (fun rel => rel = 0%Z) (firstn k (ranked_labels y_true y_pred))).
Proof.
  intros y_true y_pred k Hlen Hfit _.
  pose proof (int64_labels_nonneg y_true Hfit) as Hpos.
  rewrite ndcg_at_k_as_sums by assumption. cbv zeta.
  assert (Hranked : Forall (fun rel => 0 <= rel)%Z
                      (firstn k (ranked_labels y_true y_pred))).
  { apply Forall_firstn, Forall_forall. intros x Hx.
    rewrite Forall_forall in Hpos. apply Hpos.
    apply (Permutation_in x (ranked_labels_are_labels y_true y_pred Hlen)) in Hx.
    apply in_rev in Hx.
    eapply Permutation_in; [apply sort_by_perm | exact Hx]. }
  pose proof (dcg_le_ideal y_true y_pred k Hlen) as Hle.
  rewrite <- (map_map (fun idx => nth idx y_true 0%Z) gain_total),
    <- firstn_map in Hle.
  fold (ranked_labels y_true y_pred) in Hle.
  set (top := firstn k (ranked_labels y_true y_pred)) in *.
  assert (Hdcg : 0 <= wsum discount 0 (map gain_total top)).
  { apply wsum_nonneg; [intros i; left; apply discount_pos|].
    now apply gains_nonneg. }
  assert (Hiff : wsum discount 0 (map gain_total top) = 0
                 <-> Forall (fun rel => rel = 0%Z) top).
  { split.
    - intros Hz.
      apply wsum_zero_gains in Hz;
        [|apply discount_pos | now apply gains_nonneg].
      apply Forall_map in Hz. rewrite Forall_forall in *.
      intros x Hx. apply gain_total_zero; auto.
    - intros Hall. apply wsum_of_zero_gains. apply Forall_map.
      eapply Forall_impl; [|exact Hall].
      intros x ->. unfold gain_total. simpl. lra. }
  destruct (Req_dec_T _ 0) as [Hz|Hnz]; eexists; (split; [reflexivity|]).
  - rewrite <- Hiff. split; [intros _; lra | reflexivity].
  - rewrite <- Hiff. split.
    + intros Hq. apply (Rmult_eq_compat_r
                          (wsum discount 0
                             (map gain_total
                                (firstn k (rev (sort_by Z.leb y_true)))))) in Hq.
      unfold Rdiv in Hq. rewrite Rmult_assoc, Rinv_l, Rmult_1_r, Rmult_0_l in Hq;
        assumption.
    + intros ->. unfold Rdiv. apply Rmult_0_l.
Qed.

Lemma ndcg_zero_iff_no_gain_in_top_k_witness :
  exists ndcg,
    _calculate_ndcg_at_k [0; 0; 0]%Z [0.2; 0.7; 0.1]%Q 5 = Some ndcg
    /\ (ndcg = 0 <->
        Forall (fun rel => rel = 0%Z)
               (firstn 5 (ranked_labels [0; 0; 0]%Z [0.2; 0.7; 0.1]%Q))).
Proof.
  apply ndcg_zero_iff_no_gain_in_top_k.
  - reflexivity.
  - repeat constructor; unfold int64_gain_label; lia.
  - intros i j Hi Hj _. simpl in Hi, Hj.
    destruct i as [|[|[|i]]]; destruct j as [|[|[|j]]]; simpl; try lia;
      reflexivity.
Defined.

End NdcgMore.

Section MapBounds.
Import SEORankingPredictor.
Open Scope Q_scope.

Lemma Qdiv_unit (a b : Q) : 0 <= a -> a <= b -> 0 < b -> in_unit (a / b).
Proof.
  intros Ha Hab Hb. split.
  - apply Qle_shift_div_l; [assumption | lra].
  - apply Qle_shift_div_r; [assumption | lra].
Qed.

Lemma inject_nat_succ (n : nat) :
  inject_Z (Z.of_nat (S n)) == inject_Z (Z.of_nat n) + 1.
Proof. rewrite Nat2Z.inj_succ, <- Z.add_1_r, inject_Z_plus. reflexivity. Qed.

Lemma inject_nat_nonneg (n : nat) : 0 <= inject_Z (Z.of_nat n).
Proof. unfold Qle. simpl. lia. Qed.

Lemma fold_Qplus_unit (l : list Q) :
  Forall in_unit l ->
  forall a, a <= fold_left Qplus l a
            /\ fold_left Qplus l a <= a + inject_Z (Z.of_nat (length l)).
Proof.
  induction 1 as [|x l [Hx0 Hx1] _ IH]; intros a.
  - simpl. split; [lra|]. unfold inject_Z. simpl. lra.
  - cbn [fold_left length]. destruct (IH (a + x)) as [H1 H2].
    rewrite inject_nat_succ. split; lra.
Qed.

Lemma np_mean_unit (l : list Q) :
  l <> [] -> Forall in_unit l -> in_unit (np_mean l).
Proof.
  intros Hne Hall. unfold np_mean, Qsum.
  destruct (fold_Qplus_unit l Hall 0) as [H1 H2].
  apply Qdiv_unit; [assumption | lra |].
  destruct l as [|x l]; [contradiction|]. cbn [length].
  rewrite inject_nat_succ. pose proof (inject_nat_nonneg (length l)). lra.
Qed.

Lemma precisions_loop_unit (sorted_true : list Z) :
  forall i relevant_count precisions,
    (relevant_count <= i)%nat ->
    Forall in_unit precisions ->
    Forall in_unit (precisions_loop sorted_true i relevant_count precisions).
Proof.
  induction sorted_true as [|t rest IH]; intros i rc precisions Hrc Hall;
    [exact Hall|].
  cbn [precisions_loop]. destruct (negb (t =? 0)%Z).
  - cbv zeta. apply IH; [lia|].
    apply Forall_app. split; [exact Hall|]. constructor; [|constructor].
    apply Qdiv_unit.
    + apply inject_nat_nonneg.
    + rewrite <- Zle_Qle. lia.
    + replace (i + 1)%nat with (S i) by lia. rewrite inject_nat_succ.
      pose proof (inject_nat_nonneg i). lra.
  - apply IH; [lia | exact Hall].
Qed.

Lemma slice_length_agree {B C : Type} (l : list B) (l' : list C)
    (start stop : nat) :
  length l = length l' ->
  length (slice l start stop) = length (slice l' start stop).
Proof.
  intros Hlen. unfold slice. rewrite !length_firstn, !length_skipn. lia.
Qed.

Lemma map_loop_unit (y_true : list Z) (y_pred : list Q) (groups : list nat) :
  length y_pred = length y_true ->
  forall start ap_scores,
    Forall in_unit ap_scores ->
    exists scores,
      map_loop y_true y_pred groups start ap_scores = Some scores
      /\ Forall in_unit scores.
Proof.
  intros Hlen. induction groups as [|g rest IH]; intros start ap_scores Hall.
  - exists ap_scores. now split.
  - cbn [map_loop]. cbv zeta.
    destruct (Zsum _ =? 0)%Z; [now apply IH|].
    destruct (take_some
                (binarize (slice y_true start (start + g)))
                (rev (argsort Qle_bool (slice y_pred start (start + g)))))
      as [sorted_true Htake].
    { apply Forall_forall. intros idx Hidx. apply in_rev in Hidx.
      pose proof (argsort_in_range Qle_bool (slice y_pred start (start + g)))
        as Hr.
      rewrite Forall_forall in Hr. specialize (Hr idx Hidx).
      unfold binarize. rewrite length_map.
      now rewrite <- (slice_length_agree y_pred y_true). }
    rewrite Htake. apply IH.
    apply Forall_app. split; [exact Hall|]. constructor; [|constructor].
    pose proof (precisions_loop_unit sorted_true 0 0 [] (le_n 0)
                  (Forall_nil _)) as Hprec.
    destruct (precisions_loop sorted_true 0 0 []) as [|p ps] eqn:E.
    + unfold in_unit. lra.
    + apply np_mean_unit; [discriminate | exact Hprec].
Qed.

(** X14.  With one predicted score per label, _calculate_map returns for
    any list of group sizes, and the mean average precision it returns lies
    between 0 and 1. *)
Theorem calculate_map_in_unit_interval :
  forall (y_true : list Z) (y_pred : list Q) (groups : list nat),
    length y_pred = length y_true ->
    exists map_score,
      _calculate_map y_true y_pred groups = Some map_score
      /\ 0 <= map_score <= 1.
Proof.
  intros y_true y_pred groups Hlen. unfold _calculate_map.
  destruct (map_loop_unit y_true y_pred groups Hlen 0%nat [] (Forall_nil _))
    as (scores & -> & Hall).
  eexists. split; [reflexivity|].
  destruct scores as [|s rest] eqn:E; [lra|].
  apply np_mean_unit; [discriminate | exact Hall].
Qed.

Lemma calculate_map_in_unit_interval_witness :
  exists map_score,
    _calculate_map [3; 0; 2; 0; 0; 2]%Z [0.2; 0.9; 0.4; 0.8; 0.3; 0.6]
                   [3; 3]%nat
    = Some map_score
    /\ 0 <= map_score <= 1.
Proof.
  apply calculate_map_in_unit_interval. reflexivity.
Defined.

End MapBounds.

(** * Grouped split: the rows and the group arrays *)

Section GroupedSplitMore.
Import SEORankingPredictor.
Variable np_random_choice : nat -> nat -> list nat.

(* Reordering two aligned columns by a permutation of their positions
   keeps the rows *)
Lemma take_rows_perm {A B : Type} (a : list A) (b : list B) (idx : list nat)
    (ra : list A) (rb : list B) (da : A) (db : B) :
  length a = length b ->
  Permutation idx (seq 0 (length a)) ->
  take a idx = Some ra -> take b idx = Some rb ->
  Permutation (combine ra rb) (combine a b).
Proof.
  intros Hlen Hperm Ha Hb.
  rewrite (take_perm a idx da ra Ha), (take_perm b idx db rb Hb).
  rewrite combine_map_same.
  rewrite (map_ext _ (fun i => nth i (combine a b) (da, db)))
    by (intros i; now rewrite combine_nth).
  rewrite Hperm.
  replace (length a) with (length (combine a b))
    by (rewrite length_combine; lia).
  now rewrite map_nth_seq.
Qed.

Lemma prepare_ranking_data_steps features labels query_ids test_size
    X_train X_test y_train y_test train_groups test_groups :
  prepare_ranking_data np_random_choice features labels query_ids test_size
  = Some (X_train, X_test, y_train, y_test, train_groups, test_groups) ->
  exists qid_train qid_test,
    prepare_ranking_rows np_random_choice features labels query_ids test_size
    = Some (X_train, X_test, y_train, y_test, qid_train, qid_test)
    /\ train_groups = value_counts_sort_index qid_train
    /\ test_groups = value_counts_sort_index qid_test.
Proof.
  unfold prepare_ranking_data.
  destruct (prepare_ranking_rows _ _ _ _ _)
    as [[[[[[Xtr Xte] ytr] yte] qtr] qte]|]; [|discriminate].
  intros [= <- <- <- <- <- <-]. now exists qtr, qte.
Qed.

(** X15.  The split keeps every row exactly once and never separates a row
    from its label: when the three inputs have the same length, the
    (features, label) rows of the training side followed by those of the
    test side are a rearrangement of the input rows. *)
Theorem prepare_ranking_data_keeps_every_row :
  forall (features : list (list Q)) (labels query_ids : list Z) (test_size : Q)
         X_train X_test y_train y_test train_groups test_groups,
    length features = length query_ids ->
    length labels = length query_ids ->
    prepare_ranking_data np_random_choice features labels query_ids test_size
    = Some (X_train, X_test, y_train, y_test, train_groups, test_groups) ->
    Permutation (combine X_train y_train ++ combine X_test y_test)
                (combine features labels).
Proof.
  intros features labels query_ids test_size
         X_train X_test y_train y_test train_groups test_groups Hf Hl Hsplit.
  apply prepare_ranking_data_steps in Hsplit as (qtr & qte & Hrows & _ & _).
  apply prepare_ranking_rows_steps in Hrows
    as (fs & ls & qs & idx & tq & Ef & El & Eq & _ & _
        & -> & -> & -> & -> & _ & _).
  rewrite !mask_select_combine.
  transitivity (combine fs ls).
  - apply mask_partition. unfold isin.
    rewrite length_map, length_combine.
    apply take_length in Ef, El, Eq. lia.
  - apply (take_rows_perm features labels (argsort Z.leb query_ids) fs ls [] 0%Z);
      try assumption; [congruence|].
    rewrite Hf. apply argsort_perm.
Qed.

Lemma np_unique_In (l : list Z) (x : Z) : In x (np_unique l) <-> In x l.
Proof.
  split; intros H.
  - apply (nodup_In Z.eq_dec).
    eapply Permutation_in; [apply np_unique_perm | exact H].
  - eapply Permutation_in; [apply Permutation_sym, np_unique_perm|].
    now apply nodup_In.
Qed.

Lemma np_unique_NoDup (l : list Z) : NoDup (np_unique l).
Proof.
  eapply Permutation_NoDup;
    [apply Permutation_sym, np_unique_perm | apply NoDup_nodup].
Qed.

Lemma np_unique_sorted (l : list Z) : StronglySorted Z.le (np_unique l).
Proof.
  unfold np_unique. eapply StronglySorted_weaken;
    [|apply (sort_by_sorted Z.leb Zleb_total Zleb_trans)].
  intros a b Hab. now apply Z.leb_le.
Qed.

(* The number of distinct ids depends on the ids present only *)
Lemma np_unique_length (l l' : list Z) :
  (forall x, In x l <-> In x l') ->
  length (np_unique l) = length (np_unique l').
Proof.
  intros Hsame. apply Permutation_length, NoDup_Permutation;
    try apply np_unique_NoDup.
  intros x. now rewrite !np_unique_In.
Qed.

Lemma NoDup_map_nth {A : Type} (l : list A) (d : A) (idx : list nat) :
  NoDup l -> NoDup idx -> Forall (fun i => (i < length l)%nat) idx ->
  NoDup (map (fun i => nth i l d) idx).
Proof.
  intros Hl Hidx Hrange. induction Hidx as [|i rest Hni Hrest IH]; simpl;
    constructor.
  - intros Hin. apply in_map_iff in Hin as (j & Hj & Hjin).
    apply Forall_cons_iff in Hrange as [Hi Hr].
    rewrite Forall_forall in Hr.
    apply (proj1 (NoDup_nth l d) Hl) in Hj; [subst; contradiction| |assumption].
    now apply Hr.
  - apply IH. now apply Forall_cons_iff in Hrange.
Qed.

Lemma take_sorted_ids (query_ids qs : list Z) :
  take query_ids (argsort Z.leb query_ids) = Some qs ->
  Permutation qs query_ids.
Proof.
  intros Eq. rewrite (take_perm _ _ 0%Z _ Eq), argsort_perm.
  now rewrite map_nth_seq.
Qed.

(* Rows on the two sides of the split, as filters of the sorted id column *)
Lemma split_ids_as_filters (qs tq : list Z) :
  mask_select (isin qs tq) qs
  = filter (fun q => existsb (Z.eqb q) tq) qs
  /\ mask_select (map negb (isin qs tq)) qs
     = filter (fun q => negb (existsb (Z.eqb q) tq)) qs.
Proof.
  unfold isin. split; [apply mask_select_filter|].
  rewrite map_map. apply mask_select_filter.
Qed.

Lemma existsb_Zeqb (x : Z) (l : list Z) :
  existsb (Z.eqb x) l = true <-> In x l.
Proof.
  rewrite existsb_exists. split.
  - intros (y & Hy & E). apply Z.eqb_eq in E. now subst.
  - intros H. exists x. split; [assumption | apply Z.eqb_refl].
Qed.

(* int(x) is within one of x *)
Lemma py_int_near (x : Q) :
  x - 1 <= inject_Z (py_int x) <= x + 1.
Proof.
  unfold py_int. destruct (Qle_bool 0 x).
  - pose proof (Qfloor_le x) as Hlo. pose proof (Qlt_floor x) as Hhi.
    rewrite inject_Z_plus in Hhi. change (inject_Z 1) with 1 in Hhi.
    split; lra.
  - pose proof (Qle_ceiling x) as Hlo. pose proof (Qceiling_lt x) as Hhi.
    unfold Z.sub in Hhi. rewrite inject_Z_plus in Hhi.
    change (inject_Z (- (1))) with (-1) in Hhi.
    split; lra.
Qed.

(** X16.  The split holds out the requested share of queries: with numpy's
    contract for the random draw, the number of query groups on the test
    side differs from n_queries * test_size by at most one, and the training
    side has all the other groups, n_queries being the number of distinct
    query ids. *)
Theorem prepare_ranking_data_group_counts :
  forall (features : list (list Q)) (labels query_ids : list Z) (test_size : Q)
         X_train X_test y_train y_test train_groups test_groups,
    choice_contract np_random_choice ->
    prepare_ranking_data np_random_choice features labels query_ids test_size
    = Some (X_train, X_test, y_train, y_test, train_groups, test_groups) ->
    inject_Z (Z.of_nat (length (np_unique query_ids))) * test_size - 1
    <= inject_Z (Z.of_nat (length test_groups))
    <= inject_Z (Z.of_nat (length (np_unique query_ids))) * test_size + 1
    /\ (length train_groups + length test_groups
        = length (np_unique query_ids))%nat.
Proof.
  intros features labels query_ids test_size
         X_train X_test y_train y_test train_groups test_groups
         Hchoice Hsplit.
  apply prepare_ranking_data_steps in Hsplit as (qtr & qte & Hrows & -> & ->).
  apply prepare_ranking_rows_steps in Hrows
    as (fs & ls & qs & idx & tq & _ & _ & Eq & Ei & Et
        & _ & _ & _ & _ & -> & ->).
  destruct (split_ids_as_filters qs tq) as [-> ->].
  pose proof (take_sorted_ids _ _ Eq) as Hqs.
  assert (Hn : length (np_unique qs) = length (np_unique query_ids)).
  { apply np_unique_length. intros x. split; apply Permutation_in;
      [|apply Permutation_sym]; exact Hqs. }
  rewrite Hn in Ei.
  set (n := length (np_unique query_ids)) in *.
  set (m := py_int (inject_Z (Z.of_nat n) * test_size)) in *.
  unfold random_choice in Ei.
  destruct ((m <? 0)%Z || (Z.of_nat n <? m)%Z) eqn:Eguard; [discriminate|].
  apply orb_false_iff in Eguard as [G1 G2].
  apply Z.ltb_ge in G1, G2. injection Ei as <-.
  destruct (Hchoice n (Z.to_nat m)) as (Hlen & Hnodup & Hrange0); [lia|].
  assert (Hrange : Forall (fun i => (i < length (np_unique qs))%nat)
                          (np_random_choice n (Z.to_nat m)))
    by (rewrite Hn; exact Hrange0).
  assert (Htq : tq = map (fun i => nth i (np_unique qs) 0%Z)
                         (np_random_choice n (Z.to_nat m)))
    by (apply take_perm; exact Et).
  assert (Htq_nodup : NoDup tq).
  { rewrite Htq. apply NoDup_map_nth;
      [apply np_unique_NoDup | exact Hnodup | exact Hrange]. }
  assert (Htq_in : forall x, In x tq -> In x qs).
  { intros x Hx. rewrite Htq in Hx. apply in_map_iff in Hx as (i & <- & Hi).
    apply np_unique_In, nth_In.
    rewrite Forall_forall in Hrange. now apply Hrange. }
  assert (Htest : length (np_unique
                            (filter (fun q => existsb (Z.eqb q) tq) qs))
                  = Z.to_nat m).
  { rewrite <- Hlen, <- (length_map (fun i => nth i (np_unique qs) 0%Z)),
      <- Htq.
    apply Permutation_length, NoDup_Permutation;
      [apply np_unique_NoDup | exact Htq_nodup |].
    intros x. rewrite np_unique_In, filter_In, existsb_Zeqb.
    split; [tauto | auto]. }
  unfold value_counts_sort_index. rewrite !length_map.
  split.
  { rewrite Htest, Z2Nat.id by lia. apply py_int_near. }
  rewrite <- Hn, <- length_app.
  apply Permutation_length, NoDup_Permutation.
  - apply NoDup_app; try apply np_unique_NoDup.
    intros x. rewrite !np_unique_In, !filter_In.
    intros [_ H1] [_ H2]. rewrite H2 in H1. discriminate.
  - apply np_unique_NoDup.
  - intros x. rewrite in_app_iff, !np_unique_In, !filter_In.
    destruct (existsb (Z.eqb x) tq); simpl; intuition congruence.
Qed.

End GroupedSplitMore.

Lemma prepare_ranking_data_keeps_every_row_witness :
  Permutation
    (combine [[4]; [1]; [3]] [4; 1; 3]%Z ++ combine [[2]; [5]] [2; 5]%Z)
    (combine [[1]; [2]; [3]; [4]; [5]] [1; 2; 3; 4; 5]%Z).
Proof.
  apply (prepare_ranking_data_keeps_every_row (fun _ m => seq 0 m)
           [[1]; [2]; [3]; [4]; [5]] [1; 2; 3; 4; 5]%Z [7; 3; 7; 5; 3]%Z 0.4
           [[4]; [1]; [3]] [[2]; [5]] [4; 1; 3]%Z [2; 5]%Z
           [1; 2]%nat [2]%nat); reflexivity.
Defined.

Lemma prepare_ranking_data_group_counts_witness :
  inject_Z (Z.of_nat (length (np_unique [7; 3; 7; 5; 3]%Z))) * 0.4 - 1
  <= inject_Z (Z.of_nat (length [2%nat]))
  <= inject_Z (Z.of_nat (length (np_unique [7; 3; 7; 5; 3]%Z))) * 0.4 + 1
  /\ (length [1; 2]%nat + length [2%nat]
      = length (np_unique [7; 3; 7; 5; 3]%Z))%nat.
Proof.
  apply (prepare_ranking_data_group_counts (fun _ m => seq 0 m)
           [[1]; [2]; [3]; [4]; [5]] [1; 2; 3; 4; 5]%Z [7; 3; 7; 5; 3]%Z 0.4
           [[4]; [1]; [3]] [[2]; [5]] [4; 1; 3]%Z [2; 5]%Z).
  - apply seq_choice_contract.
  - reflexivity.
Defined.

(** * Grouped split: group sizes describe runs of rows *)

Section GroupRuns.
Import SEORankingPredictor.
Variable np_random_choice : nat -> nat -> list nat.

(* Reading a column at its argsort gives the column in ascending order *)
Lemma argsort_sorts (l r : list Z) :
  take l (argsort Z.leb l) = Some r -> StronglySorted Z.le r.
Proof.
  intros E. rewrite (take_perm _ _ 0%Z _ E). unfold argsort. rewrite map_map.
  set (cmp := fun a b : nat * Z => Z.leb (snd a) (snd b)).
  rewrite (map_ext_in _ snd).
  - apply (StronglySorted_map (leb_le cmp)).
    + intros a b H. apply Z.leb_le. exact H.
    + apply sort_by_sorted; unfold cmp; intros.
      * apply Zleb_total.
      * eapply Zleb_trans; eauto.
  - intros p Hp. apply (Permutation_in _ (sort_by_perm cmp _)) in Hp.
    apply combine_seq_nth in Hp as [_ Hp]. rewrite Nat.sub_0_r in Hp.
    now apply nth_error_nth.
Qed.

Lemma StronglySorted_filter {A : Type} (R : A -> A -> Prop) (f : A -> bool)
    (l : list A) :
  StronglySorted R l -> StronglySorted R (filter f l).
Proof.
  induction 1 as [|x l Hl IH Hx]; simpl; [constructor|].
  destruct (f x); [|exact IH]. constructor; [exact IH|].
  rewrite Forall_forall in *. intros y Hy. apply filter_In in Hy as [Hy _].
  now apply Hx.
Qed.

Lemma StronglySorted_repeat_app (q : Z) (n : nat) (rest : list Z) :
  StronglySorted Z.le rest -> Forall (Z.le q) rest ->
  StronglySorted Z.le (repeat q n ++ rest).
Proof.
  intros Hs Hq. induction n as [|n IH]; simpl; [exact Hs|].
  constructor; [exact IH|]. apply Forall_app. split; [|exact Hq].
  apply Forall_forall. intros y Hy. apply repeat_spec in Hy. lia.
Qed.

Lemma runs_sorted (c : Z -> nat) (u : list Z) :
  StronglySorted Z.le u ->
  StronglySorted Z.le (flat_map (fun q => repeat q (c q)) u).
Proof.
  induction 1 as [|q u Hu IH Hq]; simpl; [constructor|].
  apply StronglySorted_repeat_app; [exact IH|].
  rewrite Forall_forall in *. intros y Hy.
  apply in_flat_map in Hy as (x & Hx & Hy). apply repeat_spec in Hy. subst.
  now apply Hq.
Qed.

Lemma runs_count (c : Z -> nat) (u : list Z) (x : Z) :
  NoDup u ->
  count_occ Z.eq_dec (flat_map (fun q => repeat q (c q)) u) x
  = if in_dec Z.eq_dec x u then c x else 0%nat.
Proof.
  induction 1 as [|q u Hq Hu IH]; simpl; [reflexivity|].
  rewrite count_occ_app, IH.
  destruct (Z.eq_dec q x) as [->|Hne].
  - rewrite count_occ_repeat_eq by reflexivity.
    destruct (in_dec Z.eq_dec x u); [contradiction | lia].
  - rewrite count_occ_repeat_neq by congruence.
    destruct (in_dec Z.eq_dec x u); reflexivity.
Qed.

Lemma flat_map_counts {B : Type} (g : Z * nat -> list B) (c : Z -> nat)
    (u : list Z) :
  flat_map g (combine u (map c u)) = flat_map (fun q => g (q, c q)) u.
Proof. induction u as [|q u IH]; simpl; [reflexivity | now rewrite IH]. Qed.

(* A sorted id column is its distinct ids, each repeated as often as it
   occurs *)
Lemma sorted_ids_are_runs (l : list Z) :
  StronglySorted Z.le l ->
  l = expand_groups (np_unique l) (value_counts_sort_index l).
Proof.
  intros Hsorted. unfold expand_groups, value_counts_sort_index.
  rewrite flat_map_counts. cbn [fst snd].
  apply (sorted_perm_unique Z.le).
  - intros a b. lia.
  - exact Hsorted.
  - apply runs_sorted, np_unique_sorted.
  - apply (Permutation_count_occ Z.eq_dec). intros x.
    rewrite runs_count by apply np_unique_NoDup.
    destruct (in_dec Z.eq_dec x (np_unique l)) as [Hin|Hout]; [reflexivity|].
    apply count_occ_not_In. now rewrite <- np_unique_In.
Qed.

Lemma value_counts_positive (l : list Z) :
  Forall (fun size => (0 < size)%nat) (value_counts_sort_index l).
Proof.
  unfold value_counts_sort_index. apply Forall_map, Forall_forall.
  intros q Hq. apply (proj1 (np_unique_In l q)) in Hq.
  apply (count_occ_In Z.eq_dec) in Hq. cbv beta. lia.
Qed.

(** X17.  The group arrays describe the returned rows in their order: on
    each side of the split the rows lie in ascending query-id order, the
    i-th distinct id filling a run of exactly groups[i] consecutive rows, and
    no group is empty.  This is the layout the ranking libraries expect of
    a group array. *)
Theorem prepare_ranking_data_groups_are_runs :
  forall (features : list (list Q)) (labels query_ids : list Z) (test_size : Q)
         X_train X_test y_train y_test train_groups test_groups,
    prepare_ranking_data np_random_choice features labels query_ids test_size
    = Some (X_train, X_test, y_train, y_test, train_groups, test_groups) ->
    exists qid_train qid_test,
      prepare_ranking_rows np_random_choice features labels query_ids test_size
      = Some (X_train, X_test, y_train, y_test, qid_train, qid_test)
      /\ qid_train = expand_groups (np_unique qid_train) train_groups
      /\ qid_test = expand_groups (np_unique qid_test) test_groups
      /\ Forall (fun size => (0 < size)%nat) train_groups
      /\ Forall (fun size => (0 < size)%nat) test_groups.
Proof.
  intros features labels query_ids test_size
         X_train X_test y_train y_test train_groups test_groups Hsplit.
  apply prepare_ranking_data_steps in Hsplit as (qtr & qte & Hrows & -> & ->).
  exists qtr, qte. split; [exact Hrows|].
  apply prepare_ranking_rows_steps in Hrows
    as (fs & ls & qs & idx & tq & _ & _ & Eq & _ & _
        & _ & _ & _ & _ & -> & ->).
  destruct (split_ids_as_filters qs tq) as [-> ->].
  pose proof (argsort_sorts _ _ Eq) as Hsorted.
  repeat split; try apply value_counts_positive;
    apply sorted_ids_are_runs, StronglySorted_filter, Hsorted.
Qed.

End GroupRuns.

Lemma prepare_ranking_data_groups_are_runs_witness :
  exists qid_train qid_test,
    SEORankingPredictor.prepare_ranking_rows (fun _ m => seq 0 m)
      [[1]; [2]; [3]; [4]; [5]] [1; 2; 3; 4; 5]%Z [7; 3; 7; 5; 3]%Z 0.4
    = Some ([[4]; [1]; [3]], [[2]; [5]], [4; 1; 3]%Z, [2; 5]%Z,
            qid_train, qid_test)
    /\ qid_train = expand_groups (np_unique qid_train) [1; 2]%nat
    /\ qid_test = expand_groups (np_unique qid_test) [2]%nat
    /\ Forall (fun size => (0 < size)%nat) [1; 2]%nat
    /\ Forall (fun size => (0 < size)%nat) [2]%nat.
Proof.
  apply (prepare_ranking_data_groups_are_runs (fun _ m => seq 0 m)
           [[1]; [2]; [3]; [4]; [5]] [1; 2; 3; 4; 5]%Z [7; 3; 7; 5; 3]%Z 0.4).
  reflexivity.
Defined.

(** * Downsampling of low-ranking rows *)

Section Downsampling.
Variable np_random_choice_from : list Z -> nat -> list Z.

Lemma mask_sum_filter {A : Type} (g : A -> bool) (l : list A) :
  mask_sum (map g l) = length (filter g l).
Proof.
  unfold mask_sum. induction l as [|x l IH]; simpl; [reflexivity|].
  destruct (g x); simpl; now rewrite IH.
Qed.

(* labels[mask].index for a mask computed from the values of labels *)
Lemma mask_select_index (g : Z -> bool) (labels : IndexedSeries Z) :
  mask_select (map g (values labels)) (index labels)
  = map fst (filter (fun row => g (snd row)) labels).
Proof.
  unfold mask_select, values, index.
  induction labels as [|row labels IH]; simpl; [reflexivity|].
  destruct (g (snd row)); simpl; now rewrite IH.
Qed.

Lemma filter_values (g : Z -> bool) (labels : IndexedSeries Z) :
  length (filter g (values labels))
  = length (filter (fun row => g (snd row)) labels).
Proof.
  unfold values. now rewrite filter_map_swap, length_map.
Qed.

(* With the default index, the row at position i is labelled i *)
Lemma default_index_from_nth {A : Type} (d : Z * A) (s : IndexedSeries A) :
  forall start,
    index s = map Z.of_nat (seq start (length s)) ->
    forall i, (i < length s)%nat -> fst (nth i s d) = Z.of_nat (start + i).
Proof.
  unfold index. induction s as [|row s IH]; intros start Hidx i Hi;
    simpl in *; [lia|].
  injection Hidx as Hrow Hrest. destruct i as [|i].
  - now rewrite Nat.add_0_r.
  - rewrite (IH (S start) Hrest i) by lia. f_equal. lia.
Qed.

Lemma default_index_nth {A : Type} (d : Z * A) (s : IndexedSeries A) (i : nat) :
  default_index s -> (i < length s)%nat -> fst (nth i s d) = Z.of_nat i.
Proof. intros H Hi. now rewrite (default_index_from_nth d s 0 H i Hi). Qed.

(* With the default index, a key selects the row at its position *)
Lemma rows_labelled_from {A : Type} (d : Z * A) (s : IndexedSeries A) (key : Z) :
  forall start,
    index s = map Z.of_nat (seq start (length s)) ->
    filter (fun row => (fst row =? key)%Z) s
    = if ((Z.of_nat start <=? key)%Z
          && (key <? Z.of_nat (start + length s))%Z)%bool
      then [nth (Z.to_nat key - start) s d] else [].
Proof.
  unfold index. induction s as [|row s IH]; intros start Hidx; simpl in *.
  - destruct (Z.leb_spec (Z.of_nat start) key),
      (Z.ltb_spec key (Z.of_nat (start + 0))); simpl; try reflexivity; lia.
  - injection Hidx as Hrow Hrest. rewrite (IH (S start) Hrest).
    destruct (Z.eqb_spec (fst row) key) as [Hkey|Hkey];
      destruct (Z.leb_spec (Z.of_nat start) key),
        (Z.ltb_spec key (Z.of_nat (start + S (length s))));
      destruct (Z.leb_spec (Z.of_nat (S start)) key),
        (Z.ltb_spec key (Z.of_nat (S start + length s)));
      simpl; try lia; try reflexivity.
    + replace (Z.to_nat key - start)%nat with 0%nat by lia. reflexivity.
    + replace (Z.to_nat key - start)%nat
        with (S (Z.to_nat key - S start)) by lia.
      reflexivity.
Qed.

(* .loc on a default index reads rows by position *)
Lemma loc_default {A : Type} (d : Z * A) (s : IndexedSeries A) :
  default_index s ->
  forall keys r,
    loc s keys = Some r ->
    Forall (fun k => (0 <= k < Z.of_nat (length s))%Z) keys
    /\ r = map (fun k => nth (Z.to_nat k) s d) keys.
Proof.
  intros Hidx. induction keys as [|key keys IH]; intros r; simpl.
  - intros [= <-]. split; [constructor | reflexivity].
  - rewrite (rows_labelled_from d s key 0 Hidx).
    destruct (Z.leb_spec (Z.of_nat 0) key),
      (Z.ltb_spec key (Z.of_nat (0 + length s))); simpl; try discriminate.
    destruct (loc s keys) as [tail|]; [|discriminate].
    intros [= <-]. destruct (IH tail eq_refl) as [Hrange ->].
    rewrite Nat.sub_0_r. split; [|reflexivity].
    constructor; [simpl in *; lia | exact Hrange].
Qed.

(* The labels a mask selects, on a default index *)
Lemma default_index_keys (g : Z -> bool) (labels : IndexedSeries Z) :
  default_index labels ->
  forall k,
    In k (map fst (filter (fun row => g (snd row)) labels))
    <-> (0 <= k < Z.of_nat (length labels))%Z
        /\ g (snd (nth (Z.to_nat k) labels (0, 0)%Z)) = true.
Proof.
  intros Hidx k. rewrite in_map_iff. split.
  - intros (row & <- & Hrow). apply filter_In in Hrow as [Hin Hg].
    destruct (In_nth _ _ (0, 0)%Z Hin) as (i & Hi & <-).
    rewrite (default_index_nth _ _ _ Hidx Hi), Nat2Z.id.
    split; [lia | exact Hg].
  - intros [Hk Hg]. exists (nth (Z.to_nat k) labels (0, 0)%Z). split.
    + rewrite (default_index_nth _ _ _ Hidx) by lia. lia.
    + apply filter_In. split; [apply nth_In; lia | exact Hg].
Qed.

(* Rows selected from rows with distinct labels have distinct labels *)
Lemma selected_labels_distinct {K V : Type} (label : V -> K)
    (selected : V -> bool) :
  forall rows : list V,
    NoDup (map label rows) -> NoDup (map label (filter selected rows)).
Proof.
  intros rows. induction rows as [|row rows IH]; simpl; intros Hnd;
    [constructor|].
  inversion Hnd as [|? ? Hni Hnd']; subst.
  destruct (selected row); simpl; [constructor|]; auto.
  intros Hin. apply Hni. apply in_map_iff in Hin as (y & Hy & Hin).
  apply filter_In in Hin as [Hin _]. apply in_map_iff. eauto.
Qed.

Lemma default_index_NoDup {A : Type} (s : IndexedSeries A) :
  default_index s -> NoDup (index s).
Proof.
  intros ->. apply Finite.Injective_map_NoDup; [|apply seq_NoDup].
  intros a b. apply Nat2Z.inj.
Qed.

Lemma filter_all {A : Type} (p : A -> bool) (l : list A) :
  (forall x, In x l -> p x = true) -> filter p l = l.
Proof.
  induction l as [|x l IH]; intros H; simpl; [reflexivity|].
  rewrite (H x (or_introl eq_refl)), IH; [reflexivity|].
  intros y Hy. apply H. now right.
Qed.

Lemma filter_none {A : Type} (p : A -> bool) (l : list A) :
  (forall x, In x l -> p x = false) -> filter p l = [].
Proof.
  induction l as [|x l IH]; intros H; simpl; [reflexivity|].
  rewrite (H x (or_introl eq_refl)). apply IH.
  intros y Hy. apply H. now right.
Qed.

Lemma filter_perm {A : Type} (p : A -> bool) (l l' : list A) :
  Permutation l l' -> Permutation (filter p l) (filter p l').
Proof.
  induction 1 as [|x l l' _ IH|x y l|l l' l'' _ IH1 _ IH2]; simpl.
  - constructor.
  - destruct (p x); [now constructor | exact IH].
  - destruct (p x), (p y); try reflexivity. apply perm_swap.
  - now transitivity (filter p l').
Qed.

Lemma sort_labels_sorted (l : list Z) :
  StronglySorted Z.le (sort_by Z.leb l).
Proof.
  eapply StronglySorted_weaken; [|apply (sort_by_sorted Z.leb)].
  - intros a b Hab. now apply Z.leb_le.
  - intros a b. rewrite !Z.leb_le. lia.
  - intros a b c. rewrite !Z.leb_le. lia.
Qed.

(* Distinct, ascending, non-negative labels are strictly ascending positions *)
Lemma sorted_labels_positions (l : list Z) :
  StronglySorted Z.le l -> NoDup l -> Forall (fun k => (0 <= k)%Z) l ->
  StronglySorted lt (map Z.to_nat l).
Proof.
  induction 1 as [|x l Hl IH Hx]; intros Hnd Hpos; simpl; constructor.
  - apply IH; [now inversion Hnd | now inversion Hpos].
  - inversion Hnd as [|? ? Hni _]; subst.
    inversion Hpos as [|? ? Hx0 Hl0]; subst.
    rewrite Forall_forall in *. intros i Hi.
    apply in_map_iff in Hi as (y & <- & Hy).
    specialize (Hx y Hy). specialize (Hl0 y Hy).
    assert (x <> y) by (intros ->; contradiction). lia.
Qed.

Lemma seq_strictly_sorted (len : nat) :
  forall start, StronglySorted lt (seq start len).
Proof.
  induction len as [|len IH]; intros start; simpl; constructor.
  - apply IH.
  - apply Forall_forall. intros y Hy. apply in_seq in Hy. lia.
Qed.

(* What the downsampling branch keeps: the high labels and the sample *)
Lemma downsample_keys (labels : IndexedSeries Z) (m : Z) (sampled : list Z) :
  choice_from_contract np_random_choice_from ->
  default_index labels ->
  random_choice_from np_random_choice_from
    (map fst (filter (fun row => is_low (snd row)) labels)) m = Some sampled ->
  let high := map fst (filter (fun row => is_high (snd row)) labels) in
  let keep := sort_by Z.leb (high ++ sampled) in
  Permutation keep (high ++ sampled)
  /\ NoDup keep
  /\ (0 <= m)%Z /\ length sampled = Z.to_nat m
  /\ (forall k, In k sampled ->
                (0 <= k < Z.of_nat (length labels))%Z
                /\ is_low (snd (nth (Z.to_nat k) labels (0, 0)%Z)) = true).
Proof.
  intros Hchoice Hidx Hdraw high keep.
  unfold random_choice_from in Hdraw.
  destruct ((m <? 0)%Z || _) eqn:Eguard; [discriminate|].
  apply orb_false_iff in Eguard as [G1 G2]. apply Z.ltb_ge in G1, G2.
  injection Hdraw as <-.
  set (low := map fst (filter (fun row => is_low (snd row)) labels)) in *.
  destruct (Hchoice low (Z.to_nat m)) as (Hlen & Hnodup & Hincl); [lia|].
  assert (Hlow : forall k,
             In k (np_random_choice_from low (Z.to_nat m)) ->
             (0 <= k < Z.of_nat (length labels))%Z
             /\ is_low (snd (nth (Z.to_nat k) labels (0, 0)%Z)) = true).
  { intros k Hk. apply Hincl in Hk.
    now apply (default_index_keys is_low labels Hidx k). }
  assert (Hperm : Permutation keep
                    (high ++ np_random_choice_from low (Z.to_nat m)))
    by apply sort_by_perm.
  repeat match goal with |- _ /\ _ => split end;
    try assumption; try (now apply Hlow).
  eapply Permutation_NoDup; [apply Permutation_sym, Hperm|].
  pose proof (default_index_NoDup labels Hidx) as Hnd.
  apply NoDup_app.
  - now apply selected_labels_distinct.
  - apply Hnodup. now apply selected_labels_distinct.
  - intros k Hhi Hs. apply Hlow in Hs as [_ Hs].
    apply (default_index_keys is_high labels Hidx k) in Hhi as [_ Hhi].
    unfold is_high, is_low in *. apply Z.leb_le in Hhi. apply Z.ltb_lt in Hs.
    lia.
Qed.

Ltac masks :=
  fold is_low is_high;
  change (map (fun l => (l <? 2)%Z)) with (map is_low);
  change (map (fun l => (2 <=? l)%Z)) with (map is_high);
  rewrite ?mask_select_index.

(** X18.  On inputs that carry pandas' default index (row positions 0, 1,
    2, ... as labels), handle_imbalanced_data returns the input restricted
    to an increasing list of row positions, the same list for features,
    labels and query ids, and that list contains every row whose label is
    at least 2: rows stay aligned and in their order, each with its index
    label, and no high-ranking row is dropped. *)
Theorem handle_imbalanced_data_keeps_high_rows :
  forall (features : IndexedSeries (list Q)) (labels query_ids : IndexedSeries Z)
         (target_ratio : Q) features' labels' query_ids',
    choice_from_contract np_random_choice_from ->
    default_index features ->
    default_index labels ->
    default_index query_ids ->
    length features = length labels ->
    length query_ids = length labels ->
    handle_imbalanced_data np_random_choice_from features labels query_ids
      target_ratio
    = Some (features', labels', query_ids') ->
    exists keep,
      StronglySorted lt keep
      /\ Forall (fun i => (i < length labels)%nat) keep
      /\ features' = rows_at (0%Z, []) features keep
      /\ labels' = rows_at (0, 0)%Z labels keep
      /\ query_ids' = rows_at (0, 0)%Z query_ids keep
      /\ (forall i, (i < length labels)%nat ->
                    (2 <= snd (nth i labels (0, 0)))%Z -> In i keep).
Proof.
  intros features labels query_ids target_ratio features' labels' query_ids'
         Hchoice Hfi Hli Hqi Hf Hq.
  unfold handle_imbalanced_data.
  destruct (py_div _ target_ratio) as [ratio|]; [|discriminate].
  cbv zeta. destruct (py_int ratio <? _)%Z.
  - masks.
    destruct (random_choice_from _ _ _) as [sampled|] eqn:Hdraw;
      [|discriminate].
    destruct (downsample_keys labels _ sampled Hchoice Hli Hdraw)
      as (Hperm & Hnodup & _ & _ & Hlow).
    set (high := map fst (filter (fun row => is_high (snd row)) labels)) in *.
    set (keep := sort_by Z.leb (high ++ sampled)) in *.
    destruct (loc features keep) as [fs|] eqn:Ef; [|discriminate].
    destruct (loc labels keep) as [ls|] eqn:El; [|discriminate].
    destruct (loc query_ids keep) as [qs|] eqn:Eq; [|discriminate].
    intros [= <- <- <-].
    destruct (loc_default (0%Z, []) features Hfi keep fs Ef) as [_ ->].
    destruct (loc_default (0, 0)%Z labels Hli keep ls El) as [Hrange ->].
    destruct (loc_default (0, 0)%Z query_ids Hqi keep qs Eq) as [_ ->].
    exists (map Z.to_nat keep). unfold rows_at. rewrite !map_map.
    repeat match goal with |- _ /\ _ => split end; try reflexivity.
    + apply sorted_labels_positions;
        [apply sort_labels_sorted | exact Hnodup |].
      eapply Forall_impl; [|exact Hrange]. simpl. intros k Hk. lia.
    + apply Forall_map. eapply Forall_impl; [|exact Hrange].
      simpl. intros k Hk. lia.
    + intros i Hi Hlabel. apply in_map_iff. exists (Z.of_nat i).
      split; [apply Nat2Z.id|].
      apply (Permutation_in _ (Permutation_sym Hperm)), in_app_iff. left.
      apply (default_index_keys is_high labels Hli). rewrite Nat2Z.id.
      split; [lia|]. unfold is_high. now apply Z.leb_le.
  - intros [= <- <- <-]. exists (seq 0 (length labels)). unfold rows_at.
    repeat match goal with |- _ /\ _ => split end.
    + apply seq_strictly_sorted.
    + apply Forall_forall. intros i Hi. apply in_seq in Hi. lia.
    + rewrite <- Hf. symmetry. apply map_nth_seq.
    + symmetry. apply map_nth_seq.
    + rewrite <- Hq. symmetry. apply map_nth_seq.
    + intros i Hi _. apply in_seq. lia.
Qed.

(** X19.  On labels that carry pandas' default index, the downsampling
    leaves the high-ranking rows alone and brings the low-ranking ones down
    to about n_high / target_ratio: the returned labels hold as many labels
    of at least 2 as the input; the number of labels below 2 is at most
    their number in the input and at most n_high / target_ratio + 1; and
    when rows were dropped it is at least n_high / target_ratio - 1.  A
    zero target_ratio never returns. *)
Theorem handle_imbalanced_data_low_row_count :
  forall (features : IndexedSeries (list Q)) (labels query_ids : IndexedSeries Z)
         (target_ratio : Q) features' labels' query_ids',
    choice_from_contract np_random_choice_from ->
    default_index labels ->
    handle_imbalanced_data np_random_choice_from features labels query_ids
      target_ratio
    = Some (features', labels', query_ids') ->
    let n_high := length (filter is_high (values labels)) in
    let n_low := length (filter is_low (values labels)) in
    let n_low' := length (filter is_low (values labels')) in
    ~ target_ratio == 0
    /\ length (filter is_high (values labels')) = n_high
    /\ (n_low' <= n_low)%nat
    /\ inject_Z (Z.of_nat n_low')
       <= inject_Z (Z.of_nat n_high) / target_ratio + 1
    /\ ((n_low' < n_low)%nat ->
        inject_Z (Z.of_nat n_high) / target_ratio - 1
        <= inject_Z (Z.of_nat n_low')).
Proof.
  intros features labels query_ids target_ratio features' labels' query_ids'
         Hchoice Hli.
  unfold handle_imbalanced_data, py_div.
  destruct (Qeq_bool target_ratio 0) eqn:Ez; [discriminate|].
  assert (Hnz : ~ target_ratio == 0)
    by (intros H; apply Qeq_bool_iff in H; congruence).
  cbv zeta. masks. rewrite !mask_sum_filter.
  pose proof (py_int_near (inject_Z (Z.of_nat
                (length (filter is_high (values labels)))) / target_ratio))
    as Hnear.
  set (target := py_int _) in *.
  destruct (target <? _)%Z eqn:Ecmp.
  - apply Z.ltb_lt in Ecmp.
    destruct (random_choice_from _ _ _) as [sampled|] eqn:Hdraw;
      [|discriminate].
    destruct (downsample_keys labels _ sampled Hchoice Hli Hdraw)
      as (Hperm & _ & Hpos & Hlen & Hlow).
    set (high := map fst (filter (fun row => is_high (snd row)) labels)) in *.
    set (keep := sort_by Z.leb (high ++ sampled)) in *.
    destruct (loc features keep) as [fs|]; [|discriminate].
    destruct (loc labels keep) as [ls|] eqn:El; [|discriminate].
    destruct (loc query_ids keep) as [qs|]; [|discriminate].
    intros [= <- <- <-].
    destruct (loc_default (0, 0)%Z labels Hli keep ls El) as [_ ->].
    assert (Hhigh : forall k, In k high ->
               is_high (snd (nth (Z.to_nat k) labels (0, 0)%Z)) = true).
    { intros k Hk.
      now apply (default_index_keys is_high labels Hli k) in Hk. }
    assert (Hflip : forall x, is_low x = negb (is_high x)).
    { intros x. unfold is_low, is_high.
      now rewrite Z.leb_antisym, negb_involutive. }
    assert (Hkept_high :
              length (filter is_high
                        (values (map (fun k => nth (Z.to_nat k) labels (0, 0)%Z)
                                     keep)))
              = length (filter is_high (values labels))).
    { unfold values at 1. rewrite map_map, filter_map_swap, length_map.
      rewrite (Permutation_length (filter_perm _ _ _ Hperm)).
      rewrite filter_app, length_app.
      rewrite (filter_all _ high) by exact Hhigh.
      rewrite (filter_none _ sampled).
      - unfold high. rewrite length_map, filter_values. simpl. lia.
      - intros k Hk. apply Hlow in Hk as [_ Hk]. rewrite Hflip in Hk.
        now apply negb_true_iff in Hk. }
    assert (Hkept_low :
              length (filter is_low
                        (values (map (fun k => nth (Z.to_nat k) labels (0, 0)%Z)
                                     keep)))
              = Z.to_nat target).
    { unfold values at 1. rewrite map_map, filter_map_swap, length_map.
      rewrite (Permutation_length (filter_perm _ _ _ Hperm)).
      rewrite filter_app, length_app.
      rewrite (filter_none _ high).
      - rewrite (filter_all _ sampled) by (intros k Hk; now apply Hlow).
        simpl. lia.
      - intros k Hk. rewrite Hflip, (Hhigh k Hk). reflexivity. }
    cbv zeta. rewrite Hkept_high, Hkept_low, Z2Nat.id by lia.
    repeat match goal with |- _ /\ _ => split end;
      try assumption; try reflexivity; try lia; try apply Hnear.
    intros _. apply Hnear.
  - apply Z.ltb_ge in Ecmp. intros [= <- <- <-]. cbv zeta.
    repeat match goal with |- _ /\ _ => split end;
      try assumption; try reflexivity; try lia.
    rewrite Zle_Qle in Ecmp. destruct Hnear as [_ Hnear].
    eapply Qle_trans; [exact Ecmp | exact Hnear].
Qed.

End Downsampling.

Lemma first_entries_contract : choice_from_contract (fun a m => firstn m a).
Proof.
  intros a m Hm. repeat split.
  - rewrite length_firstn. lia.
  - intros Hnd. rewrite <- (firstn_skipn m a) in Hnd.
    now apply NoDup_app_remove_r in Hnd.
  - intros x Hx. now apply In_firstn in Hx.
Qed.

Lemma handle_imbalanced_data_keeps_high_rows_witness :
  exists keep,
    StronglySorted lt keep
    /\ Forall (fun i => (i < 7)%nat) keep
    /\ [(0%Z, [1]); (1%Z, [2]); (2%Z, [3]); (4%Z, [5])]
       = rows_at (0%Z, [])
           [(0%Z, [1]); (1%Z, [2]); (2%Z, [3]); (3%Z, [4]); (4%Z, [5]); (5%Z, [6]);
            (6%Z, [7])] keep
    /\ [(0, 0); (1, 3); (2, 1); (4, 2)]%Z
       = rows_at (0, 0)%Z
           [(0, 0); (1, 3); (2, 1); (3, 0); (4, 2); (5, 1); (6, 0)]%Z keep
    /\ [(0, 7); (1, 7); (2, 7); (4, 8)]%Z
       = rows_at (0, 0)%Z
           [(0, 7); (1, 7); (2, 7); (3, 7); (4, 8); (5, 8); (6, 8)]%Z keep
    /\ (forall i, (i < 7)%nat ->
                  (2 <= snd (nth i [(0, 0); (1, 3); (2, 1); (3, 0); (4, 2);
                                    (5, 1); (6, 0)] (0, 0)))%Z ->
                  In i keep).
Proof.
  apply (handle_imbalanced_data_keeps_high_rows (fun a m => firstn m a)
           [(0%Z, [1]); (1%Z, [2]); (2%Z, [3]); (3%Z, [4]); (4%Z, [5]); (5%Z, [6]);
            (6%Z, [7])]
           [(0, 0); (1, 3); (2, 1); (3, 0); (4, 2); (5, 1); (6, 0)]%Z
           [(0, 7); (1, 7); (2, 7); (3, 7); (4, 8); (5, 8); (6, 8)]%Z 1).
  - apply first_entries_contract.
  - reflexivity.
  - reflexivity.
  - reflexivity.
  - reflexivity.
  - reflexivity.
  - reflexivity.
Defined.

Lemma handle_imbalanced_data_low_row_count_witness :
  ~ 1 == 0
  /\ length (filter is_high (values [(0, 0); (1, 3); (2, 1); (4, 2)]%Z))
     = 2%nat
  /\ (2 <= 5)%nat
  /\ inject_Z (Z.of_nat 2) <= inject_Z (Z.of_nat 2) / 1 + 1
  /\ ((2 < 5)%nat ->
      inject_Z (Z.of_nat 2) / 1 - 1 <= inject_Z (Z.of_nat 2)).
Proof.
  apply (handle_imbalanced_data_low_row_count (fun a m => firstn m a)
           [(0%Z, [1]); (1%Z, [2]); (2%Z, [3]); (3%Z, [4]); (4%Z, [5]); (5%Z, [6]);
            (6%Z, [7])]
           [(0, 0); (1, 3); (2, 1); (3, 0); (4, 2); (5, 1); (6, 0)]%Z
           [(0, 7); (1, 7); (2, 7); (3, 7); (4, 8); (5, 8); (6, 8)]%Z 1
           [(0%Z, [1]); (1%Z, [2]); (2%Z, [3]); (4%Z, [5])]
           [(0, 0); (1, 3); (2, 1); (4, 2)]%Z
           [(0, 7); (1, 7); (2, 7); (4, 8)]%Z).
  - apply first_entries_contract.
  - reflexivity.
  - reflexivity.
Defined.

(** * evaluate: every reported metric is a number in [0,1] *)

Section Evaluation.
Import SEORankingPredictor RankingMetrics.
Open Scope R_scope.








End Evaluation.

(** * LambdaRank loss: sign, and batches without shared query ids *)

Section PairwiseLossMore.
Import LambdaRankLoss.
Open Scope R_scope.

Lemma fold_left_invariant {A B : Type} (P : A -> Prop) (f : A -> B -> A)
    (l : list B) :
  (forall a x, P a -> P (f a x)) -> forall a, P a -> P (fold_left f l a).
Proof.
  intros Hstep. induction l as [|x l IH]; intros a Ha; simpl; [exact Ha|].
  apply IH, Hstep, Ha.
Qed.

Lemma softplus_pos (t : R) : 0 < ln (1 + exp t).
Proof.
  rewrite <- ln_1. apply ln_increasing; [lra|].
  pose proof (exp_pos t). lra.
Qed.

Lemma pair_step_nonneg sigma q_scores q_labels i j (acc : R * nat) :
  0 <= fst acc -> 0 <= fst (pair_step sigma q_scores q_labels i j acc).
Proof.
  destruct acc as [loss count]. unfold pair_step. cbv zeta.
  destruct (negb _); [|trivial]. cbn [fst]. intros Hloss.
  unfold ndcg_lambda_weight.
  match goal with |- 0 <= loss + Rabs ?d * ?p =>
    pose proof (Rabs_pos d);
    assert (0 <= p) by (destruct (Qlt_bool _ _); left; apply softplus_pos)
  end.
  nra.
Qed.

Lemma query_step_nonneg sigma scores labels query_ids (acc : R * nat) qid :
  0 <= fst acc -> 0 <= fst (query_step sigma scores labels query_ids acc qid).
Proof.
  intros Hacc. unfold query_step. cbv zeta.
  destruct (_ <? 2)%nat; [exact Hacc|].
  unfold pair_loops. cbv zeta.
  apply (fold_left_invariant (fun a => 0 <= fst a)); [|exact Hacc].
  intros a i Ha.
  apply (fold_left_invariant (fun a => 0 <= fst a)); [|exact Ha].
  intros a' j Ha'. now apply pair_step_nonneg.
Qed.

(** X21.  The LambdaRank loss is never negative, whatever the scores,
    labels, query ids and sigma are. *)
Theorem lambda_rank_loss_nonneg :
  forall (sigma : Q) (scores labels : list Q) (query_ids : list Z),
    0 <= forward sigma scores labels query_ids.
Proof.
  intros sigma scores labels query_ids. unfold forward. cbv zeta.
  pose proof (fold_left_invariant (fun a : R * nat => 0 <= fst a)
                (query_step sigma scores labels query_ids)
                (np_unique query_ids)
                (fun a x Ha =>
                   query_step_nonneg sigma scores labels query_ids a x Ha)
                (0, 0%nat) (Rle_refl 0)) as Hloss.
  destruct (fold_left _ _ _) as [loss count]. cbn [fst] in Hloss.
  apply Rle_mult_inv_pos; [exact Hloss|].
  apply lt_0_INR. lia.
Qed.

Lemma mask_select_length_le {A : Type} (mask : list bool) :
  forall (l : list A), (length (mask_select mask l) <= mask_sum mask)%nat.
Proof.
  unfold mask_sum.
  induction mask as [|c mask IH]; intros [|x l]; simpl; try lia.
  specialize (IH l). unfold mask_select in *. destruct c; simpl; lia.
Qed.

Lemma mask_sum_count (qid : Z) (query_ids : list Z) :
  mask_sum (map (fun q => (q =? qid)%Z) query_ids)
  = count_occ Z.eq_dec query_ids qid.
Proof.
  unfold mask_sum.
  induction query_ids as [|q rest IH]; simpl; [reflexivity|].
  destruct (Z.eq_dec q qid) as [->|Hne].
  - rewrite Z.eqb_refl. simpl. now rewrite IH.
  - apply Z.eqb_neq in Hne. rewrite Hne. simpl. exact IH.
Qed.

(* With pairwise distinct query ids no group has two rows, so no pair is
   ever compared *)
Lemma forward_distinct_ids (sigma : Q) (scores labels : list Q)
    (query_ids : list Z) :
  NoDup query_ids -> forward sigma scores labels query_ids = 0.
Proof.
  intros Hnodup. unfold forward. rewrite fold_left_fixed.
  - simpl. unfold Rdiv. rewrite Rinv_1. apply Rmult_0_l.
  - intros qid _. unfold query_step. cbv zeta.
    pose proof (mask_select_length_le
                  (map (fun q => (q =? qid)%Z) query_ids) scores) as Hle.
    rewrite mask_sum_count in Hle.
    pose proof (proj1 (NoDup_count_occ Z.eq_dec query_ids) Hnodup qid) as H1.
    destruct (_ <? 2)%nat eqn:E; [reflexivity|].
    apply Nat.ltb_ge in E. lia.
Qed.

Lemma np_arange_nth (n idx : nat) (q : Z) :
  nth_error (SEORankingDataset.np_arange n) idx = Some q -> q = Z.of_nat idx.
Proof.
  unfold SEORankingDataset.np_arange. intros H.
  assert (Hlt : (idx < length (map Z.of_nat (seq 0 n)))%nat)
    by (apply nth_error_Some; congruence).
  rewrite length_map, length_seq in Hlt.
  apply (nth_error_nth _ _ (Z.of_nat 0)) in H.
  rewrite map_nth, seq_nth in H by exact Hlt. now subst.
Qed.

Lemma batch_default_query_ids (features : list (list Q)) (labels : list Q)
    (indices : list nat) :
  forall fs ls qs,
    SEORankingDataset.batch
      (SEORankingDataset.__init__ features labels None) indices
    = Some (fs, ls, qs) ->
    qs = map Z.of_nat indices.
Proof.
  unfold SEORankingDataset.__init__.
  induction indices as [|idx rest IH]; intros fs ls qs; simpl.
  - now intros [= <- <- <-].
  - unfold SEORankingDataset.__getitem__. cbn [SEORankingDataset.features
      SEORankingDataset.labels SEORankingDataset.query_ids].
    destruct (nth_error features idx) as [f|]; [|discriminate].
    destruct (nth_error labels idx) as [l|]; [|discriminate].
    destruct (nth_error _ idx) as [q|] eqn:Eq; [|discriminate].
    destruct (SEORankingDataset.batch _ rest) as [[[fs' ls'] qs']|] eqn:Eb;
      [|discriminate].
    intros [= <- <- <-]. apply np_arange_nth in Eq. subst q.
    f_equal. now apply (IH fs' ls').
Qed.

Lemma NoDup_map_of_nat (l : list nat) : NoDup l -> NoDup (map Z.of_nat l).
Proof.
  induction 1 as [|x l Hx _ IH]; simpl; constructor; [|exact IH].
  intros Hin. apply in_map_iff in Hin as (y & Hy & Hin).
  apply Nat2Z.inj in Hy. now subst.
Qed.

(** X22.  A dataset built without query ids numbers its rows itself, so
    every batch drawn from it at distinct positions has pairwise distinct
    query ids, and the LambdaRank loss of such a batch is 0 for any scores:
    no pair of documents is compared. *)
Theorem lambda_rank_loss_zero_without_query_ids :
  forall (features : list (list Q)) (labels : list Q) (indices : list nat)
         (fs : list (list Q)) (ls : list Q) (qs : list Z)
         (sigma : Q) (scores : list Q),
    NoDup indices ->
    SEORankingDataset.batch
      (SEORankingDataset.__init__ features labels None) indices
    = Some (fs, ls, qs) ->
    forward sigma scores ls qs = 0.
Proof.
  intros features labels indices fs ls qs sigma scores Hnodup Hbatch.
  apply forward_distinct_ids.
  rewrite (batch_default_query_ids _ _ _ _ _ _ Hbatch).
  now apply NoDup_map_of_nat.
Qed.

Lemma lambda_rank_loss_zero_without_query_ids_witness :
  forward 1 [0.7; -0.2]%Q [1; 2]%Q [2; 0]%Z = 0.
Proof.
  apply (lambda_rank_loss_zero_without_query_ids
           [[1]; [2]; [3]]%Q [2; 0; 1]%Q [2; 0]%nat [[3]; [1]]%Q).
  - repeat constructor; simpl; intuition discriminate.
  - reflexivity.
Defined.

End PairwiseLossMore.

(** * Early stopping in train_realtime *)

Section EarlyStopping.
Import SEOFeatureEngineer RealTimeNeuralRanker.
Context {M : Type}.
Variable run_epoch : nat -> option (M * npfloat).

Ltac conjs := repeat match goal with |- _ /\ _ => split end.

Lemma flt_irrefl (a : npfloat) : flt a a = false.
Proof.
  destruct a as [x| | |]; simpl; try reflexivity.
  unfold Qlt_bool. apply negb_false_iff, Qle_bool_iff. lra.
Qed.

(* A loss that did not beat the old best does not beat a better one *)
Lemma flt_below (a b c : npfloat) :
  flt a b = false -> flt c b = true -> flt a c = false.
Proof.
  destruct a as [x| | |], b as [y| | |], c as [z| | |]; simpl;
    try reflexivity; try discriminate.
  intros H1 H2. apply Qlt_bool_false in H1. apply Qlt_bool_true in H2.
  unfold Qlt_bool. apply negb_false_iff, Qle_bool_iff. lra.
Qed.

Lemma epoch_loop_invariant (h0 : list M) (patience : Z) (m : nat) :
  forall k st st',
    training_invariant run_epoch h0 k st ->
    (patience_counter st < Z.max 1 patience)%Z ->
    epoch_loop run_epoch patience (seq k m) st = Some st' ->
    exists k',
      (k <= k' <= k + m)%nat
      /\ training_invariant run_epoch h0 k' st'
      /\ ((k' < k + m)%nat -> patience_counter st' = Z.max 1 patience).
Proof.
  induction m as [|m IH]; intros k st st' Hinv Hentry; cbn [seq epoch_loop].
  - intros [= <-]. exists k. conjs; try lia. exact Hinv.
  - destruct (run_epoch k) as [[metrics val_loss]|] eqn:Erun; [|discriminate].
    assert (Hval : val_loss_at run_epoch k = val_loss)
      by (unfold val_loss_at; now rewrite Erun).
    destruct Hinv as (Hlen & Hbest & Hsaved & Hrange & Hpos & Hstale
                      & Hwindow & Hedge).
    cbv zeta. destruct (flt val_loss (best_val_loss st)) eqn:Ecmp.
    + intros Hloop. apply IH in Hloop.
      * destruct Hloop as (k' & Hk' & Hinv' & Hstop).
        exists k'.
        conjs; try lia; try exact Hinv'; intros Hlt; apply Hstop; lia.
      * unfold training_invariant. cbv zeta.
        cbn [best_val_loss patience_counter checkpoints history].
        conjs.
        -- rewrite length_app, Hlen. simpl. lia.
        -- intros e He. destruct (Nat.eq_dec e k) as [->|Hne].
           ++ rewrite Hval. apply flt_irrefl.
           ++ apply (flt_below _ (best_val_loss st)); [|exact Ecmp].
              apply Hbest. lia.
        -- right. exists (checkpoints st), k.
           conjs; [reflexivity | lia | exact Hval].
        -- apply Forall_app. split.
           ++ eapply Forall_impl; [|exact Hrange]. intros e He. simpl in He. lia.
           ++ constructor; [lia | constructor].
        -- lia.
        -- simpl. lia.
        -- simpl. intros e He. lia.
        -- right. replace (S k - Z.to_nat 0 - 1)%nat with k by (simpl; lia).
           apply in_app_iff. right. now left.
      * cbn [patience_counter]. lia.
    + set (st1 := mkState (best_val_loss st) (patience_counter st + 1)
                          (history st ++ [metrics]) (checkpoints st)).
      assert (Hinv1 : training_invariant run_epoch h0 (S k) st1).
      { unfold training_invariant, st1. cbv zeta.
        cbn [best_val_loss patience_counter checkpoints history].
        replace (Z.to_nat (patience_counter st + 1))
          with (S (Z.to_nat (patience_counter st))) by lia.
        conjs.
        - rewrite length_app, Hlen. simpl. lia.
        - intros e He. destruct (Nat.eq_dec e k) as [->|Hne].
          + now rewrite Hval.
          + apply Hbest. lia.
        - destruct Hsaved as [Hnone|(pre & e & E & He & Hv)]; [now left|].
          right. exists pre, e. conjs; [exact E | lia | exact Hv].
        - eapply Forall_impl; [|exact Hrange]. intros e He. simpl in He. lia.
        - lia.
        - lia.
        - intros e He Hin. destruct (Nat.eq_dec e k) as [->|Hne].
          + rewrite Forall_forall in Hrange. specialize (Hrange k Hin). lia.
          + apply (Hwindow e); [lia | exact Hin].
        - destruct Hedge as [Hk|Hin]; [left; lia|]. right.
          replace (S k - S (Z.to_nat (patience_counter st)) - 1)%nat
            with (k - Z.to_nat (patience_counter st) - 1)%nat by lia.
          exact Hin. }
      destruct (patience <=? patience_counter st + 1)%Z eqn:Estop.
      * intros [= <-]. apply Z.leb_le in Estop. exists (S k).
        conjs; try lia; try exact Hinv1.
        intros _. unfold st1. cbn [patience_counter]. lia.
      * intros Hloop. apply Z.leb_gt in Estop. apply IH in Hloop.
        -- destruct Hloop as (k' & Hk' & Hinv' & Hstop).
           exists k'.
           conjs; try lia; try exact Hinv'; intros Hlt; apply Hstop; lia.
        -- exact Hinv1.
        -- unfold st1. cbn [patience_counter]. lia.
Qed.

Lemma train_realtime_invariant (h0 : list M) (epochs patience : Z)
    (r : TrainResult) :
  train_realtime run_epoch h0 epochs patience = Some r ->
  exists st,
    r = mkResult (best_val_loss st) (history st) (length (history st))
                 (checkpoints st)
    /\ exists k,
         (k <= Z.to_nat epochs)%nat
         /\ training_invariant run_epoch h0 k st
         /\ ((k < Z.to_nat epochs)%nat ->
             patience_counter st = Z.max 1 patience).
Proof.
  unfold train_realtime.
  destruct (epoch_loop _ _ _ _) as [st|] eqn:Hloop; [|discriminate].
  intros [= <-]. exists st. split; [reflexivity|].
  apply epoch_loop_invariant with (h0 := h0) in Hloop.
  - destruct Hloop as (k & Hk & Hinv & Hstop). exists k.
    conjs; try lia; try exact Hinv; intros Hlt; apply Hstop; lia.
  - unfold training_invariant. cbv zeta. cbn.
    conjs; first [lia | now left | constructor].
  - cbn. lia.
Qed.

(** X23.  best_val_loss is the lowest validation loss of the run: with
    n = total_epochs - len(history on entry) epochs run (at most epochs),
    no epoch of the run reported a loss below best_val_loss, and either no
    checkpoint was written and best_val_loss is still inf, or the last
    checkpoint was written at an epoch that reported exactly
    best_val_loss. *)
Theorem train_realtime_best_is_lowest :
  forall (h0 : list M) (epochs patience : Z) (r : TrainResult),
    train_realtime run_epoch h0 epochs patience = Some r ->
    (length h0 <= total_epochs r <= length h0 + Z.to_nat epochs)%nat
    /\ (forall e, (e < total_epochs r - length h0)%nat ->
          flt (val_loss_at run_epoch e) (result_best_val_loss r) = false)
    /\ ((saved r = [] /\ result_best_val_loss r = PInf)
        \/ exists pre e,
             saved r = pre ++ [e]
             /\ (e < total_epochs r - length h0)%nat
             /\ val_loss_at run_epoch e = result_best_val_loss r).
Proof.
  intros h0 epochs patience r Hrun.
  apply train_realtime_invariant in Hrun
    as (st & -> & k & Hk & (Hlen & Hbest & Hsaved & _) & _).
  cbn [total_epochs result_best_val_loss saved]. rewrite Hlen.
  replace (length h0 + k - length h0)%nat with k by lia.
  conjs; try lia; assumption.
Qed.

(** X24.  Training stops early only after the patience has run out: when
    fewer than epochs epochs were run, the last max(1, patience) epochs of
    the run wrote no checkpoint, and the epoch just before them (if there is
    one) did. *)
Theorem train_realtime_stops_after_patience :
  forall (h0 : list M) (epochs patience : Z) (r : TrainResult),
    train_realtime run_epoch h0 epochs patience = Some r ->
    (total_epochs r - length h0 < Z.to_nat epochs)%nat ->
    let n := (total_epochs r - length h0)%nat in
    let stale := Z.to_nat (Z.max 1 patience) in
    (stale <= n)%nat
    /\ (forall e, (n - stale <= e < n)%nat -> ~ In e (saved r))
    /\ (n = stale \/ In (n - stale - 1)%nat (saved r)).
Proof.
  intros h0 epochs patience r Hrun.
  apply train_realtime_invariant in Hrun
    as (st & -> & k & Hk & (Hlen & _ & _ & _ & _ & Hstale & Hwindow & Hedge)
        & Hstop).
  cbn [total_epochs saved]. rewrite Hlen.
  replace (length h0 + k - length h0)%nat with k by lia.
  intros Hearly. cbv zeta. rewrite <- (Hstop Hearly).
  conjs; assumption.
Qed.

End EarlyStopping.

Lemma train_realtime_best_is_lowest_witness :
  let run_epoch :=
    fun e => Some (e, nth e [SEOFeatureEngineer.Fin 5; SEOFeatureEngineer.Fin 3;
                             SEOFeatureEngineer.Fin 4; SEOFeatureEngineer.Fin 4;
                             SEOFeatureEngineer.Fin 2]
                      SEOFeatureEngineer.NaN) in
  let r := RealTimeNeuralRanker.mkResult (SEOFeatureEngineer.Fin 3)
             [7; 0; 1; 2; 3]%nat 5 [0; 1]%nat in
  (length [7%nat] <= RealTimeNeuralRanker.total_epochs r
   <= length [7%nat] + Z.to_nat 5)%nat
  /\ (forall e, (e < RealTimeNeuralRanker.total_epochs r - length [7%nat])%nat ->
        RealTimeNeuralRanker.flt (val_loss_at run_epoch e)
          (RealTimeNeuralRanker.result_best_val_loss r) = false)
  /\ ((RealTimeNeuralRanker.saved r = []
       /\ RealTimeNeuralRanker.result_best_val_loss r = SEOFeatureEngineer.PInf)
      \/ exists pre e,
           RealTimeNeuralRanker.saved r = pre ++ [e]
           /\ (e < RealTimeNeuralRanker.total_epochs r - length [7%nat])%nat
           /\ val_loss_at run_epoch e
              = RealTimeNeuralRanker.result_best_val_loss r).
Proof.
  intros run_epoch r.
  apply (train_realtime_best_is_lowest run_epoch [7%nat] 5 2 r).
  reflexivity.
Defined.

Lemma train_realtime_stops_after_patience_witness :
  let r := RealTimeNeuralRanker.mkResult (SEOFeatureEngineer.Fin 3)
             [7; 0; 1; 2; 3]%nat 5 [0; 1]%nat in
  let n := (RealTimeNeuralRanker.total_epochs r - length [7%nat])%nat in
  let stale := Z.to_nat (Z.max 1 2) in
  (stale <= n)%nat
  /\ (forall e, (n - stale <= e < n)%nat -> ~ In e (RealTimeNeuralRanker.saved r))
  /\ (n = stale \/ In (n - stale - 1)%nat (RealTimeNeuralRanker.saved r)).
Proof.
  intros r.
  apply (train_realtime_stops_after_patience
           (fun e => Some (e, nth e [SEOFeatureEngineer.Fin 5;
                                     SEOFeatureEngineer.Fin 3;
                                     SEOFeatureEngineer.Fin 4;
                                     SEOFeatureEngineer.Fin 4;
                                     SEOFeatureEngineer.Fin 2]
                              SEOFeatureEngineer.NaN))
           [7%nat] 5 2 r).
  - reflexivity.
  - simpl. lia.
Defined.

(** * Metric streaming and the network's layers *)

Section Streaming.
Import RealTimeTrainingCallback.

Lemma get_live_metrics_drains (q : list Metrics) :
  forall acc, get_live_metrics q acc = (acc ++ q, []).
Proof.
  induction q as [|m q IH]; intros acc; simpl.
  - now rewrite app_nil_r.
  - rewrite IH. now rewrite <- app_assoc.
Qed.

Lemma epoch_message_epoch (epoch : Z) (ts : string) (metrics : Metrics) :
  dict_get String.eqb "epoch" metrics = None ->
  dict_get String.eqb "epoch" (epoch_message epoch ts metrics)
  = Some (Int epoch).
Proof.
  unfold epoch_message.
  assert (Hgen : forall d,
             dict_get String.eqb "epoch" d = Some (Int epoch) ->
             dict_get String.eqb "epoch" metrics = None ->
             dict_get String.eqb "epoch"
               (fold_left (fun d kv => dict_set String.eqb (fst kv) (snd kv) d)
                          metrics d)
             = Some (Int epoch)).
  { induction metrics as [|[k v] rest IH]; intros d Hd Hfree;
      cbn [fold_left fst snd]; [exact Hd|].
    cbn [dict_get] in Hfree. destruct (String.eqb "epoch" k) eqn:E; [discriminate|].
    apply IH; [|exact Hfree]. now rewrite dict_get_set_other. }
  intros Hfree. now apply Hgen.
Qed.

(** X25.  With a queue and a non-zero log_interval, a series of
    on_epoch_end calls puts on the queue one message per call whose epoch is
    a multiple of log_interval, in call order and carrying that epoch
    (metrics without an 'epoch' key of their own), after what the queue
    already held; get_live_metrics then returns the whole queue, oldest
    first, and leaves it empty. *)
Theorem on_epoch_end_streams_every_interval :
  forall (cb : RealTimeTrainingCallback) (q : list Metrics)
         (calls : list (Z * string * Metrics)),
    metric_queue cb = Some q ->
    log_interval cb <> 0%Z ->
    (forall epoch now metrics,
        In (epoch, now, metrics) calls ->
        dict_get String.eqb "epoch" metrics = None) ->
    exists cb' q',
      on_epochs cb calls = Some cb'
      /\ metric_queue cb' = Some (q ++ q')
      /\ map (dict_get String.eqb "epoch") q'
         = map (fun e => Some (Int e))
               (filter (fun e => (e mod log_interval cb =? 0)%Z)
                       (map (fun call => fst (fst call)) calls))
      /\ get_live_metrics (q ++ q') [] = (q ++ q', []).
Proof.
  intros cb q calls. revert cb q.
  induction calls as [|[[epoch ts] metrics] rest IH]; intros cb q Hq Hli Hfree.
  - exists cb, []. rewrite app_nil_r. repeat split; try assumption.
    apply get_live_metrics_drains.
  - cbn [on_epochs]. unfold on_epoch_end.
    apply Z.eqb_neq in Hli. rewrite Hli. apply Z.eqb_neq in Hli.
    assert (Hzero : ((epoch mod log_interval cb =? 0) || (epoch =? 0))%Z
                    = (epoch mod log_interval cb =? 0)%Z).
    { destruct (epoch =? 0)%Z eqn:E; [|apply orb_false_r].
      apply Z.eqb_eq in E. subst. rewrite Z.mod_0_l by exact Hli. reflexivity. }
    rewrite Hzero. cbn [map fst filter].
    destruct (epoch mod log_interval cb =? 0)%Z.
    + destruct (IH (send_metrics cb (epoch_message epoch ts metrics))
                   (q ++ [epoch_message epoch ts metrics]))
        as (cb' & q' & Hrun & Hq' & Hmsgs & Hdrain).
      * unfold send_metrics. cbn [metric_queue]. now rewrite Hq.
      * exact Hli.
      * intros e n m Hin. apply (Hfree e n m). now right.
      * exists cb', (epoch_message epoch ts metrics :: q').
        cbn [send_metrics log_interval] in Hmsgs.
        rewrite <- app_assoc in Hq', Hdrain. cbn [app] in Hq', Hdrain.
        repeat split; try assumption.
        cbn [map]. rewrite Hmsgs, epoch_message_epoch; [reflexivity|].
        apply (Hfree epoch ts metrics). now left.
    + destruct (IH cb q Hq Hli) as (cb' & q' & Hrun & Hq' & Hmsgs & Hdrain).
      * intros e n m Hin. apply (Hfree e n m). now right.
      * exists cb', q'. repeat split; assumption.
Qed.

Lemma on_epoch_end_streams_every_interval_witness :
  exists cb' q',
    on_epochs (mkCallback (Some []) None 2)
      [(0%Z, "t0", [("train_loss", Num (SEOFeatureEngineer.Fin 0.9))]);
       (1%Z, "t1", [("train_loss", Num (SEOFeatureEngineer.Fin 0.8))]);
       (2%Z, "t2", [("train_loss", Num (SEOFeatureEngineer.Fin 0.7))])]
    = Some cb'
    /\ metric_queue cb' = Some ([] ++ q')
    /\ map (dict_get String.eqb "epoch") q'
       = map (fun e => Some (Int e))
             (filter (fun e => (e mod 2 =? 0)%Z)
                     (map (fun call => fst (fst call))
                        [(0%Z, "t0",
                          [("train_loss", Num (SEOFeatureEngineer.Fin 0.9))]);
                         (1%Z, "t1",
                          [("train_loss", Num (SEOFeatureEngineer.Fin 0.8))]);
                         (2%Z, "t2",
                          [("train_loss", Num (SEOFeatureEngineer.Fin 0.7))])]))
    /\ get_live_metrics ([] ++ q') [] = ([] ++ q', []).
Proof.
  apply (on_epoch_end_streams_every_interval
           (mkCallback (Some []) None 2) []).
  - reflexivity.
  - discriminate.
  - intros e ts m [H|[H|[H|[]]]]; inversion H; reflexivity.
Defined.

End Streaming.

Section NetworkShape.
Import DeepRankingNetwork.

Lemma feed_app (a b : list layer) :
  forall width,
    feed (a ++ b) width
    = match feed a width with
      | Some w => feed b w
      | None => None
      end.
Proof.
  induction a as [|l a IH]; intros width; simpl; [reflexivity|].
  destruct l; try apply IH.
  - destruct (_ =? _)%nat; [apply IH | reflexivity].
  - destruct (_ =? _)%nat; [apply IH | reflexivity].
Qed.

Lemma hidden_layers_shape (dropout : Q) (use_batch_norm : bool)
    (hidden_dims : list nat) :
  forall prev_dim layers width,
    feed layers width = Some prev_dim ->
    feed (fst (hidden_layers prev_dim hidden_dims dropout use_batch_norm layers))
         width
    = Some (snd (hidden_layers prev_dim hidden_dims dropout use_batch_norm
                   layers))
    /\ length (fst (hidden_layers prev_dim hidden_dims dropout use_batch_norm
                      layers))
       = (length layers
          + (if use_batch_norm then 4 else 3) * length hidden_dims)%nat.
Proof.
  induction hidden_dims as [|h rest IH]; intros prev_dim layers width Hfeed.
  - simpl. split; [exact Hfeed | lia].
  - cbn [hidden_layers]. cbv zeta.
    match goal with
    | |- context [hidden_layers h rest dropout use_batch_norm ?ls] =>
        destruct (IH h ls width) as [Hf Hl]
    end.
    + rewrite !feed_app. destruct use_batch_norm.
      * rewrite feed_app, feed_app, Hfeed. simpl.
        now rewrite !Nat.eqb_refl.
      * rewrite feed_app, Hfeed. simpl. now rewrite Nat.eqb_refl.
    + split; [exact Hf|]. rewrite Hl.
      destruct use_batch_norm; rewrite !length_app; simpl; lia.
Qed.

(** X26.  The layer list DeepRankingNetwork builds is well-shaped for every
    choice of hidden_dims, also the empty one: each layer accepts the width
    its predecessor produces, an input of width input_dim comes out with
    width 1, and there are 4 layers per hidden dimension (3 without batch
    normalization) plus the output layer. *)
Theorem deep_ranking_network_well_shaped :
  forall (input_dim : nat) (hidden_dims : list nat) (dropout : Q)
         (use_batch_norm : bool),
    feed (__init__ input_dim hidden_dims dropout use_batch_norm) input_dim
    = Some 1%nat
    /\ length (__init__ input_dim hidden_dims dropout use_batch_norm)
       = ((if use_batch_norm then 4 else 3) * length hidden_dims + 1)%nat.
Proof.
  intros input_dim hidden_dims dropout use_batch_norm. unfold __init__.
  destruct (hidden_layers_shape dropout use_batch_norm hidden_dims
              input_dim [] input_dim eq_refl) as [Hf Hl].
  destruct (hidden_layers _ _ _ _ _) as [layers prev_dim].
  cbn [fst snd] in Hf, Hl. split.
  - rewrite feed_app, Hf. simpl. now rewrite Nat.eqb_refl.
  - rewrite length_app, Hl. simpl. lia.
Qed.

End NetworkShape.

(** * analyze_seo.py: scores and predicted positions *)

Section AnalyzeSeoScores.
Import AnalyzeSeo.

Ltac q_facts :=
  repeat match goal with
         | H : Qle_bool _ _ = true |- _ => apply Qle_bool_iff in H
         | H : Qle_bool _ _ = false |- _ => apply Qle_bool_false in H
         | H : Qlt_bool _ _ = true |- _ => apply Qlt_bool_true in H
         | H : Qlt_bool _ _ = false |- _ => apply Qlt_bool_false in H
         end.

(* The points of one vital, as calculate_technical_score adds them and as
   the rating of analyze_technical words them *)
Lemma vital_points_agree (technical_data : Data) (key metric : string)
    (dflt good fair x : Q) (r : string) :
  good < dflt <= fair -> 0 <= good ->
  (forall v,
      get_cwv_rating metric v
      = (y <- number v ;;
         if Qle_bool y good then Some "good"
         else if Qle_bool y fair then Some "needs-improvement"
         else Some "poor")) ->
  number (get technical_data key (PyNum dflt)) = Some x ->
  get_cwv_rating metric (get technical_data key (PyNum 0)) = Some r ->
  (if Qle_bool x good then 33.33
   else if Qle_bool x fair then 16.67 else 0)
  == vital_points technical_data key (mkVital (get technical_data key (PyNum 0)) r)
  /\ (dict_get String.eqb key technical_data = None -> r = "good").
Proof.
  intros Hd Hg Hrating. rewrite Hrating. unfold get, vital_points.
  destruct (dict_get String.eqb key technical_data) as [v|].
  - intros -> Hr. split; [|discriminate]. cbn [rating].
    destruct (Qle_bool x good); [injection Hr as <-; reflexivity|].
    destruct (Qle_bool x fair); injection Hr as <-; reflexivity.
  - cbn [number]. intros [= <-].
    assert (E0 : Qle_bool 0 good = true) by (apply Qle_bool_iff; lra).
    rewrite E0. intros [= <-]. split; [|reflexivity].
    destruct (Qle_bool dflt good) eqn:E1; q_facts; [lra|].
    destruct (Qle_bool dflt fair) eqn:E2; q_facts; [reflexivity | lra].
Qed.

(** X27.  The technical score is the sum of the points of the three Core
    Web Vitals ratings that analyze_technical reports (good 33.33,
    needs-improvement 16.67, poor 0) for the metrics present in the data,
    and lies between 0 and 99.99; a metric that is missing is reported as
    'good' but counted with the 16.67 points of needs-improvement. *)
Theorem analyze_technical_score_and_ratings :
  forall (technical_data : Data) (report : TechnicalAnalysis),
    analyze_technical technical_data = Some report ->
    score report
    == vital_points technical_data "largestContentfulPaint" (lcp report)
       + vital_points technical_data "interactionToNextPaint" (inp report)
       + vital_points technical_data "cumulativeLayoutShift" (cls report)
    /\ 0 <= score report <= 99.99
    /\ (dict_get String.eqb "largestContentfulPaint" technical_data = None ->
        rating (lcp report) = "good")
    /\ (dict_get String.eqb "interactionToNextPaint" technical_data = None ->
        rating (inp report) = "good")
    /\ (dict_get String.eqb "cumulativeLayoutShift" technical_data = None ->
        rating (cls report) = "good").
Proof.
  intros technical_data report. unfold analyze_technical.
  destruct (calculate_technical_score technical_data) as [s|] eqn:Hscore;
    [|discriminate].
  destruct (get_cwv_rating "lcp" _) as [r1|] eqn:H1; [|discriminate].
  destruct (get_cwv_rating "inp" _) as [r2|] eqn:H2; [|discriminate].
  destruct (get_cwv_rating "cls" _) as [r3|] eqn:H3; [|discriminate].
  intros [= <-]. cbn [score lcp inp cls rating].
  unfold calculate_technical_score in Hscore.
  destruct (number (get technical_data "largestContentfulPaint" _))
    as [x1|] eqn:N1; [|discriminate].
  destruct (number (get technical_data "interactionToNextPaint" _))
    as [x2|] eqn:N2; [|discriminate].
  destruct (number (get technical_data "cumulativeLayoutShift" _))
    as [x3|] eqn:N3; [|discriminate].
  cbv zeta in Hscore. injection Hscore as <-.
  destruct (vital_points_agree technical_data "largestContentfulPaint" "lcp"
              4000 2500 4000 x1 r1) as [P1 M1];
    try assumption; try reflexivity; try lra.
  destruct (vital_points_agree technical_data "interactionToNextPaint" "inp"
              500 200 500 x2 r2) as [P2 M2];
    try assumption; try reflexivity; try lra.
  destruct (vital_points_agree technical_data "cumulativeLayoutShift" "cls"
              0.25 0.1 0.25 x3 r3) as [P3 M3];
    try assumption; try reflexivity; try lra.
  rewrite <- P1, <- P2, <- P3.
  repeat match goal with |- _ /\ _ => split end; try assumption;
    destruct (Qle_bool x1 2500); destruct (Qle_bool x1 4000);
    destruct (Qle_bool x2 200); destruct (Qle_bool x2 500);
    destruct (Qle_bool x3 0.1); destruct (Qle_bool x3 0.25); lra.
Qed.

Lemma analyze_technical_score_and_ratings_witness :
  let data := [("largestContentfulPaint", PyNum 2100);
               ("cumulativeLayoutShift", PyNum 0.3)] in
  let report := mkTechnical (0 + 33.33 + 16.67)
                  (mkVital (PyNum 2100) "good")
                  (mkVital (PyNum 0) "good")
                  (mkVital (PyNum 0.3) "poor") in
  score report
  == vital_points data "largestContentfulPaint" (lcp report)
     + vital_points data "interactionToNextPaint" (inp report)
     + vital_points data "cumulativeLayoutShift" (cls report)
  /\ 0 <= score report <= 99.99
  /\ (dict_get String.eqb "largestContentfulPaint" data = None ->
      rating (lcp report) = "good")
  /\ (dict_get String.eqb "interactionToNextPaint" data = None ->
      rating (inp report) = "good")
  /\ (dict_get String.eqb "cumulativeLayoutShift" data = None ->
      rating (cls report) = "good").
Proof.
  intros data report.
  apply (analyze_technical_score_and_ratings data report). reflexivity.
Defined.

(** X28.  calculate_onpage_score returns a value between 0 and 100 when
    headingStructure and contentQuality are numbers between 0 and 100 (or
    missing) and keywordDensity is a number (or missing).  The value is 100
    when title, meta description and schema markup are set, headingStructure
    and contentQuality are 100 and keywordDensity lies in [1.0, 2.5]; and it
    is 100 only when title, meta description and schema markup are set and
    keywordDensity lies in [1.0, 2.5]. *)
Theorem calculate_onpage_score_range :
  forall (onpage_data : Data) (heading content density : Q),
    number (get onpage_data "headingStructure" (PyNum 0)) = Some heading ->
    number (get onpage_data "contentQuality" (PyNum 0)) = Some content ->
    number (get onpage_data "keywordDensity" (PyNum 0)) = Some density ->
    0 <= heading <= 100 ->
    0 <= content <= 100 ->
    exists onpage_score,
      calculate_onpage_score onpage_data = Some onpage_score
      /\ 0 <= onpage_score <= 100
      /\ (truthy (get onpage_data "titleOptimized" PyNone) = true
          /\ truthy (get onpage_data "metaOptimized" PyNone) = true
          /\ truthy (get onpage_data "schemaMarkup" PyNone) = true
          /\ heading == 100 /\ content == 100 /\ 1 <= density <= 2.5 ->
          onpage_score == 100)
      /\ (onpage_score == 100 ->
          truthy (get onpage_data "titleOptimized" PyNone) = true
          /\ truthy (get onpage_data "metaOptimized" PyNone) = true
          /\ truthy (get onpage_data "schemaMarkup" PyNone) = true
          /\ 1 <= density <= 2.5).
Proof.
  intros onpage_data heading content density Hh Hc Hd Hhr Hcr.
  unfold calculate_onpage_score. rewrite Hh, Hc, Hd. cbv zeta.
  unfold py_div.
  assert (Hmax : Qeq_bool (0 + 20 + 15 + 15 + 25 + 10 + 15) 0 = false)
    by reflexivity.
  rewrite Hmax. eexists. split; [reflexivity|].
  change (0 + 20 + 15 + 15 + 25 + 10 + 15) with 100.
  assert (Hpercent : forall x, x / 100 * 100 == x) by (intros x; field).
  assert (Hshare : forall x, x / 100 == x * 0.01) by (intros x; field).
  destruct (truthy (get onpage_data "titleOptimized" PyNone));
    destruct (truthy (get onpage_data "metaOptimized" PyNone));
    destruct (truthy (get onpage_data "schemaMarkup" PyNone));
    destruct (Qle_bool 1.0 density) eqn:D1;
    destruct (Qle_bool density 2.5) eqn:D2;
    destruct (Qle_bool 0.5 density) eqn:D3;
    destruct (Qlt_bool density 1.0) eqn:D4;
    destruct (Qlt_bool 2.5 density) eqn:D5;
    destruct (Qle_bool density 3.5) eqn:D6;
    cbn [andb orb]; q_facts;
    try (exfalso; lra);
    setoid_rewrite Hpercent; setoid_rewrite Hshare;
    (split;
     [split; lra
     |split;
      [intros (T & Me & Sc & H1 & H2 & H3 & H4); try discriminate; lra
      |intros Hfull; repeat split;
       first [reflexivity | lra | exfalso; lra]]]).
Qed.

Lemma calculate_onpage_score_range_witness :
  exists onpage_score,
    calculate_onpage_score
      [("titleOptimized", PyBool true); ("metaOptimized", PyBool true);
       ("headingStructure", PyNum 100); ("contentQuality", PyNum 100);
       ("keywordDensity", PyNum 1.5); ("schemaMarkup", PyBool true)]
    = Some onpage_score
    /\ 0 <= onpage_score <= 100
    /\ onpage_score == 100.
Proof.
  destruct (calculate_onpage_score_range
              [("titleOptimized", PyBool true); ("metaOptimized", PyBool true);
               ("headingStructure", PyNum 100); ("contentQuality", PyNum 100);
               ("keywordDensity", PyNum 1.5); ("schemaMarkup", PyBool true)]
              100 100 1.5)
    as (onpage_score & Hscore & Hrange & Hfull & _);
    try reflexivity; try lra.
  exists onpage_score. split; [exact Hscore|]. split; [exact Hrange|].
  apply Hfull. repeat split; try reflexivity; lra.
Defined.

(** X29.  For a current position of at least 1, score_to_position never
    predicts a worse position for a higher score, and every prediction is a
    position of at least 1 between current_position - 10 and
    current_position + 2. *)
Theorem score_to_position_monotone :
  forall (score1 score2 : Q) (current_position : Z),
    (1 <= current_position)%Z ->
    score1 <= score2 ->
    (1 <= score_to_position score2 current_position
     <= score_to_position score1 current_position)%Z
    /\ (current_position - 10 <= score_to_position score2 current_position)%Z
    /\ (score_to_position score1 current_position <= current_position + 2)%Z.
Proof.
  intros score1 score2 current_position Hpos Hle. unfold score_to_position.
  destruct (Qle_bool 0.8 score1) eqn:A1; destruct (Qle_bool 0.6 score1) eqn:A2;
    destruct (Qle_bool 0.4 score1) eqn:A3;
    destruct (Qle_bool 0.8 score2) eqn:B1; destruct (Qle_bool 0.6 score2) eqn:B2;
    destruct (Qle_bool 0.4 score2) eqn:B3;
    q_facts; try lra; unfold py_max_int;
    repeat match goal with
           | |- context [(?a <? ?b)%Z] => destruct (Z.ltb_spec a b)
           end; lia.
Qed.

Lemma score_to_position_monotone_witness :
  (1 <= score_to_position 0.85 7 <= score_to_position 0.5 7)%Z
  /\ (7 - 10 <= score_to_position 0.85 7)%Z
  /\ (score_to_position 0.5 7 <= 7 + 2)%Z.
Proof.
  apply score_to_position_monotone; [lia | lra].
Defined.

End AnalyzeSeoScores.

(** * train_seo_model.py: when the simplified NDCG returns *)

Section TrainerNdcg.
Import SEOModelTrainer.

Lemma broadcast_div_returns (a b : list R) :
  (exists r, broadcast_div a b = Some r)
  <-> (length a = length b \/ length a = 1 \/ length b = 1)%nat.
Proof.
  unfold broadcast_div.
  destruct (Nat.eqb_spec (length a) (length b)) as [E|E];
    [split; [now left | eauto]|].
  destruct (Nat.eqb_spec (length a) 1) as [E1|E1];
    [split; [now (right; left) | eauto]|].
  destruct (Nat.eqb_spec (length b) 1) as [E2|E2];
    [split; [now (right; right) | eauto]|].
  split; [intros [r Hr]; discriminate | intros [H|[H|H]]; contradiction].
Qed.

Lemma top_k_length {A : Type} (leb : A -> A -> bool) (l : list A) (k : nat) :
  length (firstn k (rev (argsort leb l))) = Nat.min k (length l).
Proof. now rewrite length_firstn, length_rev, argsort_length. Qed.

Lemma top_k_in_range {A : Type} (leb : A -> A -> bool) (l : list A) (k : nat) :
  Forall (fun i => (i < length l)%nat) (firstn k (rev (argsort leb l))).
Proof.
  apply Forall_firstn, Forall_rev, argsort_in_range.
Qed.

(** X30.  The trainer's simplified NDCG returns exactly when numpy can
    divide the gains of the top k documents by the k rank discounts: with n
    documents (one prediction each), _calculate_ndcg returns if k <= n, or
    n = 1, or k = 1, and raises for every other n.  With the default k = 10
    a test set of 2 to 9 documents (or an empty one) makes it raise. *)
Theorem trainer_ndcg_returns_iff :
  forall (y_true y_pred : list Q) (k : nat),
    length y_pred = length y_true ->
    (exists ndcg, _calculate_ndcg y_true y_pred k = Some ndcg)
    <-> (k <= length y_true \/ length y_true = 1 \/ k = 1)%nat.
Proof.
  intros y_true y_pred k Hlen. unfold _calculate_ndcg. cbv zeta.
  destruct (take_some y_true (firstn k (rev (argsort Qle_bool y_pred))))
    as [ranked Hranked].
  { rewrite <- Hlen. apply top_k_in_range. }
  destruct (take_some y_true (firstn k (rev (argsort Qle_bool y_true))))
    as [ideal Hideal].
  { apply top_k_in_range. }
  rewrite Hranked.
  assert (Lr : length (gains ranked) = Nat.min k (length y_true)).
  { unfold gains. rewrite length_map, (take_length _ _ _ Hranked),
      top_k_length. now rewrite Hlen. }
  assert (Li : length (gains ideal) = Nat.min k (length y_true)).
  { unfold gains. now rewrite length_map, (take_length _ _ _ Hideal),
      top_k_length. }
  assert (Lk : length (log2_ranks k) = k)
    by (unfold log2_ranks; now rewrite length_map, length_seq).
  pose proof (broadcast_div_returns (gains ranked) (log2_ranks k)) as Br.
  pose proof (broadcast_div_returns (gains ideal) (log2_ranks k)) as Bi.
  rewrite Lr, Lk in Br. rewrite Li, Lk in Bi.
  destruct (broadcast_div (gains ranked) (log2_ranks k)) as [terms|].
  - rewrite Hideal.
    destruct (broadcast_div (gains ideal) (log2_ranks k)) as [ideal_terms|].
    + split.
      * intros _. destruct (proj1 Br) as [H|[H|H]]; [eauto | lia | lia | lia].
      * intros _. destruct (Rlt_dec 0 _); eauto.
    + split; [intros [v Hv]; discriminate|].
      intros H. destruct (proj2 Bi) as [r Hr]; [lia | discriminate].
  - split; [intros [v Hv]; discriminate|].
    intros H. destruct (proj2 Br) as [r Hr]; [lia | discriminate].
Qed.

Lemma trainer_ndcg_returns_iff_witness :
  (exists ndcg, _calculate_ndcg [0.5; 0.7; 0.2] [0.1; 0.2; 0.3] 10 = Some ndcg)
  <-> ((10 <= length [0.5; 0.7; 0.2]%Q)%nat
       \/ length [0.5; 0.7; 0.2]%Q = 1%nat \/ 10%nat = 1%nat).
Proof.
  apply trainer_ndcg_returns_iff. reflexivity.
Defined.

End TrainerNdcg.
